(** * Data-Ingestion: the transformation engine, the value normalizers and
      the SQL identifier quoter of [data_processing.py]

    A shallow embedding of the functions of [src/data_processing.py] (and of
    the one helper it imports from [src/utilities.py]) together with the
    "Apply Transformations" handler of [src/streamlit_interface.py].

    Python values are modelled as follows.
    - [str] is [string]; a character is an 8-bit code point, so the model
      covers text whose code points are below 256.
    - [int] is [Z]; [float] is [spec_float] (sign, mantissa, exponent), read
      as the binary64 value it denotes.
    - a [dict] decoded from JSON is a [gmap] with [string] keys, except the
      top-level configuration, whose iteration order matters and which is
      kept as a list of items.
    - a DataFrame is an object on a heap of frames, addressed by a location,
      since [apply_transformations] assigns into the frame it is given.
    - a raised exception is the [Raise] outcome of the [result] type. *)

From Stdlib Require Import ZArith String Ascii List Bool Lia.
From Stdlib Require Import Floats.SpecFloat.
From stdpp Require Import gmap strings list fin_maps pretty.

Import ListNotations.
Local Open Scope string_scope.
Local Open Scope Z_scope.

(** ** Python strings *)

Module PyStr.

(** [str.isspace] on one code point below 256: TAB..CR, FS..US, SPACE,
    NEL (0x85) and NBSP (0xA0). *)
Definition is_space (c : ascii) : bool :=
  let n := nat_of_ascii c in
  ((9 <=? n) && (n <=? 13) || (28 <=? n) && (n <=? 32)
   || (n =? 133) || (n =? 160))%nat.

(** [str.upper] on one code point: only [a]..[z] change.  (For the other
    code points below 256 Python's result holds no letter of FROM or JOIN,
    the only strings [upper] is compared with here.) *)
Definition upper_char (c : ascii) : ascii :=
  let n := nat_of_ascii c in
  if ((97 <=? n) && (n <=? 122))%nat then ascii_of_nat (n - 32) else c.

Fixpoint upper (s : string) : string :=
  match s with
  | EmptyString => EmptyString
  | String c r => String (upper_char c) (upper r)
  end.

(** [s.startswith(c)] and [s.endswith(c)] for a one-character [c]. *)
Definition startswith_char (c : ascii) (s : string) : bool :=
  match s with
  | EmptyString => false
  | String d _ => Ascii.eqb d c
  end.

Fixpoint endswith_char (c : ascii) (s : string) : bool :=
  match s with
  | EmptyString => false
  | String d EmptyString => Ascii.eqb d c
  | String _ r => endswith_char c r
  end.

(** [s.replace(c, '')] for a one-character [c]: every occurrence goes. *)
Fixpoint remove_char (c : ascii) (s : string) : string :=
  match s with
  | EmptyString => EmptyString
  | String d r => if Ascii.eqb d c then remove_char c r
                  else String d (remove_char c r)
  end.

(** [s.split()]: the maximal runs of non-whitespace, in order.  [cur] is the
    run being read. *)
Fixpoint split_from (cur : string) (s : string) : list string :=
  match s with
  | EmptyString => if String.eqb cur "" then [] else [cur]
  | String c r =>
      if is_space c
      then (if String.eqb cur "" then split_from "" r
            else cur :: split_from "" r)
      else split_from (cur ++ String c "") r
  end.

Definition split (s : string) : list string := split_from "" s.

(** [sep.join(parts)]. *)
Fixpoint join (sep : string) (parts : list string) : string :=
  match parts with
  | [] => ""
  | [p] => p
  | p :: rest => p ++ sep ++ join sep rest
  end.

End PyStr.

(** ** The SQL identifier quoter *)

Definition dquote : ascii := ascii_of_nat 34.

(** [quoted s] is [s] between two double-quote characters. *)
Definition quoted (s : string) : string := String dquote (s ++ String dquote "").

(** The test of [quote_identifier]: [identifier] starts with a double quote
    and ends with one. *)
Definition is_quoted (identifier : string) : bool :=
  PyStr.startswith_char dquote identifier && PyStr.endswith_char dquote identifier.

Definition quote_identifier (identifier : string) : string :=
  if negb (is_quoted identifier)
  then quoted (PyStr.remove_char dquote identifier)
  else identifier.

(** [previous_word.upper() in ["FROM", "JOIN"]] *)
Definition follows_keyword (previous_word : string) : bool :=
  let u := PyStr.upper previous_word in
  String.eqb u "FROM" || String.eqb u "JOIN".

(** The body of the [for word in sql_parts] loop, with [previous_word] as
    the loop-carried state; the result is [processed_parts]. *)
Fixpoint process_parts (previous_word : string) (sql_parts : list string)
  : list string :=
  match sql_parts with
  | [] => []
  | word :: rest =>
      let word := if follows_keyword previous_word
                  then quote_identifier word else word in
      word :: process_parts word rest
  end.

Definition process_sql_query (sql_query : string) : string :=
  PyStr.join " " (process_parts "" (PyStr.split sql_query)).

(** ** Values, exceptions and outcomes *)

(** A cell of a column, or a scalar handed to a cell function.  [CNone] is
    Python's [None]; the float NaN is [CFloat S754_nan]. *)
Inductive cell : Type :=
  | CNone
  | CBool (b : bool)
  | CInt (z : Z)
  | CFloat (f : spec_float)
  | CStr (s : string).

(** The exceptions that occur.  [LibraryError] stands for the exception
    classes that pandas defines.  [NoFrame] is not a Python exception: it
    marks a location that holds no frame, which no run from a heap holding
    the frame reaches. *)
Inductive exn : Type :=
  | NameError (name : string)
  | KeyError (key : string)
  | AttributeError
  | TypeError
  | ValueError
  | OverflowError
  | LibraryError
  | NoFrame.

Inductive result (A : Type) : Type :=
  | Ok (a : A)
  | Raise (e : exn).
Arguments Ok {A} a.
Arguments Raise {A} e.

Definition rbind {A B} (r : result A) (k : A -> result B) : result B :=
  match r with
  | Ok a => k a
  | Raise e => Raise e
  end.

(** Elementwise application that stops at the first exception. *)
Fixpoint rmap {A B} (f : A -> result B) (l : list A) : result (list B) :=
  match l with
  | [] => Ok []
  | x :: r => rbind (f x) (fun y => rbind (rmap f r) (fun ys => Ok (y :: ys)))
  end.

(** ** The builtins [int] and [str] on the modelled values *)

Module Builtins.

Definition is_digit (c : ascii) : bool :=
  let n := nat_of_ascii c in ((48 <=? n) && (n <=? 57))%nat.

Definition digit_val (c : ascii) : Z := Z.of_nat (nat_of_ascii c) - 48.

(** The characters that [int] skips around a numeral.  Below 128 these are
    TAB..CR and SPACE; FS..US, which [str.strip] removes, are not skipped.
    From 128 on [int] first turns whitespace into a blank, which below 256
    is NEL (0x85) and NBSP (0xA0). *)
Definition is_int_space (c : ascii) : bool :=
  let n := nat_of_ascii c in
  ((9 <=? n) && (n <=? 13) || (n =? 32) || (n =? 133) || (n =? 160))%nat.

Fixpoint skip_leading (s : string) : string :=
  match s with
  | EmptyString => EmptyString
  | String c r => if is_int_space c then skip_leading r else s
  end.

Fixpoint skip_trailing (s : string) : string :=
  match s with
  | EmptyString => EmptyString
  | String c r =>
      match skip_trailing r with
      | EmptyString => if is_int_space c then EmptyString else String c EmptyString
      | r' => String c r'
      end
  end.

(** The limit that the interpreter puts on the number of digits when it
    converts between [int] and [str] ([sys.get_int_max_str_digits()], by
    default). *)
Definition max_str_digits : nat := 4300.

(** Decimal digits with single underscores allowed between two digits:
    [prev_digit] tells whether the last character read was a digit, and
    [digits] counts the digits read. *)
Fixpoint parse_digits (acc : Z) (prev_digit : bool) (digits : nat) (s : string)
  : option Z :=
  match s with
  | EmptyString =>
      if prev_digit && (digits <=? max_str_digits)%nat then Some acc else None
  | String c r =>
      if is_digit c then parse_digits (10 * acc + digit_val c) true (S digits) r
      else if Ascii.eqb c "_"%char
           then (if prev_digit then parse_digits acc false digits r else None)
           else None
  end.

(** [int(s)] for a string: surrounding whitespace, one optional sign, then
    digits, no more than [max_str_digits] of them.  [None] stands for
    [ValueError]. *)
Definition int_of_string (s : string) : option Z :=
  match skip_trailing (skip_leading s) with
  | String "+" r => parse_digits 0 false 0 r
  | String "-" r => Z.opp <$> parse_digits 0 false 0 r
  | t => parse_digits 0 false 0 t
  end.

(** [int(f)] for a float: truncation toward zero. *)
Definition int_of_float (f : spec_float) : result Z :=
  match f with
  | S754_zero _ => Ok 0
  | S754_infinity _ => Raise OverflowError
  | S754_nan => Raise ValueError
  | S754_finite s m e =>
      let a := if 0 <=? e then Z.pos m * 2 ^ e else Z.pos m / 2 ^ (- e) in
      Ok (if s then - a else a)
  end.

(** [float.is_integer] *)
Definition is_integer (f : spec_float) : bool :=
  match f with
  | S754_zero _ => true
  | S754_infinity _ | S754_nan => false
  | S754_finite _ m e => (0 <=? e) || (Z.pos m mod 2 ^ (- e) =? 0)
  end.

(** The builtin [int] on a modelled value. *)
Definition int (value : cell) : result cell :=
  match value with
  | CNone => Raise TypeError
  | CBool b => Ok (CInt (if b then 1 else 0))
  | CInt z => Ok (CInt z)
  | CFloat f => rbind (int_of_float f) (fun z => Ok (CInt z))
  | CStr s => match int_of_string s with
              | Some z => Ok (CInt z)
              | None => Raise ValueError
              end
  end.

(** The decimal numeral of an integer. *)
Definition str_of_int (z : Z) : string := pretty z.

(** [str(z)] for an int: its numeral, unless it has more than
    [max_str_digits] digits; [None] stands for the [ValueError] then. *)
Definition str_of_int_limited (z : Z) : option string :=
  if (String.length (str_of_int (Z.abs z)) <=? max_str_digits)%nat
  then Some (str_of_int z) else None.

(** [str(f)] for a float, which is [repr(f)]: the shortest decimal numeral
    that reads back as [f], and among several the one nearest to [f], laid
    out with a decimal point, or with an exponent when the point would
    stand more than 16 places to the right or more than 3 to the left of
    the first digit.  The digits depend on the neighbours of [f] among the
    binary64 values, so [f] is first brought to the form in which binary64
    stores it: a mantissa of 53 bits, or fewer with the least exponent,
    -1074. *)
Module Repr.

(** [p] with [10^p <= n/d < 10^(p+1)], for positive [n] and [d]. *)
Fixpoint log10_up (fuel : nat) (n t p : Z) : Z :=
  match fuel with
  | O => p
  | S fuel => if n <? t then p else log10_up fuel n (10 * t) (p + 1)
  end.

Fixpoint log10_down (fuel : nat) (t d p : Z) : Z :=
  match fuel with
  | O => p
  | S fuel => if d <=? t then p else log10_down fuel (10 * t) d (p - 1)
  end.

Definition floor_log10 (n d : Z) : Z :=
  if d <=? n then log10_up 400 n (10 * d) 0 else log10_down 400 n d 0.

Fixpoint strip_zeros (fuel : nat) (c : Z) : Z :=
  match fuel with
  | O => c
  | S fuel => if c mod 10 =? 0 then strip_zeros fuel (c / 10) else c
  end.

(** The candidates with [n] digits: the two numerals [c * 10^k] next to the
    value [nx/d], kept when they read back as the float, that is when they
    lie between [nlo/d] and [nhi/d], the bounds included for an even
    mantissa.  The nearer one wins, the even one on a tie.  The result is
    the digits and the position of the decimal point.  ([up10] and [dn10]
    are the power of ten [10^k] as a numerator and a denominator.) *)
Definition candidate (even : bool) (nx nlo nhi d p n : Z) : option (Z * Z) :=
  let k := p - n + 1 in
  let up10 := if 0 <=? k then 10 ^ k else 1 in
  let dn10 := if 0 <=? k then 1 else 10 ^ (- k) in
  let c := (nx * dn10) / (d * up10) in
  let inside v :=
    if even then (nlo * dn10 <=? v) && (v <=? nhi * dn10)
    else (nlo * dn10 <? v) && (v <? nhi * dn10) in
  let dist v := Z.abs (v - nx * dn10) in
  let v0 := c * up10 * d in
  let v1 := (c + 1) * up10 * d in
  let pick :=
    match inside v0, inside v1 with
    | true, true =>
        if dist v0 <? dist v1 then Some c
        else if dist v1 <? dist v0 then Some (c + 1)
        else Some (if Z.even c then c else c + 1)
    | true, false => Some c
    | false, true => Some (c + 1)
    | false, false => None
    end in
  match pick with
  | Some c => Some (strip_zeros 20 c, Z.of_nat (String.length (pretty c)) + k)
  | None => None
  end.

Fixpoint search (fuel : nat) (even : bool) (nx nlo nhi d p n : Z)
  : option (Z * Z) :=
  match fuel with
  | O => None
  | S fuel =>
      match candidate even nx nlo nhi d p n with
      | Some r => Some r
      | None => search fuel even nx nlo nhi d p (n + 1)
      end
  end.

(** The shortest digits of [m * 2^e], a binary64 value as stored, and the
    position of its decimal point.  The float below is nearer when the
    mantissa is a power of two. *)
Definition shortest (m e : Z) : option (Z * Z) :=
  let boundary := (m =? 2 ^ 52) && (-1074 <? e) in
  let d := if 0 <=? e then 4 else 4 * 2 ^ (- e) in
  let nx := if 0 <=? e then 4 * m * 2 ^ e else 4 * m in
  let up := if 0 <=? e then 2 * 2 ^ e else 2 in
  let down := if boundary then up / 2 else up in
  search 17 (Z.even m) nx (nx - down) (nx + up) d (floor_log10 nx d) 1.

Definition zeros (n : Z) : string := string_of_list_ascii (repeat "0"%char (Z.to_nat n)).

(** The exponent part: a sign and at least two digits. *)
Definition exponent (ex : Z) : string :=
  (if ex <? 0 then "-" else "+")
  ++ (if Z.abs ex <? 10 then "0" else "") ++ pretty (Z.abs ex).

Definition layout (digits decpt : Z) : string :=
  let ds : string := pretty digits in
  let n := Z.of_nat (String.length ds) in
  if (decpt <=? -4) || (16 <? decpt) then
    String.substring 0 1 ds
    ++ (if 1 <? n then "." ++ String.substring 1 (Z.to_nat (n - 1)) ds else "")
    ++ "e" ++ exponent (decpt - 1)
  else if decpt <=? 0 then "0." ++ zeros (- decpt) ++ ds
  else if n <=? decpt then ds ++ zeros (decpt - n) ++ ".0"
  else String.substring 0 (Z.to_nat decpt) ds ++ "."
       ++ String.substring (Z.to_nat decpt) (Z.to_nat (n - decpt)) ds.

End Repr.

(** The float as binary64 stores it; a value that binary64 does not hold
    is rounded to the nearest one that it holds. *)
Definition stored (f : spec_float) : spec_float :=
  match f with
  | S754_finite sg m e => binary_round 53 1024 sg m e
  | _ => f
  end.

Definition str_of_float (f : spec_float) : string :=
  match stored f with
  | S754_nan => "nan"
  | S754_infinity sg => if sg then "-inf" else "inf"
  | S754_zero sg => if sg then "-0.0" else "0.0"
  | S754_finite sg m e =>
      (if sg then "-" else "")
      ++ match Repr.shortest (Z.pos m) e with
         | Some (digits, decpt) => Repr.layout digits decpt
         | None => ""
         end
  end.

(** [pd.isna] on a scalar. *)
Definition isna (v : cell) : bool :=
  match v with
  | CNone | CFloat S754_nan => true
  | _ => false
  end.

End Builtins.

(** ** The interpreter and the library, where they are left open

    Operations of the interpreter and of pandas that the functions below
    call and that are not modelled in full, and what the interpreter has
    done to the module by the time of a call. *)
Class PyLib : Type := {
  (** the builtin [float] on a modelled value *)
  builtin_float : cell -> result cell;
  (** [Series.astype(dtype)] *)
  series_astype : string -> list cell -> result (list cell);
  (** [Series.apply(obj)] for a module-level object that is not a function;
      the string is the global name it was found under *)
  series_apply_object : string -> list cell -> result (list cell);
  (** [Series.map(mapping)] and [a.fillna(b)] where a number, a truth
      value or [None] is among the cells, or a number or a truth value among
      the values of the mapping: pandas then may store the column under
      another dtype and convert cells to it (an int next to a missing cell
      becomes a float, [None] next to NaN becomes NaN) *)
  series_map_converting : gmap string cell -> list cell -> list cell;
  series_fillna_converting : list cell -> list cell -> list cell;
  (** whether [int] has the method [is_integer] (interpreters from 3.12 on) *)
  int_has_is_integer : bool;
  (** the truth value of the dict bound to [__warningregistry__] in the
      module, if the name is bound: the interpreter binds it once a warning
      has been issued from code of the module *)
  warning_registry : option bool
}.

(** ** The column value normalizers *)

Definition dollar : ascii := "$"%char.

Definition remove_dollar_sign (value : cell) : result cell :=
  match value with
  | CStr s => Builtins.int (CStr (PyStr.remove_char dollar s))
  | _ => Builtins.int value
  end.

Section Normalizers.
Context {L : PyLib}.

Definition remove_dollar_sign_float (value : cell) : result cell :=
  match value with
  | CStr s => builtin_float (CStr (PyStr.remove_char dollar s))
  | _ => builtin_float value
  end.

(** [column_nm.is_integer()]: [str] has no such method, [int] and [bool]
    have it only on recent interpreters. *)
Definition call_is_integer (column_nm : cell) : result bool :=
  match column_nm with
  | CFloat f => Ok (Builtins.is_integer f)
  | CInt _ | CBool _ => if int_has_is_integer then Ok true else Raise AttributeError
  | CStr _ | CNone => Raise AttributeError
  end.

(** The builtin [str] on a modelled value. *)
Definition str (v : cell) : result cell :=
  match v with
  | CNone => Ok (CStr "None")
  | CBool b => Ok (CStr (if b then "True" else "False"))
  | CInt z => match Builtins.str_of_int_limited z with
              | Some s => Ok (CStr s)
              | None => Raise ValueError
              end
  | CFloat f => Ok (CStr (Builtins.str_of_float f))
  | CStr s => Ok (CStr s)
  end.

Definition process_column (column_nm : cell) : result cell :=
  if Builtins.isna column_nm then Ok (CStr "N/A")
  else
    rbind (call_is_integer column_nm) (fun integral =>
      if integral
      then rbind (Builtins.int column_nm) str
      else str column_nm).

End Normalizers.

(** ** [remove_incomplete_sentence], imported from [utilities.py] *)

(** [text.split(". ")] *)
Fixpoint split_sentences (cur : string) (text : string) : list string :=
  match text with
  | EmptyString => [cur]
  | String "." (String " " r) => cur :: split_sentences "" r
  | String c r => split_sentences (cur ++ String c "") r
  end.

Definition remove_incomplete_sentence (text : string) : string :=
  let sentences := split_sentences "" text in
  let sentences := if negb (PyStr.endswith_char "."%char text)
                   then removelast sentences else sentences in
  PyStr.join ". " sentences.

(** ** The module namespace of [data_processing.py] *)

(** The functions bound at module level, by definition or by import. *)
Inductive func_id : Type :=
  | F_remove_incomplete_sentence
  | F_apply_transformations
  | F_chatGPT_analysis
  | F_quote_identifier
  | F_process_sql_query
  | F_remove_dollar_sign
  | F_remove_dollar_sign_float
  | F_process_column
  | F_to_csv_download_link.

(** A module-level object: a function, or anything else (an imported module,
    a module attribute), of which only the truth value matters. *)
Inductive gobj : Type :=
  | GFunction (f : func_id)
  | GObject (truthy : bool).

Definition truthy (o : gobj) : bool :=
  match o with
  | GFunction _ => true
  | GObject b => b
  end.

(** What the import of [data_processing.py] binds in its namespace: the
    module attributes set by the import system, the four imported modules,
    the imported helper and the eight functions defined there.  There is no
    binding for [st]: the module never imports streamlit. *)
Definition module_globals : gmap string gobj :=
  list_to_map [
    ("__name__", GObject true); ("__doc__", GObject true);
    ("__package__", GObject false); ("__loader__", GObject true);
    ("__spec__", GObject true); ("__file__", GObject true);
    ("__cached__", GObject true); ("__builtins__", GObject true);
    ("pd", GObject true); ("json", GObject true);
    ("openai", GObject true); ("base64", GObject true);
    ("remove_incomplete_sentence", GFunction F_remove_incomplete_sentence);
    ("apply_transformations", GFunction F_apply_transformations);
    ("chatGPT_analysis", GFunction F_chatGPT_analysis);
    ("quote_identifier", GFunction F_quote_identifier);
    ("process_sql_query", GFunction F_process_sql_query);
    ("remove_dollar_sign", GFunction F_remove_dollar_sign);
    ("remove_dollar_sign_float", GFunction F_remove_dollar_sign_float);
    ("process_column", GFunction F_process_column);
    ("to_csv_download_link", GFunction F_to_csv_download_link)
  ].

(** What [globals()] holds inside [data_processing.py] at the time of a
    call: the bindings of the import and, when the interpreter has bound
    it, [__warningregistry__].  No code of the repository assigns to a
    global of the module. *)
Definition globals {L : PyLib} : gmap string gobj :=
  match warning_registry with
  | Some registry => <["__warningregistry__" := GObject registry]> module_globals
  | None => module_globals
  end.

(** ** DataFrames on a heap *)

Definition series : Type := list cell.
Definition frame : Type := list (string * series).
Definition loc : Type := nat.
Abbreviation heap := (gmap loc frame).

Definition columns (df : frame) : list string := df.*1.

Fixpoint get_column (column : string) (df : frame) : option series :=
  match df with
  | [] => None
  | (name, s) :: rest =>
      if String.eqb name column then Some s else get_column column rest
  end.

(** Assignment to a column: in place when the column exists, a new last
    column otherwise. *)
Fixpoint set_column (column : string) (s : series) (df : frame) : frame :=
  match df with
  | [] => [(column, s)]
  | (name, old) :: rest =>
      if String.eqb name column then (name, s) :: rest
      else (name, old) :: set_column column s rest
  end.

(** ** Pandas operations on a column *)

(** A text, or NaN: the cells of a column of texts as pandas reads it from
    a file, with NaN where the file has no value. *)
Definition text_or_nan (v : cell) : bool :=
  match v with
  | CStr _ | CFloat S754_nan => true
  | _ => false
  end.

Definition text_series (s : series) : bool := forallb text_or_nan s.

(** A text, or a missing value: NaN or [None], the null of JSON. *)
Definition text_or_missing (v : cell) : bool :=
  match v with
  | CStr _ => true
  | _ => Builtins.isna v
  end.

Definition text_values (mapping : gmap string cell) : bool :=
  forallb text_or_missing (map_to_list mapping).*2.

(** The value under the key, NaN when the cell is not a key. *)
Definition lookup_cell (mapping : gmap string cell) (v : cell) : cell :=
  match v with
  | CStr k => default (CFloat S754_nan) (mapping !! k)
  | _ => CFloat S754_nan
  end.

(** A missing cell of [a] takes the cell of [b] at the same position. *)
Fixpoint fill_cells (a b : series) : series :=
  match a, b with
  | x :: a', y :: b' => (if Builtins.isna x then y else x) :: fill_cells a' b'
  | _, _ => a
  end.

Section Calls.
Context {L : PyLib}.

(** [Series.map(mapping)] for a dict with string keys.  With texts (or
    [None]) for values the result holds, cell by cell, the value under the
    key, and NaN where the cell is not a key.  With a number or a truth
    value among the values the dtype of the result, and with it the cells,
    depend on which cells are keys. *)
Definition series_map (mapping : gmap string cell) (s : series) : series :=
  if text_values mapping then map (lookup_cell mapping) s
  else series_map_converting mapping s.

(** [a.fillna(b)] for two columns over the same index.  Where [a] holds
    texts and missing values and [b] texts and NaN, the cells are taken as
    they are, and what is stored holds texts and NaN again. *)
Definition series_fillna (a b : series) : series :=
  if forallb text_or_missing a && text_series b then fill_cells a b
  else series_fillna_converting a b.

(** Calling a module-level function with one positional argument, a cell. *)
Definition call (f : func_id) (v : cell) : result cell :=
  match f with
  | F_remove_dollar_sign => remove_dollar_sign v
  | F_remove_dollar_sign_float => remove_dollar_sign_float v
  | F_process_column => process_column v
  | F_quote_identifier =>
      match v with
      | CStr s => Ok (CStr (quote_identifier s))
      | _ => Raise AttributeError
      end
  | F_process_sql_query =>
      match v with
      | CStr s => Ok (CStr (process_sql_query s))
      | _ => Raise AttributeError
      end
  | F_remove_incomplete_sentence =>
      match v with
      | CStr s => Ok (CStr (remove_incomplete_sentence s))
      | _ => Raise AttributeError
      end
  | F_chatGPT_analysis => Raise AttributeError
  | F_apply_transformations | F_to_csv_download_link => Raise TypeError
  end.

(** [Series.apply(obj)] *)
Definition series_apply (name : string) (obj : gobj) (s : series)
  : result series :=
  match obj with
  | GFunction f => rmap (call f) s
  | GObject _ => series_apply_object name s
  end.

End Calls.

(** ** Statements that read and write the heap *)

(** A computation returns a value or raises, and leaves a heap either way:
    what was assigned before an exception stays assigned. *)
Definition M (A : Type) : Type := heap -> result A * heap.

Definition mret {A} (a : A) : M A := fun h => (Ok a, h).
Definition raise {A} (e : exn) : M A := fun h => (Raise e, h).
Definition mbind {A B} (m : M A) (k : A -> M B) : M B :=
  fun h => match m h with
           | (Ok a, h') => k a h'
           | (Raise e, h') => (Raise e, h')
           end.
Definition lift {A} (r : result A) : M A := fun h => (r, h).

Notation "x <- m ;; k" := (mbind m (fun x => k))
  (at level 100, m at next level, right associativity).
Notation "m ;;; k" := (mbind m (fun _ => k))
  (at level 100, right associativity).

Definition read_frame (df : loc) : M frame :=
  fun h => match h !! df with
           | Some fr => (Ok fr, h)
           | None => (Raise NoFrame, h)
           end.

(** [column in df.columns] *)
Definition has_column (df : loc) (column : string) : M bool :=
  fr <- read_frame df ;; mret (bool_decide (column ∈ columns fr)).

(** [df[column]] *)
Definition getitem (df : loc) (column : string) : M series :=
  fr <- read_frame df ;;
  match get_column column fr with
  | Some s => mret s
  | None => raise (KeyError column)
  end.

(** [df[column] = s]: the frame object itself is updated. *)
Definition setitem (df : loc) (column : string) (s : series) : M unit :=
  fr <- read_frame df ;;
  fun h => (Ok tt, <[df := set_column column s fr]> h).

(** [d[key]] on a dict *)
Definition dict_getitem {V} (d : gmap string V) (key : string) : M V :=
  match d !! key with
  | Some v => mret v
  | None => raise (KeyError key)
  end.

Section Names.
Context {L : PyLib}.

(** Reading a global name inside [data_processing.py]. *)
Definition load_global (name : string) : M gobj :=
  match globals !! name with
  | Some o => mret o
  | None => raise (NameError name)
  end.

(** [st.warning(msg)]: the name [st] is looked up first.  What the call
    would do is not modelled: the lookup never succeeds. *)
Definition st_warning (msg : string) : M unit :=
  load_global "st" ;;; mret tt.

End Names.

(** ** The transformation engine *)

Record transformations : Type := {
  t_map : option (gmap string cell);
  t_astype : option string;
  t_apply : option (gmap string string)
}.

Definition config : Type := list (string * transformations).

Fixpoint for_each {A} (items : list A) (body : A -> M unit) : M unit :=
  match items with
  | [] => mret tt
  | x :: rest => body x ;;; for_each rest body
  end.

Section Engine.
Context {L : PyLib}.

(** The branch taken when [column in df.columns]. *)
Definition transform_column (df : loc) (column : string)
    (transformations : transformations) : M unit :=
  (match t_map transformations with
   | Some mapping =>
       s <- getitem df column ;;
       s0 <- getitem df column ;;
       setitem df column (series_fillna (series_map mapping s) s0)
   | None => mret tt
   end) ;;;
  (match t_astype transformations with
   | Some astype =>
       s <- getitem df column ;;
       s' <- lift (series_astype astype s) ;;
       setitem df column s'
   | None => mret tt
   end) ;;;
  (match t_apply transformations with
   | Some apply_config =>
       ty <- dict_getitem apply_config "type" ;;
       if String.eqb ty "custom" then
         function_name <- dict_getitem apply_config "function" ;;
         match globals !! function_name with
         | Some custom_function =>
             if truthy custom_function then
               s <- getitem df column ;;
               s' <- lift (series_apply function_name custom_function s) ;;
               setitem df column s'
             else
               st_warning ("Warning: Custom function '" ++ function_name
                           ++ "' not found.")
         | None =>
             st_warning ("Warning: Custom function '" ++ function_name
                         ++ "' not found.")
         end
       else mret tt
   | None => mret tt
   end).

Definition apply_transformations (df : loc) (config : config) : M loc :=
  for_each config (fun '(column, transformations) =>
    present <- has_column df column ;;
    if present then transform_column df column transformations
    else st_warning ("Warning: Column '" ++ column
           ++ "' specified in the JSON config is not present in the DataFrame.")) ;;;
  mret df.

(** ** The caller in [streamlit_interface.py] *)

(** The two module-level variables of the interface. *)
Record session : Type := {
  original_df : option loc;
  trans_df : option loc
}.

(** The body of [if st.button("Apply Transformations")].  [uploaded_json]
    is [None] when no file was uploaded; otherwise it holds [config], which
    is [None] when the file was not valid JSON. *)
Definition on_apply_transformations (s : session)
    (uploaded_json : option (option config)) : M session :=
  match original_df s, uploaded_json with
  | Some df, Some config =>
      match config with
      | Some config =>
          r <- apply_transformations df config ;;
          mret {| original_df := original_df s; trans_df := Some r |}
      | None => raise AttributeError
      end
  | _, _ => mret s
  end.

End Engine.


(** ** The specification's wording, for comparison with the code *)

Module Worded.

(** [preprocessQuery] as worded: a token is quoted when the token before
    it, as it stands in the query, is FROM or JOIN in any letter case. *)
Fixpoint preprocess_tokens (previous_token : string) (tokens : list string)
  : list string :=
  match tokens with
  | [] => []
  | t :: rest =>
      (if follows_keyword previous_token then quote_identifier t else t)
      :: preprocess_tokens t rest
  end.

Definition preprocessQuery (query : string) : string :=
  PyStr.join " " (preprocess_tokens "" (PyStr.split query)).

(** [stripCurrencyToInt] as worded: one leading currency symbol is
    stripped from a text, and the remainder parsed. *)
Definition strip_leading (c : ascii) (s : string) : string :=
  match s with
  | String d r => if Ascii.eqb d c then r else s
  | EmptyString => EmptyString
  end.

Definition stripCurrencyToInt (value : cell) : result cell :=
  match value with
  | CStr s => Builtins.int (CStr (strip_leading dollar s))
  | _ => Builtins.int value
  end.

(** The Named Function Registry as worded: the column value normalizers,
    under the names they have in the code. *)
Definition registry : list string :=
  ["remove_dollar_sign"; "remove_dollar_sign_float"; "process_column"].


End Worded.

(** ** Auxiliary notions used in the statements *)

(** Tokens of [split] are non-empty and free of whitespace. *)
Definition is_token (t : string) : Prop :=
  t <> ""
  /\ forallb (fun c => negb (PyStr.is_space c)) (list_ascii_of_string t) = true.

(** Which tokens [process_parts] quotes, told from the tokens of the query:
    the first flag says whether the token before was an unquoted keyword. *)
Fixpoint quote_marks (after_keyword : bool) (tokens : list string)
  : list bool :=
  match tokens with
  | [] => []
  | t :: rest =>
      after_keyword :: quote_marks (negb after_keyword && follows_keyword t) rest
  end.

Definition emit (mark : bool) (token : string) : string :=
  if mark then quote_identifier token else token.

(** No keyword token is directly followed by another keyword token. *)
Fixpoint no_adjacent_keywords (tokens : list string) : bool :=
  match tokens with
  | t1 :: rest =>
      match rest with
      | t2 :: _ => negb (follows_keyword t1 && follows_keyword t2)
      | [] => true
      end && no_adjacent_keywords rest
  | [] => true
  end.

(** The number that a string of decimal digits denotes, read after the
    digits that gave [acc]. *)
Fixpoint decimal_value (acc : Z) (s : string) : Z :=
  match s with
  | EmptyString => acc
  | String c r => decimal_value (10 * acc + Builtins.digit_val c) r
  end.

Definition all_digits (s : string) : bool :=
  forallb Builtins.is_digit (list_ascii_of_string s).

(** Decimal digits in groups that single underscores separate: the first
    and the last character are digits, and no two underscores are
    adjacent. *)
Inductive digit_groups : string -> Prop :=
  | groups_digit d :
      Builtins.is_digit d = true -> digit_groups (String d "")
  | groups_more d r :
      Builtins.is_digit d = true -> digit_groups r -> digit_groups (String d r)
  | groups_underscore d r :
      Builtins.is_digit d = true -> digit_groups r ->
      digit_groups (String d (String "_" r)).

Definition count_digits (s : string) : nat :=
  length (List.filter Builtins.is_digit (list_ascii_of_string s)).

Definition blank (s : string) : Prop :=
  forallb Builtins.is_int_space (list_ascii_of_string s) = true.

Definition no_blank (s : string) : Prop :=
  forallb (fun c => negb (Builtins.is_int_space c)) (list_ascii_of_string s) = true.

(** What [parse_digits] accepts: after a digit the end, more grouped
    digits, or an underscore and grouped digits; grouped digits otherwise. *)
Definition continues (prev_digit : bool) (s : string) : Prop :=
  if prev_digit
  then s = "" \/ digit_groups s \/ exists r, s = String "_" r /\ digit_groups r
  else digit_groups s.

(** An integer literal and its value: blanks, a sign or none, grouped
    digits, no more of them than the interpreter converts, blanks. *)
Definition int_literal (t : string) (z : Z) : Prop :=
  exists lead sign body trail,
    t = lead ++ sign ++ body ++ trail
    /\ blank lead /\ blank trail
    /\ (sign = "" \/ sign = "+" \/ sign = "-")
    /\ digit_groups body
    /\ (count_digits body <= Builtins.max_str_digits)%nat
    /\ z = let n := decimal_value 0 (PyStr.remove_char "_" body) in
           if String.eqb sign "-" then - n else n.

(** What the map step of the engine does to one cell of a column of texts,
    with texts for replacement values. *)
Definition mapped_value (mapping : gmap string cell) (v : cell) : cell :=
  match v with
  | CStr k =>
      match mapping !! k with
      | Some w => if Builtins.isna w then v else w
      | None => v
      end
  | _ => v
  end.

(** A transformation set with only a [map] operation. *)
Definition only_map (mapping : gmap string cell) : transformations :=
  {| t_map := Some mapping; t_astype := None; t_apply := None |}.

(** The same transformation set without its [map] operation. *)
Definition without_map (t : transformations) : transformations :=
  {| t_map := None; t_astype := t_astype t; t_apply := t_apply t |}.

(** The [apply] object of a configuration: type [custom] and a function
    name. *)
Definition custom_apply (function_name : string) : gmap string string :=
  {[ "type" := "custom"; "function" := function_name ]}.

(** A transformation set with only a custom [apply] operation. *)
Definition only_apply (function_name : string) : transformations :=
  {| t_map := None; t_astype := None;
     t_apply := Some (custom_apply function_name) |}.

(** The map step of the engine on the cells [s] of a column:
    [df[column].map(mapping).fillna(df[column])]. *)
Definition map_step {L : PyLib} (mapping : gmap string cell) (s : series)
  : series :=
  series_fillna (series_map mapping s) s.

(** A computation that may assign into the frame at [df] and does nothing
    else to the heap: no frame is created or dropped, and every other frame
    stays as it is. *)
Definition updates_only {A} (df : loc) (m : M A) : Prop :=
  forall h : heap,
    dom (m h).2 = dom h /\ forall l, l <> df -> (m h).2 !! l = h !! l.

(** ** Sample data for the concrete statements *)

(** A frame of two text columns, alone on the heap at location 0. *)
Definition sample_frame : frame :=
  [("a", [CStr "x"; CStr "y"]); ("b", [CStr "$5"; CStr "7"])].

Definition sample_heap : heap := {[ 0%nat := sample_frame ]}.

(** A configuration that maps [x] to [X] in column [a], and the sample
    frame after it. *)
Definition sample_config : config := [("a", only_map {[ "x" := CStr "X" ]})].

Definition sample_frame_mapped : frame :=
  [("a", [CStr "X"; CStr "y"]); ("b", [CStr "$5"; CStr "7"])].


(** The session of the interface once the sample frame is uploaded. *)
Definition sample_session : session :=
  {| original_df := Some 0%nat; trans_df := None |}.


(** ** Notions used in the further properties *)

(** [fr'] has the columns of [fr], under the same names and in the same
    order, and the same cells in every column but [column]. *)
Definition same_but_column (column : string) (fr fr' : frame) : Prop :=
  columns fr' = columns fr
  /\ forall other, other <> column -> get_column other fr' = get_column other fr.

(** A computation that, run on a frame that has [column], leaves a frame
    that differs at most in the cells of [column]. *)
Definition touches_only_column {A} (df : loc) (column : string) (m : M A)
  : Prop :=
  forall (h : heap) fr, h !! df = Some fr -> column ∈ columns fr ->
    exists fr', (m h).2 !! df = Some fr' /\ same_but_column column fr fr'.

(** A transformation set with a [map] and a custom [apply] operation. *)
Definition map_then_apply (mapping : gmap string cell) (function_name : string)
  : transformations :=
  {| t_map := Some mapping; t_astype := None;
     t_apply := Some (custom_apply function_name) |}.

(** A transformation set with only an [apply] operation, given as the
    object of the configuration. *)
Definition only_apply_object (apply_config : gmap string string)
  : transformations :=
  {| t_map := None; t_astype := None; t_apply := Some apply_config |}.

(** Whether the separator of sentences, a period and a blank, occurs in
    a text. *)
Definition has_separator (s : string) : Prop :=
  exists a b, s = a ++ ". " ++ b.

Fixpoint find_separator (s : string) : bool :=
  match s with
  | EmptyString => false
  | String "." (String " " _) => true
  | String _ r => find_separator r
  end.

(** Sample data for the further properties: a configuration whose second
    item names a column that the sample frame lacks, the sample frame with
    [7] replaced by a text that is no numeral, and with the numerals of
    column [b] converted. *)
Definition sample_config_unknown : config :=
  [("a", only_map {[ "x" := CStr "X" ]}); ("nonexistent", only_map ∅)].

Definition sample_frame_seven : frame :=
  [("a", [CStr "x"; CStr "y"]); ("b", [CStr "$5"; CStr "seven"])].

Definition sample_frame_ints : frame :=
  [("a", [CStr "x"; CStr "y"]); ("b", [CInt 5; CInt 70])].

(** ** The table of the loaded configuration, in [streamlit_interface.py]

    The interface shows the uploaded configuration as a table: one column
    per configured column after a first column of labels, one row per kind
    of operation.  Here the configuration is the decoded JSON itself. *)

Unset Elimination Schemes.
Inductive json : Type :=
  | JNull
  | JBool (b : bool)
  | JInt (z : Z)
  | JFloat (f : spec_float)
  | JStr (s : string)
  | JList (l : list json)
  | JObj (items : list (string * json)).
Set Elimination Schemes.

(** The exceptions of this code, and its outcomes. *)
Inductive table_exn : Type :=
  | TAttributeError
  | TTypeError
  | TKeyError (key : string)
  | TValueError
  | TIndexError.

Inductive outcome (A : Type) : Type :=
  | Done (a : A)
  | Fail (e : table_exn).
Arguments Done {A} a.
Arguments Fail {A} e.

Definition obind {A B} (o : outcome A) (k : A -> outcome B) : outcome B :=
  match o with
  | Done a => k a
  | Fail e => Fail e
  end.

(** [d[key]] on the items of a dict. *)
Fixpoint items_get (key : string) (items : list (string * json)) : option json :=
  match items with
  | [] => None
  | (k, v) :: rest => if String.eqb k key then Some v else items_get key rest
  end.

(** [value[key]] for a string [key]: only a dict can be indexed so. *)
Definition json_getitem (value : json) (key : string) : outcome json :=
  match value with
  | JObj items =>
      match items_get key items with
      | Some v => Done v
      | None => Fail (TKeyError key)
      end
  | _ => Fail TTypeError
  end.

(** The loop over [config.keys()] that extends [columns]. *)
Fixpoint extend_columns (keys : list string) (columns : list string)
  : list string :=
  match keys with
  | [] => columns
  | col_name :: rest =>
      extend_columns rest
        (if bool_decide (col_name ∈ columns) then columns
         else (columns ++ [col_name])%list)
  end.

(** [columns.index(col_name)]; [None] stands for the [ValueError] on a name
    that is not in the list. *)
Fixpoint list_index (col_name : string) (columns : list string) : option nat :=
  match columns with
  | [] => None
  | c :: rest =>
      if String.eqb c col_name then Some O
      else S <$> list_index col_name rest
  end.

(** A row of the table: [None] or the text of a cell. *)
Definition table_row : Type := list (option string).

(** [transformation_rows], a dict in insertion order. *)
Definition table_rows : Type := list (string * table_row).

(** [row[i] = x], which raises [IndexError] out of range. *)
Definition row_setitem (i : nat) (x : option string) (row : table_row)
  : outcome table_row :=
  if (i <? length row)%nat then Done (<[i := x]> row) else Fail TIndexError.

(** [transformation_rows[ty][i] = x]. *)
Fixpoint rows_setitem (ty : string) (i : nat) (x : option string)
    (rows : table_rows) : outcome table_rows :=
  match rows with
  | [] => Fail (TKeyError ty)
  | (t, row) :: rest =>
      if String.eqb t ty
      then obind (row_setitem i x row) (fun row' => Done ((t, row') :: rest))
      else obind (rows_setitem ty i x rest) (fun rest' => Done ((t, row) :: rest'))
  end.

Section ConfigTable.
(** [json.dumps], kept abstract. *)
Variable dumps : json -> string.

(** What is shown for an operation: an [apply] value is shown as an object
    of type [custom] with the function of the value, any other value as it
    is. *)
Definition cell_text (transformation_type : string) (transformation_value : json)
  : outcome string :=
  if String.eqb transformation_type "apply" then
    obind (json_getitem transformation_value "function")
      (fun function_name =>
         Done (dumps (JObj [("type", JStr "custom");
                            ("function", function_name)])))
  else Done (dumps transformation_value).

(** The body of the loop over [transformations.items()], for one item. *)
Definition fill_operation (columns : list string) (col_name : string)
    (transformation_type : string) (transformation_value : json)
    (transformation_rows : table_rows) : outcome table_rows :=
  obind
    (if bool_decide (transformation_type ∈ transformation_rows.*1)
     then Done transformation_rows
     else
       obind (row_setitem 0 (Some transformation_type)
                (replicate (length columns) None))
         (fun row => Done (transformation_rows ++ [(transformation_type, row)])%list))
    (fun transformation_rows =>
       match list_index col_name columns with
       | None => Fail TValueError
       | Some col_index =>
           obind (cell_text transformation_type transformation_value)
             (fun text =>
                rows_setitem transformation_type col_index (Some text)
                  transformation_rows)
       end).

Fixpoint fill_operations (columns : list string) (col_name : string)
    (items : list (string * json)) (transformation_rows : table_rows)
  : outcome table_rows :=
  match items with
  | [] => Done transformation_rows
  | (transformation_type, transformation_value) :: rest =>
      obind (fill_operation columns col_name transformation_type
               transformation_value transformation_rows)
        (fill_operations columns col_name rest)
  end.

(** The loop over [config.items()]; [transformations.items()] needs a
    dict. *)
Fixpoint fill_rows (columns : list string) (config : list (string * json))
    (transformation_rows : table_rows) : outcome table_rows :=
  match config with
  | [] => Done transformation_rows
  | (col_name, transformations) :: rest =>
      match transformations with
      | JObj items =>
          obind (fill_operations columns col_name items transformation_rows)
            (fill_rows columns rest)
      | _ => Fail TAttributeError
      end
  end.

(** The arguments of [pd.DataFrame(data, columns=columns)]. *)
Definition table_arguments (config : list (string * json))
  : outcome (list string * list table_row) :=
  let columns := extend_columns config.*1 ["Transformation"] in
  obind (fill_rows columns config [])
    (fun transformation_rows => Done (columns, transformation_rows.*2)).

(** The body of [if uploaded_json is not None], once the file is decoded to
    a dict: under [if config:] the table is built; for the empty dict,
    which is false, no table is built ([None]) and a warning is shown in
    its place. *)
Definition config_table (config : list (string * json))
  : option (outcome (list string * list table_row)) :=
  match config with
  | [] => None
  | _ :: _ => Some (table_arguments config)
  end.

End ConfigTable.

(** A configuration as the interface expects it: every operation set is a
    dict, and every [apply] value is a dict with the key [function]. *)
Definition well_shaped (config : list (string * json)) : Prop :=
  Forall (fun '(_, transformations) =>
    exists items, transformations = JObj items
      /\ Forall (fun '(ty, value) =>
           ty = "apply" -> exists fields fn,
             value = JObj fields /\ items_get "function" fields = Some fn)
         items) config.

(** The operations of one column, and of a configuration, in the order in
    which the loops meet them: column, kind of operation, value. An
    operation set that is no dict has none. *)
Definition column_operations (col_name : string) (transformations : json)
  : list (string * string * json) :=
  match transformations with
  | JObj items => (fun '(ty, value) => (col_name, ty, value)) <$> items
  | _ => []
  end.

Fixpoint operations (config : list (string * json))
  : list (string * string * json) :=
  match config with
  | [] => []
  | (col_name, transformations) :: rest =>
      (column_operations col_name transformations ++ operations rest)%list
  end.

(** The kinds of operation of a configuration, each once, in the order of
    their first use. *)
Definition operation_types (config : list (string * json)) : list string :=
  extend_columns (operations config).*1.*2 [].

(** The keys of a dict are all different: those of the configuration and
    those of every operation set. *)
Definition dict_like (config : list (string * json)) : Prop :=
  NoDup config.*1
  /\ Forall (fun '(_, transformations) =>
       match transformations with
       | JObj items => NoDup items.*1
       | _ => True
       end) config.

(** The first cell of every row. *)
Definition labels (data : list table_row) : list (option string) :=
  (fun row => default None (head row)) <$> data.

(** Rows of the width of the table. *)
Definition rows_ok (width : nat) (rows : table_rows) : Prop :=
  Forall (fun '(_, row) => length row = width) rows.

(** What the rows hold after the operations [done]: one row for each kind
    of operation met, in the order of their first use; a row begins with
    its kind, unless a column has the name of the label column; and it has
    a text exactly in the columns that have an operation of its kind, the
    text of that operation. *)
Definition cells_of (dumps : json -> string) (columns : list string)
    (done : list (string * string * json)) (rows : table_rows) : Prop :=
  rows.*1 = extend_columns done.*1.*2 []
  /\ rows_ok (length columns) rows
  /\ forall t row, (t, row) ∈ rows ->
       ("Transformation" ∉ done.*1.*1 -> head row = Some (Some t))
       /\ forall j text,
            row !! S j = Some (Some text) <->
            exists col value,
              columns !! S j = Some col /\ (col, t, value) ∈ done
              /\ cell_text dumps t value = Done text.

(** A sample configuration in JSON: a map and a cast on [price], a custom
    function on [qty]. *)
Definition sample_json_config : list (string * json) :=
  [("price", JObj [("map", JObj [("N/A", JStr "0")]); ("astype", JStr "float")]);
   ("qty", JObj [("apply", JObj [("type", JStr "custom");
                                 ("function", JStr "remove_dollar_sign")])])].


(** Its table. *)
Definition sample_table_columns : list string := ["Transformation"; "price"; "qty"].

Definition sample_table_data (dumps : json -> string) : list table_row :=
  [[Some "map"; Some (dumps (JObj [("N/A", JStr "0")])); None];
   [Some "astype"; Some (dumps (JStr "float")); None];
   [Some "apply"; None;
    Some (dumps (JObj [("type", JStr "custom");
                       ("function", JStr "remove_dollar_sign")]))]].
(** * Properties *)

(** ** The builtins on sample inputs *)

Example int_of_string_underscore : Builtins.int_of_string " -1_000 " = Some (-1000). Proof. reflexivity. Qed.
Example int_of_string_double_underscore : Builtins.int_of_string "1__0" = None. Proof. reflexivity. Qed.
Example int_of_string_empty : Builtins.int_of_string "" = None. Proof. reflexivity. Qed.
Example int_of_string_plus : Builtins.int_of_string "+007" = Some 7. Proof. reflexivity. Qed.
Example int_of_string_sign_space : Builtins.int_of_string "- 7" = None. Proof. reflexivity. Qed.
Example int_of_string_unit_separator :
  Builtins.int_of_string (String (ascii_of_nat 31) "7") = None.
Proof. reflexivity. Qed.
Example int_of_string_no_break_space :
  Builtins.int_of_string (String (ascii_of_nat 160) "7") = Some 7.
Proof. reflexivity. Qed.
Example str_of_int_negative : Builtins.str_of_int (-50) = "-50". Proof. reflexivity. Qed.
Example str_of_int_zero : Builtins.str_of_int 0 = "0". Proof. reflexivity. Qed.
Example int_of_float_negative : Builtins.int_of_float (S754_finite true 11 (-1)) = Ok (-5). Proof. reflexivity. Qed.
Example str_of_float_tenth :
  Builtins.str_of_float (S754_finite false 3602879701896397 (-55)) = "0.1".
Proof. vm_compute. reflexivity. Qed.
Example str_of_float_exponent :
  Builtins.str_of_float (S754_finite false 152587890625 16) = "1e+16".
Proof. vm_compute. reflexivity. Qed.
Example str_of_float_small :
  Builtins.str_of_float (S754_finite true 3 (-20)) = "-2.86102294921875e-06".
Proof. vm_compute. reflexivity. Qed.
Example str_of_float_integral :
  Builtins.str_of_float (S754_finite false 5 0) = "5.0".
Proof. vm_compute. reflexivity. Qed.
Example str_of_float_fraction :
  Builtins.str_of_float (S754_finite false 6192449487634432 (-50)) = "5.5".
Proof. vm_compute. reflexivity. Qed.
Example str_of_float_subnormal :
  Builtins.str_of_float (S754_finite false 931703172410792 (-1074))
  = "4.60322529609476e-309".
Proof. vm_compute. reflexivity. Qed.
Example str_of_float_subnormal_odd :
  Builtins.str_of_float (S754_finite false 116462896551349 (-1071))
  = "4.60322529609476e-309".
Proof. vm_compute. reflexivity. Qed.
Example str_of_float_least :
  Builtins.str_of_float (S754_finite false 1 (-1074)) = "5e-324".
Proof. vm_compute. reflexivity. Qed.
Example remove_incomplete_sentence_drops_tail : remove_incomplete_sentence "One. Two. Thr" = "One. Two".
Proof. reflexivity. Qed.

(** ** Strings *)

Lemma append_cons c (s t : string) : String c s ++ t = String c (s ++ t).
Proof. reflexivity. Qed.

Lemma append_nil_r (s : string) : s ++ "" = s.
Proof.
  induction s as [|c s IH]; [reflexivity|]. rewrite append_cons. now f_equal.
Qed.

Lemma append_assoc (a b c : string) : (a ++ b) ++ c = a ++ (b ++ c).
Proof.
  induction a as [|x a IH]; [reflexivity|]. rewrite !append_cons. now f_equal.
Qed.

Lemma list_ascii_of_string_app a b :
  list_ascii_of_string (a ++ b)
  = (list_ascii_of_string a ++ list_ascii_of_string b)%list.
Proof. induction a as [|c r IH]; simpl; [reflexivity | now rewrite IH]. Qed.

(** ** The SQL identifier quoter *)

Lemma endswith_char_snoc c s :
  PyStr.endswith_char c (s ++ String c "") = true.
Proof.
  induction s as [|d r IH]; simpl.
  - apply Ascii.eqb_refl.
  - destruct r; simpl in *; [apply Ascii.eqb_refl | exact IH].
Qed.

Lemma is_quoted_quoted s : is_quoted (quoted s) = true.
Proof.
  unfold is_quoted, quoted. apply andb_true_intro. split.
  - reflexivity.
  - change (String dquote (s ++ String dquote ""))
      with ((String dquote s) ++ String dquote "").
    apply endswith_char_snoc.
Qed.

Lemma is_quoted_quote_identifier x : is_quoted (quote_identifier x) = true.
Proof.
  unfold quote_identifier. destruct (is_quoted x) eqn:E; simpl.
  - exact E.
  - apply is_quoted_quoted.
Qed.

(** [remove_char] keeps exactly the characters other than [c], in order. *)
Lemma remove_char_filter c s :
  list_ascii_of_string (PyStr.remove_char c s)
  = List.filter (fun d => negb (Ascii.eqb d c)) (list_ascii_of_string s).
Proof.
  induction s as [|d r IH]; simpl; [reflexivity|].
  destruct (Ascii.eqb d c); simpl; [exact IH | now rewrite IH].
Qed.

Lemma remove_char_absent c s :
  ~ In c (list_ascii_of_string (PyStr.remove_char c s)).
Proof.
  rewrite remove_char_filter. intros H. apply filter_In in H as [_ H].
  rewrite Ascii.eqb_refl in H. discriminate.
Qed.

(** A quoted token never reads as a keyword. *)
Lemma follows_keyword_dquote s :
  PyStr.startswith_char dquote s = true -> follows_keyword s = false.
Proof.
  destruct s as [|c r]; simpl; [discriminate|].
  intros H. apply Ascii.eqb_eq in H. subst c. reflexivity.
Qed.

Lemma follows_keyword_quote_identifier w :
  follows_keyword (quote_identifier w) = false.
Proof.
  apply follows_keyword_dquote.
  pose proof (is_quoted_quote_identifier w) as H.
  unfold is_quoted in H. apply andb_prop in H. tauto.
Qed.

(** C4: [quote_identifier] is idempotent on every string; on a string that
    is not already between double quotes it returns the string without any
    of its double-quote characters (the other characters kept, in order),
    between one new pair of double quotes; an already quoted string is
    returned as it is. *)
Theorem C4_quote_identifier_idempotent (x : string) :
  quote_identifier (quote_identifier x) = quote_identifier x
  /\ (is_quoted x = false ->
        quote_identifier x
          = String dquote (PyStr.remove_char dquote x ++ String dquote "")
        /\ list_ascii_of_string (PyStr.remove_char dquote x)
           = List.filter (fun d => negb (Ascii.eqb d dquote))
               (list_ascii_of_string x)
        /\ ~ In dquote (list_ascii_of_string (PyStr.remove_char dquote x)))
  /\ (is_quoted x = true -> quote_identifier x = x).
Proof.
  split; [|split].
  - unfold quote_identifier at 1.
    now rewrite is_quoted_quote_identifier.
  - intros E. unfold quote_identifier. rewrite E. simpl.
    split; [reflexivity|]. split.
    + apply remove_char_filter.
    + apply remove_char_absent.
  - intros E. unfold quote_identifier. now rewrite E.
Qed.

(** A string with one double quote inside is not quoted: the quote goes and
    a pair is put around the rest.  A string between two double quotes is
    quoted and comes back as it is. *)
Lemma C4_quote_identifier_witness :
  (is_quoted ("ab" ++ String dquote "c") = false
   /\ quote_identifier ("ab" ++ String dquote "c")
      = String dquote ("abc" ++ String dquote ""))
  /\ (is_quoted (quoted "orders") = true
      /\ quote_identifier (quoted "orders") = quoted "orders").
Proof.
  split; (split; [reflexivity|]).
  - destruct (C4_quote_identifier_idempotent ("ab" ++ String dquote "c"))
      as (_ & H & _).
    destruct (H eq_refl) as (H1 & _). exact H1.
  - destruct (C4_quote_identifier_idempotent (quoted "orders")) as (_ & _ & H).
    exact (H eq_refl).
Defined.

(** ** The query preprocessor *)

Lemma process_parts_marks previous_word tokens :
  process_parts previous_word tokens
  = zip_with emit (quote_marks (follows_keyword previous_word) tokens) tokens.
Proof.
  revert previous_word. induction tokens as [|t rest IH]; intros p; simpl.
  - reflexivity.
  - f_equal. rewrite IH. f_equal. f_equal.
    destruct (follows_keyword p); simpl.
    + apply follows_keyword_quote_identifier.
    + reflexivity.
Qed.

(** The code and the wording agree as long as the previous emitted word and
    the previous token read the same as keywords, and no keyword follows a
    keyword. *)
Lemma process_parts_worded word token tokens :
  follows_keyword word = follows_keyword token ->
  no_adjacent_keywords (token :: tokens) = true ->
  process_parts word tokens = Worded.preprocess_tokens token tokens.
Proof.
  revert word token. induction tokens as [|t rest IH]; intros w p Hw Hadj.
  - reflexivity.
  - cbn [process_parts Worded.preprocess_tokens].
    cbn [no_adjacent_keywords] in Hadj.
    apply andb_prop in Hadj as [H1 H2].
    rewrite Hw. f_equal. apply IH; [|exact H2].
    destruct (follows_keyword p); simpl in *.
    + rewrite follows_keyword_quote_identifier.
      destruct (follows_keyword t); [discriminate | reflexivity].
    + reflexivity.
Qed.

Lemma is_token_snoc cur c :
  cur = "" \/ is_token cur -> PyStr.is_space c = false ->
  is_token (cur ++ String c "").
Proof.
  intros Hcur Hc. split.
  - destruct cur; discriminate.
  - rewrite list_ascii_of_string_app, forallb_app. simpl. rewrite Hc. simpl.
    destruct Hcur as [-> | [_ H]]; [reflexivity | now rewrite H].
Qed.

Lemma split_from_tokens cur s :
  cur = "" \/ is_token cur -> Forall is_token (PyStr.split_from cur s).
Proof.
  revert cur. induction s as [|c r IH]; intros cur Hcur; simpl.
  - destruct (String.eqb_spec cur ""); [constructor|].
    constructor; [|constructor]. destruct Hcur; [contradiction | assumption].
  - destruct (PyStr.is_space c) eqn:Hc.
    + destruct (String.eqb_spec cur "").
      * apply IH. now left.
      * constructor.
        -- destruct Hcur; [contradiction | assumption].
        -- apply IH. now left.
    + apply IH. right. now apply is_token_snoc.
Qed.

(** Nothing but whitespace is lost: the tokens, put end to end, are the
    characters of the query that are not whitespace. *)
Lemma join_empty_cons p rest :
  PyStr.join "" (p :: rest) = p ++ PyStr.join "" rest.
Proof.
  destruct rest as [|q rest]; [|reflexivity].
  simpl. induction p as [|c p IH]; [reflexivity|].
  change (String c p = String c (p ++ "")). now f_equal.
Qed.

Lemma split_from_concat cur s :
  list_ascii_of_string (PyStr.join "" (PyStr.split_from cur s))
  = (list_ascii_of_string cur
     ++ List.filter (fun c => negb (PyStr.is_space c)) (list_ascii_of_string s))%list.
Proof.
  revert cur. induction s as [|c r IH]; intros cur.
  - cbn [PyStr.split_from list_ascii_of_string List.filter].
    rewrite app_nil_r. now destruct (String.eqb_spec cur "") as [->|_].
  - cbn [PyStr.split_from list_ascii_of_string List.filter].
    destruct (PyStr.is_space c); cbn [negb].
    + destruct (String.eqb_spec cur "") as [->|_].
      * apply IH.
      * rewrite join_empty_cons, list_ascii_of_string_app. now rewrite IH.
    + rewrite IH, list_ascii_of_string_app. simpl. now rewrite <- app_assoc.
Qed.

(** C3 (as the code has it): [process_sql_query] splits the query on
    whitespace into non-empty tokens that together hold every character of
    the query but the whitespace, scans them left to right, applies
    [quote_identifier] to exactly the tokens whose preceding token is FROM
    or JOIN in any letter case and was not itself quoted by this rule, and
    joins the result with single spaces.  Where no keyword token directly
    follows another, this is the rule as worded (quote every token that
    follows a keyword token).  The two sample queries come out as stated. *)
Theorem C3_process_sql_query_quotes_after_unquoted_keyword (sql_query : string) :
  let tokens := PyStr.split sql_query in
  Forall is_token tokens
  /\ list_ascii_of_string (PyStr.join "" tokens)
     = List.filter (fun c => negb (PyStr.is_space c)) (list_ascii_of_string sql_query)
  /\ process_sql_query sql_query
     = PyStr.join " " (zip_with emit (quote_marks false tokens) tokens)
  /\ (no_adjacent_keywords tokens = true ->
      process_sql_query sql_query = Worded.preprocessQuery sql_query)
  /\ process_sql_query "SELECT * FROM orders"
     = "SELECT * FROM " ++ quoted "orders"
  /\ process_sql_query ("SELECT * FROM " ++ quoted "orders" ++ " JOIN items")
     = "SELECT * FROM " ++ quoted "orders" ++ " JOIN " ++ quoted "items".
Proof.
  intros tokens. split; [|split; [|split; [|split; [|split]]]].
  - apply split_from_tokens. now left.
  - apply (split_from_concat "" sql_query).
  - unfold process_sql_query. now rewrite process_parts_marks.
  - intros Hadj. unfold process_sql_query, Worded.preprocessQuery.
    f_equal. apply process_parts_worded; [reflexivity|].
    cbn [no_adjacent_keywords]. fold tokens. rewrite Hadj.
    now destruct tokens.
  - reflexivity.
  - reflexivity.
Qed.

(** A query without adjacent keywords, on which code and wording agree. *)
Lemma C3_process_sql_query_witness :
  no_adjacent_keywords (PyStr.split "select a from t1 join t2") = true
  /\ process_sql_query "select a from t1 join t2"
     = Worded.preprocessQuery "select a from t1 join t2".
Proof.
  split; [reflexivity|].
  destruct (C3_process_sql_query_quotes_after_unquoted_keyword
              "select a from t1 join t2") as (_ & _ & _ & H & _).
  apply H. reflexivity.
Defined.

(** C3 as worded fails where a keyword follows a keyword: in
    [SELECT * FROM join WHERE id = 1] the table name [join] is quoted, and
    [WHERE], whose preceding token is [join], is not; the wording quotes
    [WHERE] as well. *)
Lemma C3_counterexample :
  process_sql_query "SELECT * FROM join WHERE id = 1"
  = "SELECT * FROM " ++ quoted "join" ++ " WHERE id = 1"
  /\ Worded.preprocessQuery "SELECT * FROM join WHERE id = 1"
     = "SELECT * FROM " ++ quoted "join" ++ " " ++ quoted "WHERE" ++ " id = 1"
  /\ process_sql_query "SELECT * FROM join WHERE id = 1"
     <> Worded.preprocessQuery "SELECT * FROM join WHERE id = 1".
Proof. split; [reflexivity|]. split; [reflexivity | discriminate]. Qed.

(** ** The currency normalizer *)

Lemma remove_char_id c s :
  ~ In c (list_ascii_of_string s) -> PyStr.remove_char c s = s.
Proof.
  induction s as [|d r IH]; simpl; intros H; [reflexivity|].
  destruct (Ascii.eqb_spec d c) as [->|_].
  - exfalso. apply H. now left.
  - f_equal. apply IH. intros Hin. apply H. now right.
Qed.

Lemma remove_char_strip_leading c s :
  ~ In c (list_ascii_of_string (Worded.strip_leading c s)) ->
  PyStr.remove_char c s = Worded.strip_leading c s.
Proof.
  destruct s as [|d r]; [reflexivity|]. simpl.
  destruct (Ascii.eqb d c) eqn:E; intros H.
  - now apply remove_char_id.
  - pose proof (remove_char_id c (String d r) H) as Hid.
    simpl in Hid. now rewrite E in Hid.
Qed.

(** The integer part of [m * 2 ^ e] for a negative [e]. *)
Lemma floor_shift (m : positive) (e : Z) :
  e < 0 ->
  let a := Z.pos m / 2 ^ (- e) in
  0 <= a /\ a * 2 ^ (- e) <= Z.pos m < (a + 1) * 2 ^ (- e).
Proof.
  intros He a.
  assert (Hp : 0 < 2 ^ (- e)) by (apply Z.pow_pos_nonneg; lia).
  pose proof (Z.div_mod (Z.pos m) (2 ^ (- e)) ltac:(lia)) as Hdm.
  pose proof (Z.mod_pos_bound (Z.pos m) (2 ^ (- e)) Hp) as Hb.
  fold a in Hdm. split.
  - apply Z.div_pos; lia.
  - nia.
Qed.

(** ** Parsing integers *)

Lemma is_digit_chars c :
  Builtins.is_digit c = true ->
  Builtins.is_int_space c = false /\ Ascii.eqb c "_" = false
  /\ Ascii.eqb c "+" = false /\ Ascii.eqb c "-" = false
  /\ Ascii.eqb c dollar = false.
Proof.
  destruct c as [[] [] [] [] [] [] [] []]; intros H; try discriminate H;
    repeat split; reflexivity.
Qed.

Lemma blank_cons c s : blank (String c s) <-> Builtins.is_int_space c = true /\ blank s.
Proof. unfold blank. cbn. apply andb_true_iff. Qed.

(** The blanks in front, and those at the end, are all that is skipped. *)
Lemma skip_leading_blanks s :
  exists lead, s = lead ++ Builtins.skip_leading s /\ blank lead.
Proof.
  induction s as [|c r (lead & E & Hl)]; [now exists ""|].
  cbn [Builtins.skip_leading]. destruct (Builtins.is_int_space c) eqn:Hc.
  - exists (String c lead). split; [rewrite append_cons; now f_equal|].
    now apply blank_cons.
  - now exists "".
Qed.

Lemma skip_trailing_blanks s :
  exists trail, s = Builtins.skip_trailing s ++ trail /\ blank trail.
Proof.
  induction s as [|c r (trail & E & Hl)]; [now exists ""|].
  cbn [Builtins.skip_trailing]. destruct (Builtins.skip_trailing r) as [|d r'] eqn:Hr.
  - change ("" ++ trail) with trail in E. subst trail.
    destruct (Builtins.is_int_space c) eqn:Hc.
    + exists (String c r). split; [reflexivity | now apply blank_cons].
    + exists r. now split.
  - exists trail. split; [|exact Hl]. rewrite append_cons. now f_equal.
Qed.

Lemma skip_leading_no_blank lead w rest :
  blank lead -> Builtins.is_int_space w = false ->
  Builtins.skip_leading (lead ++ String w rest) = String w rest.
Proof.
  intros Hl Hw. induction lead as [|c lead IH].
  - change ("" ++ String w rest) with (String w rest).
    cbn [Builtins.skip_leading]. now rewrite Hw.
  - apply blank_cons in Hl as [Hc Hl]. rewrite append_cons.
    cbn [Builtins.skip_leading]. rewrite Hc. now apply IH.
Qed.

Lemma skip_trailing_blank trail : blank trail -> Builtins.skip_trailing trail = "".
Proof.
  induction trail as [|c r IH]; [reflexivity|]. intros H.
  apply blank_cons in H as [Hc Hr]. cbn [Builtins.skip_trailing].
  now rewrite (IH Hr), Hc.
Qed.

Lemma skip_trailing_app u trail :
  blank trail -> Builtins.skip_trailing (u ++ trail) = Builtins.skip_trailing u.
Proof.
  intros H. induction u as [|c r IH]; [now apply skip_trailing_blank|].
  rewrite append_cons. cbn [Builtins.skip_trailing]. now rewrite IH.
Qed.

Lemma skip_trailing_no_blank s : no_blank s -> Builtins.skip_trailing s = s.
Proof.
  unfold no_blank. induction s as [|c r IH]; [reflexivity|].
  cbn [list_ascii_of_string forallb]. intros H. apply andb_prop in H as [Hc Hr].
  cbn [Builtins.skip_trailing]. rewrite (IH Hr). destruct r; [|reflexivity].
  now destruct (Builtins.is_int_space c).
Qed.

Lemma no_blank_cons c s :
  no_blank (String c s) <-> Builtins.is_int_space c = false /\ no_blank s.
Proof.
  unfold no_blank. cbn. rewrite andb_true_iff, negb_true_iff. reflexivity.
Qed.

(** Grouped digits: what they hold. *)
Lemma digit_groups_head s :
  digit_groups s -> exists d r, s = String d r /\ Builtins.is_digit d = true.
Proof. intros [d H|d r H _|d r H _]; eauto. Qed.

Lemma digit_groups_no_blank s : digit_groups s -> no_blank s.
Proof.
  induction 1 as [d H|d r H _ IH|d r H _ IH];
    destruct (is_digit_chars d H) as (Hs & _);
    repeat (apply no_blank_cons; split); try assumption; reflexivity.
Qed.

Lemma count_digits_digit d r :
  Builtins.is_digit d = true -> count_digits (String d r) = S (count_digits r).
Proof. intros H. unfold count_digits. cbn. now rewrite H. Qed.

Lemma count_digits_underscore r : count_digits (String "_" r) = count_digits r.
Proof. reflexivity. Qed.

Lemma remove_underscore_digit d r :
  Builtins.is_digit d = true ->
  PyStr.remove_char "_" (String d r) = String d (PyStr.remove_char "_" r).
Proof.
  intros H. destruct (is_digit_chars d H) as (_ & Hu & _). cbn. now rewrite Hu.
Qed.

Lemma parse_digits_sound s :
  forall acc prev_digit digits v,
    Builtins.parse_digits acc prev_digit digits s = Some v ->
    continues prev_digit s
    /\ (digits + count_digits s <= Builtins.max_str_digits)%nat
    /\ v = decimal_value acc (PyStr.remove_char "_" s).
Proof.
  induction s as [|c r IH]; intros acc prev n v H; cbn [Builtins.parse_digits] in H.
  - destruct prev; [|discriminate]. cbn [andb] in H.
    destruct (Nat.leb_spec n Builtins.max_str_digits) as [Hn|Hn]; [|discriminate].
    injection H as <-. split; [now left|]. split; [|reflexivity].
    change (count_digits "") with O. lia.
  - destruct (Builtins.is_digit c) eqn:Hc.
    + destruct (IH _ _ _ _ H) as (Hk & Hn & Hv).
      assert (Hg : digit_groups (String c r)).
      { destruct Hk as [->|[Hg|(r' & -> & Hg)]];
          [now apply groups_digit | now apply groups_more
          | now apply groups_underscore]. }
      split; [destruct prev; [right; now left | exact Hg]|].
      rewrite count_digits_digit by exact Hc.
      rewrite remove_underscore_digit by exact Hc.
      split; [lia | exact Hv].
    + destruct (Ascii.eqb_spec c "_") as [->|Hu]; [|discriminate].
      destruct prev; [|discriminate].
      destruct (IH _ _ _ _ H) as (Hk & Hn & Hv).
      split; [right; right; now exists r|].
      rewrite count_digits_underscore. split; [exact Hn | exact Hv].
Qed.

Lemma parse_digits_complete s :
  digit_groups s ->
  forall acc prev_digit digits,
    (digits + count_digits s <= Builtins.max_str_digits)%nat ->
    Builtins.parse_digits acc prev_digit digits s
    = Some (decimal_value acc (PyStr.remove_char "_" s)).
Proof.
  induction 1 as [d H|d r H Hr IH|d r H Hr IH]; intros acc prev n Hn;
    rewrite count_digits_digit in Hn by exact H;
    rewrite remove_underscore_digit by exact H;
    cbn [Builtins.parse_digits decimal_value]; rewrite H.
  - cbn [PyStr.remove_char decimal_value Builtins.parse_digits andb].
    change (count_digits "") with O in Hn.
    destruct (Nat.leb_spec (S n) Builtins.max_str_digits); [reflexivity | lia].
  - apply IH. lia.
  - rewrite count_digits_underscore in Hn.
    cbn [Builtins.parse_digits PyStr.remove_char].
    change (Builtins.is_digit "_") with false.
    change (Ascii.eqb "_" "_") with true. cbn iota.
    apply IH. lia.
Qed.

Lemma parse_digits_literal s v :
  Builtins.parse_digits 0 false 0 s = Some v
  <-> digit_groups s
      /\ (count_digits s <= Builtins.max_str_digits)%nat
      /\ v = decimal_value 0 (PyStr.remove_char "_" s).
Proof.
  split.
  - intros H. apply parse_digits_sound in H. exact H.
  - intros (Hg & Hn & ->). now apply parse_digits_complete.
Qed.

(** [int] on a string without blanks around it: the sign is looked at
    first. *)
Lemma int_of_string_unfold s :
  Builtins.int_of_string s
  = let u := Builtins.skip_trailing (Builtins.skip_leading s) in
    match u with
    | EmptyString => None
    | String c r =>
        if Ascii.eqb c "+" then Builtins.parse_digits 0 false 0 r
        else if Ascii.eqb c "-" then Z.opp <$> Builtins.parse_digits 0 false 0 r
        else Builtins.parse_digits 0 false 0 u
    end.
Proof.
  unfold Builtins.int_of_string. cbn zeta.
  destruct (Builtins.skip_trailing (Builtins.skip_leading s)) as [|c r];
    [reflexivity|].
  destruct c as [[] [] [] [] [] [] [] []]; reflexivity.
Qed.

(** The strings that [int] converts are the integer literals. *)
Lemma int_of_string_literal (t : string) (z : Z) :
  Builtins.int_of_string t = Some z <-> int_literal t z.
Proof.
  rewrite int_of_string_unfold. cbn zeta. split.
  - intros H.
    destruct (skip_leading_blanks t) as (lead & Et & Hlead).
    destruct (skip_trailing_blanks (Builtins.skip_leading t)) as (trail & Eu & Htrail).
    destruct (Builtins.skip_trailing (Builtins.skip_leading t)) as [|c r] eqn:Hu;
      [discriminate|].
    rewrite Eu in Et.
    destruct (Ascii.eqb_spec c "+") as [->|Hp]; [|destruct (Ascii.eqb_spec c "-") as [->|Hm]].
    + apply parse_digits_literal in H as (Hg & Hn & Hv).
      exists lead, "+", r, trail.
      split; [now rewrite Et|]. split; [exact Hlead|]. split; [exact Htrail|].
      split; [right; now left|]. split; [exact Hg|]. split; [exact Hn | exact Hv].
    + destruct (Builtins.parse_digits 0 false 0 r) as [v|] eqn:Hr; [|discriminate].
      injection H as <-. apply parse_digits_literal in Hr as (Hg & Hn & Hv).
      exists lead, "-", r, trail.
      split; [now rewrite Et|]. split; [exact Hlead|]. split; [exact Htrail|].
      split; [right; now right|]. split; [exact Hg|]. split; [exact Hn|].
      now rewrite Hv.
    + apply parse_digits_literal in H as (Hg & Hn & Hv).
      exists lead, "", (String c r), trail.
      split; [now rewrite Et|]. split; [exact Hlead|]. split; [exact Htrail|].
      split; [now left|]. split; [exact Hg|]. split; [exact Hn | exact Hv].
  - intros (lead & sign & body & trail & Et & Hlead & Htrail & Hsign & Hg & Hn & Ez).
    subst t z.
    destruct (digit_groups_head body Hg) as (d & r & Eb & Hd).
    destruct (is_digit_chars d Hd) as (Hds & _ & Hdp & Hdm & _).
    pose proof (digit_groups_no_blank body Hg) as Hnb.
    assert (Hskip : forall w rest,
      Builtins.is_int_space w = false -> no_blank (String w rest) ->
      Builtins.skip_trailing (Builtins.skip_leading (lead ++ String w rest ++ trail))
      = String w rest).
    { intros w rest Hw Hwr. rewrite append_cons.
      rewrite (skip_leading_no_blank lead w _ Hlead Hw).
      rewrite <- append_cons, skip_trailing_app by exact Htrail.
      now apply skip_trailing_no_blank. }
    destruct Hsign as [ -> | [ -> | -> ] ].
    + change ("" ++ body ++ trail) with (body ++ trail).
      rewrite Eb. rewrite Hskip; [|exact Hds|now rewrite <- Eb].
      rewrite Hdp, Hdm. rewrite <- Eb. change (String.eqb "" "-") with false.
      now apply parse_digits_complete.
    + change ("+" ++ body ++ trail) with (String "+" body ++ trail).
      rewrite Hskip; [|reflexivity|apply no_blank_cons; now split].
      change (Ascii.eqb "+" "+") with true. cbn iota.
      change (String.eqb "+" "-") with false.
      now apply parse_digits_complete.
    + change ("-" ++ body ++ trail) with (String "-" body ++ trail).
      rewrite Hskip; [|reflexivity|apply no_blank_cons; now split].
      change (Ascii.eqb "-" "+") with false. change (Ascii.eqb "-" "-") with true.
      cbn iota. change (String.eqb "-" "-") with true.
      now rewrite parse_digits_complete.
Qed.

(** ** The currency normalizer, continued *)

(** C7 (as the code has it): on a text, [remove_dollar_sign] removes every
    dollar sign, wherever it stands, and converts what is left when that is
    an integer literal: blanks, a sign or none, decimal digits that single
    underscores may group and that are no more than the interpreter
    converts, blanks.  It returns the value of the literal then, and raises
    [ValueError] on every other text, and nothing else.  On a text with no
    dollar sign after a possible leading one this is the worded behaviour.
    An int is returned as it is, a bool as 0 or 1, a finite float truncated
    toward zero; NaN, the infinities and [None] raise. *)
Theorem C7_remove_dollar_sign :
  (forall s : string,
     let cleaned := PyStr.remove_char dollar s in
     list_ascii_of_string cleaned
       = List.filter (fun d => negb (Ascii.eqb d dollar)) (list_ascii_of_string s)
     /\ (forall z, remove_dollar_sign (CStr s) = Ok (CInt z) <-> int_literal cleaned z)
     /\ (remove_dollar_sign (CStr s) = Raise ValueError
         <-> ~ exists z, int_literal cleaned z)
     /\ ((exists e, remove_dollar_sign (CStr s) = Raise e)
         <-> ~ exists z, int_literal cleaned z))
  /\ (forall s : string,
        ~ In dollar (list_ascii_of_string (Worded.strip_leading dollar s)) ->
        remove_dollar_sign (CStr s) = Worded.stripCurrencyToInt (CStr s))
  /\ (forall z, remove_dollar_sign (CInt z) = Ok (CInt z))
  /\ (forall b, remove_dollar_sign (CBool b) = Ok (CInt (if b then 1 else 0)))
  /\ (forall sg, remove_dollar_sign (CFloat (S754_zero sg)) = Ok (CInt 0))
  /\ (forall sg m e,
        exists a,
          remove_dollar_sign (CFloat (S754_finite sg m e))
            = Ok (CInt (if sg then - a else a))
          /\ 0 <= a
          /\ (0 <= e -> a = Z.pos m * 2 ^ e)
          /\ (e < 0 -> a * 2 ^ (- e) <= Z.pos m < (a + 1) * 2 ^ (- e)))
  /\ remove_dollar_sign (CFloat S754_nan) = Raise ValueError
  /\ (forall sg, remove_dollar_sign (CFloat (S754_infinity sg)) = Raise OverflowError)
  /\ remove_dollar_sign CNone = Raise TypeError.
Proof.
  split; [|split; [|repeat split]].
  - intros s cleaned. split; [apply remove_char_filter|].
    unfold remove_dollar_sign, Builtins.int. fold cleaned.
    destruct (Builtins.int_of_string cleaned) as [v|] eqn:E.
    + apply int_of_string_literal in E. split; [|split].
      * intros z. split.
        -- intros [= <-]. exact E.
        -- intros Hz. apply int_of_string_literal in E, Hz. congruence.
      * split; [discriminate | intros H; exfalso; apply H; eauto].
      * split; [intros [e H]; discriminate | intros H; exfalso; apply H; eauto].
    + assert (Hn : ~ exists z, int_literal cleaned z).
      { intros [z Hz]. apply int_of_string_literal in Hz. congruence. }
      split; [|split].
      * intros z. split; [discriminate | intros Hz; exfalso; apply Hn; eauto].
      * now split.
      * split; [now intros _ | intros _; now exists ValueError].
  - intros s H. unfold remove_dollar_sign, Worded.stripCurrencyToInt.
    now rewrite remove_char_strip_leading.
  - intros sg m e. unfold remove_dollar_sign, Builtins.int, Builtins.int_of_float.
    simpl. destruct (Z.leb_spec 0 e) as [He|He].
    + exists (Z.pos m * 2 ^ e). split; [reflexivity|]. split.
      * apply Z.mul_nonneg_nonneg; [lia | apply Z.pow_nonneg; lia].
      * split; [reflexivity | lia].
    + exists (Z.pos m / 2 ^ (- e)). split; [reflexivity|].
      destruct (floor_shift m e He) as [H0 H1].
      split; [exact H0|]. split; [lia | intros _; exact H1].
Qed.

(** A text with one leading dollar sign: code and wording agree. *)
Lemma C7_remove_dollar_sign_witness :
  ~ In dollar (list_ascii_of_string (Worded.strip_leading dollar "$5"))
  /\ remove_dollar_sign (CStr "$5") = Worded.stripCurrencyToInt (CStr "$5").
Proof.
  destruct C7_remove_dollar_sign as (_ & H & _).
  split.
  - simpl. intros [E | []]. discriminate E.
  - apply H. simpl. intros [E | []]. discriminate E.
Defined.

(** C7 as worded fails on a dollar sign that is not leading: the code
    parses [1$2] as 12, while stripping a leading symbol leaves [1$2], which
    is not integer-parseable. *)
Lemma C7_counterexample :
  remove_dollar_sign (CStr "1$2") = Ok (CInt 12)
  /\ Worded.stripCurrencyToInt (CStr "1$2") = Raise ValueError.
Proof. split; reflexivity. Qed.

(** ** The label normalizer *)

(** C8: what the code does on a column name that is no float.  The
    specification, and the docstring of [process_column], ask for the
    string form of the name.  The code calls [is_integer], a method of
    floats, on every name that is not missing: on a text the call raises
    [AttributeError], whatever the text, and so it does on an int and on a
    truth value unless [int] has that method. *)
Theorem C8_process_column_raises_on_text (L : PyLib) :
  (forall s, process_column (CStr s) = Raise AttributeError)
  /\ (forall z,
        process_column (CInt z)
        = if int_has_is_integer then str (CInt z) else Raise AttributeError)
  /\ (forall b,
        process_column (CBool b)
        = if int_has_is_integer then str (CInt (if b then 1 else 0))
          else Raise AttributeError).
Proof.
  split; [reflexivity|]. split.
  - intros z. unfold process_column. cbn [Builtins.isna call_is_integer].
    now destruct int_has_is_integer.
  - intros b. unfold process_column. cbn [Builtins.isna call_is_integer].
    now destruct int_has_is_integer.
Qed.

(** ** Frames and the heap monad *)

Lemma get_column_is_Some column (fr : frame) :
  column ∈ columns fr <-> is_Some (get_column column fr).
Proof.
  unfold columns. induction fr as [|[name s] rest IH]; simpl.
  - split; [intros H; inversion H | intros [x H]; discriminate].
  - rewrite elem_of_cons. destruct (String.eqb_spec name column) as [->|Hne].
    + split; [eauto | now left].
    + rewrite <- IH. split; [intros [E|H]; [congruence | exact H] | now right].
Qed.

Lemma get_column_None column (fr : frame) :
  column ∉ columns fr <-> get_column column fr = None.
Proof.
  rewrite get_column_is_Some. rewrite <- eq_None_not_Some. reflexivity.
Qed.

Lemma get_set_column column s (fr : frame) :
  get_column column (set_column column s fr) = Some s.
Proof.
  induction fr as [|[name old] rest IH]; simpl.
  - now rewrite String.eqb_refl.
  - destruct (String.eqb_spec name column) as [->|Hne]; simpl.
    + now rewrite String.eqb_refl.
    + destruct (String.eqb_spec name column); [contradiction | exact IH].
Qed.

Lemma get_set_column_ne column other s (fr : frame) :
  other <> column ->
  get_column other (set_column column s fr) = get_column other fr.
Proof.
  intros Hne. induction fr as [|[name old] rest IH]; simpl.
  - destruct (String.eqb_spec column other); [congruence | reflexivity].
  - destruct (String.eqb_spec name column) as [->|Hnc]; simpl.
    + destruct (String.eqb_spec column other); [congruence | reflexivity].
    + now rewrite IH.
Qed.

Lemma columns_set_column column s (fr : frame) :
  column ∈ columns fr -> columns (set_column column s fr) = columns fr.
Proof.
  unfold columns. induction fr as [|[name old] rest IH]; simpl; intros Hin.
  - inversion Hin.
  - destruct (String.eqb_spec name column) as [->|Hnc]; simpl; [reflexivity|].
    f_equal. apply IH. apply elem_of_cons in Hin as [E|H]; [congruence | exact H].
Qed.


(** On texts the map step works cell by cell. *)
Lemma text_values_lookup (mapping : gmap string cell) k w :
  text_values mapping = true -> mapping !! k = Some w ->
  text_or_missing w = true.
Proof.
  unfold text_values. intros H Hk.
  apply (proj1 (forallb_forall _ _) H). apply list_elem_of_In.
  apply list_elem_of_fmap. exists (k, w). split; [reflexivity|].
  now apply elem_of_map_to_list.
Qed.

Lemma lookup_cell_text (mapping : gmap string cell) (s : series) :
  text_values mapping = true ->
  forallb text_or_missing (map (lookup_cell mapping) s) = true.
Proof.
  intros H. apply forallb_forall. intros w Hw.
  apply in_map_iff in Hw as (v & <- & _).
  destruct v as [| | | |k]; try reflexivity. cbn [lookup_cell].
  destruct (mapping !! k) as [w|] eqn:Hk; [|reflexivity].
  exact (text_values_lookup mapping k w H Hk).
Qed.

Lemma fill_cells_lookup (mapping : gmap string cell) (s : series) :
  fill_cells (map (lookup_cell mapping) s) s = map (mapped_value mapping) s.
Proof.
  induction s as [|v r IH]; [reflexivity|]. cbn [map fill_cells].
  f_equal; [|exact IH].
  destruct v as [| | | |k]; try reflexivity.
  cbn [lookup_cell mapped_value]. now destruct (mapping !! k) as [w|].
Qed.

Section Monad.
Context {L : PyLib}.

Lemma map_step_text (mapping : gmap string cell) (s : series) :
  text_values mapping = true -> text_series s = true ->
  map_step mapping s = map (mapped_value mapping) s.
Proof.
  intros Hm Hs. unfold map_step, series_map, series_fillna. rewrite Hm.
  rewrite (lookup_cell_text mapping s Hm), Hs. apply fill_cells_lookup.
Qed.

(** The namespace at the time of a call holds what the import bound, and
    never a binding for [st]. *)
Lemma globals_other name :
  name <> "__warningregistry__" -> globals !! name = module_globals !! name.
Proof.
  intros H. unfold globals. destruct warning_registry; [|reflexivity].
  now apply lookup_insert_ne.
Qed.

Lemma globals_bound name obj :
  module_globals !! name = Some obj -> globals !! name = Some obj.
Proof.
  intros H. rewrite globals_other; [exact H|].
  intros ->. assert (module_globals !! "__warningregistry__" = None) by reflexivity.
  congruence.
Qed.

Lemma globals_st : globals !! "st" = None.
Proof. rewrite globals_other by discriminate. reflexivity. Qed.

Lemma mbind_ok {A B} (m : M A) (k : A -> M B) h a h' :
  m h = (Ok a, h') -> mbind m k h = k a h'.
Proof. intros H. unfold mbind. now rewrite H. Qed.

Lemma mbind_raise {A B} (m : M A) (k : A -> M B) h e h' :
  m h = (Raise e, h') -> mbind m k h = (Raise e, h').
Proof. intros H. unfold mbind. now rewrite H. Qed.

Lemma read_frame_ok (h : heap) df fr :
  h !! df = Some fr -> read_frame df h = (Ok fr, h).
Proof. intros H. unfold read_frame. now rewrite H. Qed.

Lemma has_column_ok (h : heap) df fr column :
  h !! df = Some fr ->
  has_column df column h = (Ok (bool_decide (column ∈ columns fr)), h).
Proof.
  intros H. unfold has_column.
  now rewrite (mbind_ok _ _ _ _ _ (read_frame_ok h df fr H)).
Qed.

Lemma getitem_ok (h : heap) df fr column s :
  h !! df = Some fr -> get_column column fr = Some s ->
  getitem df column h = (Ok s, h).
Proof.
  intros H Hc. unfold getitem.
  rewrite (mbind_ok _ _ _ _ _ (read_frame_ok h df fr H)). now rewrite Hc.
Qed.

Lemma setitem_ok (h : heap) df fr column s :
  h !! df = Some fr ->
  setitem df column s h = (Ok tt, <[df := set_column column s fr]> h).
Proof.
  intros H. unfold setitem.
  now rewrite (mbind_ok _ _ _ _ _ (read_frame_ok h df fr H)).
Qed.

(** The warning statement raises, whatever the heap. *)
Lemma st_warning_raises msg (h : heap) :
  st_warning msg h = (Raise (NameError "st"), h).
Proof. unfold st_warning, load_global, mbind. now rewrite globals_st. Qed.

(** A configured column that the frame lacks stops the whole loop. *)
Lemma apply_transformations_missing_column (h : heap) df fr column t rest :
  h !! df = Some fr -> column ∉ columns fr ->
  apply_transformations df ((column, t) :: rest) h = (Raise (NameError "st"), h).
Proof.
  intros H Hc. unfold apply_transformations. cbn [for_each].
  unfold mbind at 1. unfold mbind at 1. unfold mbind at 1.
  rewrite (has_column_ok h df fr column H).
  rewrite bool_decide_eq_false_2 by exact Hc.
  now rewrite st_warning_raises.
Qed.

End Monad.

Section Steps.
Context {L : PyLib}.

(** The map step comes first and assigns the mapped column; the later steps
    start from it. *)
Lemma transform_column_map_first (h : heap) df fr column s mapping t :
  h !! df = Some fr -> get_column column fr = Some s ->
  t_map t = Some mapping ->
  transform_column df column t h
  = transform_column df column (without_map t)
      (<[df := set_column column (map_step mapping s) fr]> h).
Proof.
  intros H Hc Ht. unfold transform_column, without_map. rewrite Ht.
  cbn [t_map t_astype t_apply].
  assert (E : (s1 <- getitem df column ;; s0 <- getitem df column ;;
               setitem df column (series_fillna (series_map mapping s1) s0)) h
              = (Ok tt, <[df := set_column column (map_step mapping s) fr]> h)).
  { rewrite (mbind_ok _ _ _ _ _ (getitem_ok h df fr column s H Hc)).
    rewrite (mbind_ok _ _ _ _ _ (getitem_ok h df fr column s H Hc)).
    now apply setitem_ok. }
  rewrite (mbind_ok _ _ _ _ _ E). reflexivity.
Qed.

Lemma transform_column_only_map (h : heap) df fr column s mapping :
  h !! df = Some fr -> get_column column fr = Some s ->
  transform_column df column (only_map mapping) h
  = (Ok tt, <[df := set_column column (map_step mapping s) fr]> h).
Proof.
  intros H Hc.
  rewrite (transform_column_map_first h df fr column s mapping
             (only_map mapping) H Hc eq_refl).
  reflexivity.
Qed.

Lemma apply_config_type name : custom_apply name !! "type" = Some "custom".
Proof. apply lookup_insert_eq. Qed.

Lemma apply_config_function name : custom_apply name !! "function" = Some name.
Proof.
  unfold custom_apply. rewrite lookup_insert_ne by discriminate.
  apply lookup_singleton_eq.
Qed.

(** The apply step with a name bound to a true object: the object is
    applied to the column, and the column assigned when that succeeds. *)
Lemma transform_column_only_apply (h : heap) df fr column s name obj :
  h !! df = Some fr -> get_column column fr = Some s ->
  globals !! name = Some obj -> truthy obj = true ->
  transform_column df column (only_apply name) h
  = match series_apply name obj s with
    | Ok s' => (Ok tt, <[df := set_column column s' fr]> h)
    | Raise e => (Raise e, h)
    end.
Proof.
  intros H Hc Hg Ht. unfold transform_column, only_apply.
  cbn [t_map t_astype t_apply].
  unfold dict_getitem. rewrite apply_config_type.
  unfold mbind at 1. unfold mbind at 1. unfold mbind at 1. unfold mbind at 1.
  cbn [mret]. cbn beta iota.
  change (String.eqb "custom" "custom") with true. cbn iota.
  rewrite apply_config_function.
  unfold mbind at 1. cbn [mret]. cbn beta iota. rewrite Hg, Ht.
  rewrite (getitem_ok h df fr column s H Hc).
  unfold mbind, lift. destruct (series_apply name obj s); [|reflexivity].
  apply (setitem_ok h df fr). exact H.
Qed.

(** The apply step with a name that is unbound, or bound to a false object:
    the warning branch is taken, and raises. *)
Lemma transform_column_unresolved (h : heap) df column name :
  (globals !! name = None
   \/ exists obj, globals !! name = Some obj /\ truthy obj = false) ->
  transform_column df column (only_apply name) h = (Raise (NameError "st"), h).
Proof.
  intros Hg. unfold transform_column, only_apply.
  cbn [t_map t_astype t_apply].
  unfold dict_getitem. rewrite apply_config_type.
  unfold mbind at 1. unfold mbind at 1. unfold mbind at 1. unfold mbind at 1.
  cbn [mret]. cbn beta iota.
  change (String.eqb "custom" "custom") with true. cbn iota.
  rewrite apply_config_function.
  unfold mbind at 1. cbn [mret]. cbn beta iota.
  destruct Hg as [Hg | (obj & Hg & Ht)]; rewrite Hg; [|rewrite Ht];
    apply st_warning_raises.
Qed.

(** One item of the configuration whose column the frame has. *)
Lemma apply_transformations_cons (h : heap) df fr column t rest :
  h !! df = Some fr -> column ∈ columns fr ->
  apply_transformations df ((column, t) :: rest) h
  = match transform_column df column t h with
    | (Ok _, h') => apply_transformations df rest h'
    | (Raise e, h') => (Raise e, h')
    end.
Proof.
  intros H Hc. unfold apply_transformations. cbn [for_each].
  unfold mbind at 1. unfold mbind at 1. unfold mbind at 1.
  rewrite (has_column_ok h df fr column H).
  rewrite bool_decide_eq_true_2 by exact Hc.
  destruct (transform_column df column t h) as [[[]|e] h']; reflexivity.
Qed.

Lemma for_each_app {A} (pre items : list A) (body : A -> M unit) (h : heap) :
  for_each (pre ++ items)%list body h
  = match for_each pre body h with
    | (Ok _, h1) => for_each items body h1
    | (Raise e, h1) => (Raise e, h1)
    end.
Proof.
  revert h. induction pre as [|x pre IH]; intros h; simpl.
  - now destruct (for_each items body h) as [[[]|e] h1].
  - unfold mbind. destruct (body x h) as [[[]|e] h0]; [apply IH | reflexivity].
Qed.

(** The items of a configuration are processed one after the other, each
    from the heap the one before left. *)
Lemma apply_transformations_app df (pre items : config) (h : heap) :
  apply_transformations df (pre ++ items)%list h
  = match apply_transformations df pre h with
    | (Ok _, h1) => apply_transformations df items h1
    | (Raise e, h1) => (Raise e, h1)
    end.
Proof.
  unfold apply_transformations, mbind. rewrite for_each_app.
  destruct (for_each pre _ h) as [[[]|e] h1]; reflexivity.
Qed.

(** A configuration of one item, a [map] operation on a column the frame
    has. *)
Lemma apply_transformations_only_map (h : heap) df fr column s mapping :
  h !! df = Some fr -> get_column column fr = Some s ->
  apply_transformations df [(column, only_map mapping)] h
  = (Ok df, <[df := set_column column (map_step mapping s) fr]> h).
Proof.
  intros H Hc.
  assert (Hin : column ∈ columns fr) by (apply get_column_is_Some; eauto).
  rewrite (apply_transformations_cons h df fr column _ [] H Hin).
  now rewrite (transform_column_only_map h df fr column s mapping H Hc).
Qed.

(** The same on a column of texts with texts for replacement values. *)
Lemma apply_transformations_text_map (h : heap) df fr column s mapping :
  h !! df = Some fr -> get_column column fr = Some s ->
  text_values mapping = true -> text_series s = true ->
  apply_transformations df [(column, only_map mapping)] h
  = (Ok df, <[df := set_column column (map (mapped_value mapping) s) fr]> h).
Proof.
  intros H Hc Hm Hs.
  now rewrite (apply_transformations_only_map h df fr column s mapping H Hc),
    map_step_text.
Qed.

End Steps.

(** The mappings of the samples have texts, or nulls, for values. *)
Lemma text_values_sample : text_values {[ "x" := CStr "X" ]} = true.
Proof. reflexivity. Qed.


(** ** The transformation engine *)




(** C2: what the code does on a configured column that the frame lacks,
    wherever the column stands in the configuration.  The specification asks
    for one warning, the frame unchanged for that key and the remaining
    columns still processed.  The code reaches [st.warning] in a module that
    never binds [st]: the call raises [NameError], the loop stops there with
    the heap as the items before left it, and no later item is processed. *)
Theorem C2_missing_column_raises_NameError
    (L : PyLib) (h h1 : heap) (df : loc) (fr1 : frame) (pre : config)
    (column : string) (t : transformations) (rest : config) :
  apply_transformations df pre h = (Ok df, h1) ->
  h1 !! df = Some fr1 -> column ∉ columns fr1 ->
  apply_transformations df (pre ++ (column, t) :: rest)%list h
  = (Raise (NameError "st"), h1).
Proof.
  intros Hpre H Hc. rewrite apply_transformations_app, Hpre.
  now apply (apply_transformations_missing_column h1 df fr1).
Qed.

(** The sample frame has no column [nonexistent]: column [a], configured
    before it, is mapped, and column [b], configured after it, is never
    processed. *)
Lemma C2_missing_column_witness :
  (forall L : PyLib,
     apply_transformations 0%nat sample_config sample_heap
     = (Ok 0%nat, {[ 0%nat := sample_frame_mapped ]}))
  /\ ({[ 0%nat := sample_frame_mapped ]} : heap) !! 0%nat = Some sample_frame_mapped
  /\ ("nonexistent" ∉ columns sample_frame_mapped)
  /\ forall L : PyLib,
       apply_transformations 0%nat
         (sample_config
          ++ [("nonexistent", only_map ∅); ("b", only_apply "remove_dollar_sign")])%list
         sample_heap
       = (Raise (NameError "st"), {[ 0%nat := sample_frame_mapped ]}).
Proof.
  assert (Hpre : forall L : PyLib,
            apply_transformations 0%nat sample_config sample_heap
            = (Ok 0%nat, {[ 0%nat := sample_frame_mapped ]})).
  { intros L. unfold sample_config.
    rewrite (apply_transformations_text_map sample_heap 0%nat sample_frame "a"
               [CStr "x"; CStr "y"] {[ "x" := CStr "X" ]}
               eq_refl eq_refl text_values_sample eq_refl).
    reflexivity. }
  assert (Hc : "nonexistent" ∉ columns sample_frame_mapped).
  { apply get_column_None. reflexivity. }
  split; [exact Hpre|]. split; [reflexivity|]. split; [exact Hc|]. intros L.
  exact (C2_missing_column_raises_NameError L sample_heap
           {[ 0%nat := sample_frame_mapped ]} 0%nat sample_frame_mapped
           sample_config "nonexistent" (only_map ∅)
           [("b", only_apply "remove_dollar_sign")] (Hpre L) eq_refl Hc).
Defined.

(** C6: what the code does on an [apply] operation naming a function that
    the module namespace lacks, wherever the item stands in the
    configuration.  The specification asks for a warning and the column left
    as it is, with processing going on; the code takes the warning branch,
    which raises [NameError] for the unbound [st] and ends the whole call. *)
Theorem C6_unknown_function_raises_NameError
    (L : PyLib) (h h1 : heap) (df : loc) (fr1 : frame) (pre : config)
    (column name : string) (rest : config) :
  apply_transformations df pre h = (Ok df, h1) ->
  h1 !! df = Some fr1 -> column ∈ columns fr1 ->
  globals !! name = None ->
  apply_transformations df (pre ++ (column, only_apply name) :: rest)%list h
  = (Raise (NameError "st"), h1).
Proof.
  intros Hpre H Hc Hg. rewrite apply_transformations_app, Hpre.
  rewrite (apply_transformations_cons h1 df fr1 column _ rest H Hc).
  rewrite transform_column_unresolved by now left.
  reflexivity.
Qed.

(** No global is called [no_such_function]: naming it for column [b] ends
    the call, and column [a], configured after it, is never mapped. *)
Lemma C6_unknown_function_witness :
  (forall L : PyLib, apply_transformations 0%nat [] sample_heap = (Ok 0%nat, sample_heap))
  /\ sample_heap !! 0%nat = Some sample_frame
  /\ ("b" ∈ columns sample_frame)
  /\ forall L : PyLib,
       globals !! "no_such_function" = None
       /\ apply_transformations 0%nat
            ([] ++ ("b", only_apply "no_such_function") :: sample_config)%list
            sample_heap
          = (Raise (NameError "st"), sample_heap).
Proof.
  assert (Hc : "b" ∈ columns sample_frame).
  { apply get_column_is_Some. eexists. reflexivity. }
  split; [reflexivity|]. split; [reflexivity|]. split; [exact Hc|]. intros L.
  assert (Hg : globals !! "no_such_function" = None).
  { rewrite globals_other by discriminate. reflexivity. }
  split; [exact Hg|].
  exact (C6_unknown_function_raises_NameError L sample_heap sample_heap 0%nat
           sample_frame [] "b" "no_such_function" sample_config
           eq_refl eq_refl Hc Hg).
Defined.

(** C9: with the empty configuration the engine returns the frame it was
    given and changes nothing on the heap. *)
Theorem C9_empty_config_identity (L : PyLib) (df : loc) (h : heap) :
  apply_transformations df [] h = (Ok df, h).
Proof. reflexivity. Qed.

(** ** Function resolution *)




(** ** In-place update *)

Create HintDb heap_local.

Section InPlace.
Context {L : PyLib}.

Lemma updates_only_pure {A} df (m : M A) :
  (forall h, (m h).2 = h) -> updates_only df m.
Proof. intros Hm h. rewrite Hm. split; [reflexivity | intros; reflexivity]. Qed.

Lemma updates_only_bind {A B} df (m : M A) (k : A -> M B) :
  updates_only df m -> (forall a, updates_only df (k a)) ->
  updates_only df (mbind m k).
Proof.
  intros Hm Hk h. unfold mbind. specialize (Hm h).
  destruct (m h) as [[a|e] h1]; simpl in Hm.
  - destruct (Hk a h1) as [Hd Hl]. destruct Hm as [Hd1 Hl1]. split.
    + now rewrite Hd.
    + intros l Hne. rewrite (Hl l Hne). now apply Hl1.
  - exact Hm.
Qed.

Lemma updates_only_read_frame df : updates_only df (read_frame df).
Proof.
  apply updates_only_pure. intros h. unfold read_frame.
  now destruct (h !! df).
Qed.

Lemma updates_only_has_column df column : updates_only df (has_column df column).
Proof.
  apply updates_only_bind; [apply updates_only_read_frame|].
  intros fr. now apply updates_only_pure.
Qed.

Lemma updates_only_getitem df column : updates_only df (getitem df column).
Proof.
  apply updates_only_bind; [apply updates_only_read_frame|].
  intros fr. apply updates_only_pure. intros h.
  now destruct (get_column column fr).
Qed.

Lemma updates_only_setitem df column s : updates_only df (setitem df column s).
Proof.
  intros h. unfold setitem, mbind, read_frame.
  destruct (h !! df) as [fr|] eqn:E; simpl.
  - split.
    + apply dom_insert_lookup_L. now rewrite E.
    + intros l Hne. now apply lookup_insert_ne.
  - split; [reflexivity | intros; reflexivity].
Qed.

Lemma updates_only_st_warning df msg : updates_only df (st_warning msg).
Proof.
  apply updates_only_pure. intros h. now rewrite st_warning_raises.
Qed.

Lemma updates_only_dict_getitem {V} df (d : gmap string V) key :
  updates_only df (dict_getitem d key).
Proof.
  apply updates_only_pure. intros h. unfold dict_getitem.
  now destruct (d !! key).
Qed.

Lemma updates_only_for_each {A} df (items : list A) (body : A -> M unit) :
  (forall x, updates_only df (body x)) -> updates_only df (for_each items body).
Proof.
  intros Hb. induction items as [|x rest IH]; simpl.
  - now apply updates_only_pure.
  - apply updates_only_bind; [apply Hb | intros _; exact IH].
Qed.

#[local] Hint Resolve updates_only_read_frame updates_only_has_column
  updates_only_getitem updates_only_setitem updates_only_st_warning
  updates_only_dict_getitem : heap_local.

(** One step through a computation: a primitive, a sequence, a pure
    computation, or a case distinction of the source. *)
Ltac updates_only_step :=
  first
    [ solve [auto with heap_local]
    | apply updates_only_bind; [|intros ?]
    | now apply updates_only_pure
    | match goal with
      | |- updates_only _ (match ?x with _ => _ end) => destruct x
      | |- updates_only _ (if ?x then _ else _) => destruct x
      end ].

Lemma updates_only_transform_column df column t :
  updates_only df (transform_column df column t).
Proof. unfold transform_column. repeat updates_only_step. Qed.

Lemma updates_only_apply_transformations df cfg :
  updates_only df (apply_transformations df cfg).
Proof.
  unfold apply_transformations.
  apply updates_only_bind; [|intros _; now apply updates_only_pure].
  apply updates_only_for_each. intros [column t].
  apply updates_only_bind; [apply updates_only_has_column|].
  intros [|]; [apply updates_only_transform_column | apply updates_only_st_warning].
Qed.

(** A call that returns returns the location it was given. *)
Lemma apply_transformations_returns df cfg (h : heap) :
  (apply_transformations df cfg h).1 = Ok df
  \/ exists e, (apply_transformations df cfg h).1 = Raise e.
Proof.
  unfold apply_transformations, mbind.
  destruct (for_each cfg _ h) as [[[]|e] h']; simpl; eauto.
Qed.

End InPlace.

(** C10: [apply_transformations] assigns into the frame object it is given
    and returns that same object.  A call that returns returns the location
    it received; the heap holds frames at the same locations before and
    after, and every frame other than the given one is as before, so no copy
    of the input is made or kept.  In the interface, after a call that returns, [trans_df]
    and [original_df] name one and the same frame. *)
Theorem C10_apply_transformations_in_place
    (df : loc) (cfg : config) (h : heap) (L : PyLib) :
  let out := apply_transformations df cfg h in
  (out.1 = Ok df \/ exists e, out.1 = Raise e)
  /\ dom out.2 = dom h
  /\ (forall l, l <> df -> out.2 !! l = h !! l)
  /\ (forall s, original_df s = Some df ->
        on_apply_transformations s (Some (Some cfg)) h
        = (match out.1 with
           | Ok _ => Ok {| original_df := Some df; trans_df := Some df |}
           | Raise e => Raise e
           end, out.2)).
Proof.
  intros out. split; [apply apply_transformations_returns|].
  destruct (updates_only_apply_transformations df cfg h) as [Hd Hl].
  split; [exact Hd|]. split; [exact Hl|].
  intros s Hs. unfold on_apply_transformations. rewrite Hs.
  unfold mbind. fold out.
  destruct (apply_transformations_returns df cfg h) as [E | [e E]];
    fold out in E; destruct out as [r h']; simpl in *; subst r; reflexivity.
Qed.

(** The sample session: after the call both variables name location 0,
    which now holds the mapped frame; the frame as uploaded is gone. *)
Lemma C10_in_place_witness :
  1%nat <> 0%nat
  /\ original_df sample_session = Some 0%nat
  /\ forall L : PyLib,
       on_apply_transformations sample_session (Some (Some sample_config)) sample_heap
       = (Ok {| original_df := Some 0%nat; trans_df := Some 0%nat |},
          {[ 0%nat := sample_frame_mapped ]})
       /\ (apply_transformations 0%nat sample_config sample_heap).2 !! 1%nat
          = sample_heap !! 1%nat
       /\ sample_frame_mapped <> sample_frame.
Proof.
  split; [discriminate|]. split; [reflexivity|]. intros L.
  destruct (C10_apply_transformations_in_place 0%nat sample_config sample_heap L)
    as (_ & _ & Hl & Hs).
  split; [|split].
  - rewrite (Hs sample_session eq_refl).
    unfold sample_config.
    rewrite (apply_transformations_text_map sample_heap 0%nat sample_frame "a"
               [CStr "x"; CStr "y"] {[ "x" := CStr "X" ]}
               eq_refl eq_refl text_values_sample eq_refl).
    reflexivity.
  - apply Hl. discriminate.
  - discriminate.
Defined.

(** * Further properties of the code *)

(** ** Strings *)

Lemma length_append (a b : string) :
  String.length (a ++ b) = (String.length a + String.length b)%nat.
Proof.
  induction a as [|x a IH]; [reflexivity|]. rewrite append_cons. cbn.
  now rewrite IH.
Qed.

(** A run of non-whitespace characters is read into the current token. *)
Lemma split_from_token cur t s :
  forallb (fun c => negb (PyStr.is_space c)) (list_ascii_of_string t) = true ->
  PyStr.split_from cur (t ++ s) = PyStr.split_from (cur ++ t) s.
Proof.
  revert cur. induction t as [|c t IH]; intros cur Ht.
  - now rewrite append_nil_r.
  - simpl in Ht. apply andb_prop in Ht as [Hc Ht].
    rewrite append_cons. cbn [PyStr.split_from].
    destruct (PyStr.is_space c); [discriminate|].
    rewrite (IH _ Ht), append_assoc. reflexivity.
Qed.

(** Joining tokens with single spaces and splitting again gives the tokens
    back. *)
Lemma split_join tokens :
  Forall is_token tokens -> PyStr.split (PyStr.join " " tokens) = tokens.
Proof.
  unfold PyStr.split. induction 1 as [|t rest [Hne Ht] _ IH]; [reflexivity|].
  destruct rest as [|t' rest].
  - cbn [PyStr.join]. rewrite <- (append_nil_r t) at 1.
    rewrite (split_from_token "" t "" Ht). change ("" ++ t) with t.
    cbn [PyStr.split_from].
    destruct (String.eqb_spec t ""); [contradiction | reflexivity].
  - change (PyStr.join " " (t :: t' :: rest))
      with (t ++ String " " (PyStr.join " " (t' :: rest))).
    rewrite (split_from_token "" t _ Ht). cbn [PyStr.split_from].
    change (PyStr.is_space " ") with true. cbn iota.
    change ("" ++ t) with t.
    destruct (String.eqb_spec t ""); [contradiction|]. now rewrite IH.
Qed.

Lemma is_token_quote_identifier t : is_token t -> is_token (quote_identifier t).
Proof.
  intros [Hne Ht]. unfold quote_identifier.
  destruct (is_quoted t); [now split|]. cbn [negb]. split; [discriminate|].
  unfold quoted. cbn [list_ascii_of_string forallb].
  change (PyStr.is_space dquote) with false. cbn [negb andb].
  rewrite list_ascii_of_string_app, forallb_app, remove_char_filter.
  apply andb_true_intro. split; [|reflexivity].
  apply forallb_forall. intros c Hc. apply filter_In in Hc as [Hc _].
  now apply (proj1 (forallb_forall _ _) Ht).
Qed.

Lemma process_parts_tokens previous_word tokens :
  Forall is_token tokens -> Forall is_token (process_parts previous_word tokens).
Proof.
  intros H. revert previous_word.
  induction H as [|t rest Ht _ IH]; intros p; cbn [process_parts]; constructor.
  - destruct (follows_keyword p); [now apply is_token_quote_identifier | exact Ht].
  - apply IH.
Qed.

(** A second pass over processed words changes nothing. *)
Lemma process_parts_idempotent previous_word tokens :
  process_parts previous_word (process_parts previous_word tokens)
  = process_parts previous_word tokens.
Proof.
  revert previous_word. induction tokens as [|t rest IH]; intros p; [reflexivity|].
  cbn [process_parts]. destruct (follows_keyword p) eqn:E.
  - assert (Hq : quote_identifier (quote_identifier t) = quote_identifier t).
    { unfold quote_identifier at 1. now rewrite is_quoted_quote_identifier. }
    rewrite Hq. f_equal. apply IH.
  - f_equal. apply IH.
Qed.

Lemma process_parts_same_length previous_word tokens :
  length (process_parts previous_word tokens) = length tokens.
Proof.
  revert previous_word. induction tokens as [|t rest IH]; intros p;
    [reflexivity|]. cbn [process_parts length]. now rewrite IH.
Qed.

Lemma process_parts_no_keyword previous_word tokens :
  follows_keyword previous_word = false ->
  forallb (fun t => negb (follows_keyword t)) (removelast tokens) = true ->
  process_parts previous_word tokens = tokens.
Proof.
  revert previous_word. induction tokens as [|t rest IH]; intros p Hp Hk;
    [reflexivity|].
  cbn [process_parts]. rewrite Hp. f_equal.
  destruct rest as [|t' rest]; [reflexivity|].
  cbn [removelast forallb] in Hk. apply andb_prop in Hk as [Ht Hk].
  apply IH; [now destruct (follows_keyword t) | exact Hk].
Qed.

Lemma split_from_whitespace s :
  forallb PyStr.is_space (list_ascii_of_string s) = true ->
  PyStr.split_from "" s = [].
Proof.
  induction s as [|c s IH]; [reflexivity|]. cbn [list_ascii_of_string forallb].
  intros H. apply andb_prop in H as [Hc Hs]. cbn [PyStr.split_from].
  rewrite Hc. cbn. now apply IH.
Qed.

(** ** The query preprocessor, further *)

(** X1: the output of [process_sql_query] is in normal form.  Split on
    whitespace it gives exactly the processed tokens, as many as the query
    has, and it is these tokens joined by single spaces: runs of whitespace
    of the query, wherever they stand, come out as one space, and leading and
    trailing whitespace is dropped. *)
Theorem X1_process_sql_query_normal_form (sql_query : string) :
  PyStr.split (process_sql_query sql_query)
  = process_parts "" (PyStr.split sql_query)
  /\ length (PyStr.split (process_sql_query sql_query))
     = length (PyStr.split sql_query)
  /\ PyStr.join " " (PyStr.split (process_sql_query sql_query))
     = process_sql_query sql_query.
Proof.
  assert (E : PyStr.split (process_sql_query sql_query)
              = process_parts "" (PyStr.split sql_query)).
  { unfold process_sql_query. apply split_join, process_parts_tokens.
    apply split_from_tokens. now left. }
  split; [exact E|]. split.
  - rewrite E. apply process_parts_same_length.
  - now rewrite E.
Qed.

(** X2: [process_sql_query] is idempotent: a query that went through it
    once comes back unchanged from a second pass. *)
Theorem X2_process_sql_query_idempotent (sql_query : string) :
  process_sql_query (process_sql_query sql_query) = process_sql_query sql_query.
Proof.
  unfold process_sql_query at 1.
  assert (E : PyStr.split (process_sql_query sql_query)
              = process_parts "" (PyStr.split sql_query)).
  { unfold process_sql_query. apply split_join, process_parts_tokens.
    apply split_from_tokens. now left. }
  rewrite E, process_parts_idempotent. reflexivity.
Qed.

(** X3: a query in which no token but possibly the last is FROM or JOIN is
    only normalized in its whitespace, and a query of whitespace alone, the
    empty one included, comes out empty. *)
Theorem X3_process_sql_query_without_keywords (sql_query : string) :
  (forallb (fun t => negb (follows_keyword t)) (removelast (PyStr.split sql_query))
   = true ->
   process_sql_query sql_query = PyStr.join " " (PyStr.split sql_query))
  /\ (forallb PyStr.is_space (list_ascii_of_string sql_query) = true ->
      process_sql_query sql_query = "").
Proof.
  split; intros H; unfold process_sql_query.
  - now rewrite process_parts_no_keyword.
  - unfold PyStr.split. now rewrite split_from_whitespace.
Qed.

(** A query that ends in FROM and has no other keyword, and a query of
    blanks and a tab. *)
Lemma X3_process_sql_query_witness :
  (forallb (fun t => negb (follows_keyword t))
     (removelast (PyStr.split "SELECT   1  FROM ")) = true
   /\ process_sql_query "SELECT   1  FROM " = "SELECT 1 FROM")
  /\ (forallb PyStr.is_space
        (list_ascii_of_string (String " " (String (ascii_of_nat 9) " "))) = true
      /\ process_sql_query (String " " (String (ascii_of_nat 9) " ")) = "").
Proof.
  split; (split; [reflexivity|]).
  - rewrite (proj1 (X3_process_sql_query_without_keywords "SELECT   1  FROM ")
               eq_refl).
    reflexivity.
  - exact (proj2 (X3_process_sql_query_without_keywords
                    (String " " (String (ascii_of_nat 9) " "))) eq_refl).
Defined.

(** ** [remove_incomplete_sentence] *)

(** The two cases of [split_sentences] on a non-empty text: the separator
    (a period and a blank) is at the front, or it is not. *)
Lemma split_sentences_separator cur r :
  split_sentences cur (String "." (String " " r)) = cur :: split_sentences "" r.
Proof. reflexivity. Qed.

Lemma split_sentences_other cur c r :
  (c <> "."%char \/ PyStr.startswith_char " " r = false) ->
  split_sentences cur (String c r) = split_sentences (cur ++ String c "") r.
Proof.
  intros H. destruct (Ascii.eqb_spec c ".") as [->|Hc].
  - destruct H as [H|H]; [contradiction|].
    destruct r as [|d r]; [reflexivity|]. cbn in H.
    destruct d as [[] [] [] [] [] [] [] []]; try reflexivity. discriminate H.
  - destruct c as [[] [] [] [] [] [] [] []]; try reflexivity. now contradiction Hc.
Qed.

Lemma split_sentences_nonempty cur text : split_sentences cur text <> [].
Proof.
  remember (String.length text) as n eqn:Hn. revert cur text Hn.
  induction n as [n IH] using lt_wf_ind. intros cur text Hn.
  destruct text as [|c r]; [discriminate|].
  destruct (Ascii.eqb_spec c ".") as [->|Hc].
  - destruct (PyStr.startswith_char " " r) eqn:Hs.
    + destruct r as [|d r]; [discriminate|]. cbn in Hs.
      apply Ascii.eqb_eq in Hs. subst d. rewrite split_sentences_separator.
      discriminate.
    + rewrite split_sentences_other by now right.
      apply (IH (String.length r)); [subst n; cbn; lia | reflexivity].
  - rewrite split_sentences_other by now left.
    apply (IH (String.length r)); [subst n; cbn; lia | reflexivity].
Qed.

Lemma join_cons_nonempty sep p rest :
  rest <> [] -> PyStr.join sep (p :: rest) = p ++ sep ++ PyStr.join sep rest.
Proof. destruct rest; [contradiction | reflexivity]. Qed.

(** Splitting at the separator and joining with it gives the text back. *)
Lemma join_split_sentences cur text :
  PyStr.join ". " (split_sentences cur text) = cur ++ text.
Proof.
  remember (String.length text) as n eqn:Hn. revert cur text Hn.
  induction n as [n IH] using lt_wf_ind. intros cur text Hn.
  destruct text as [|c r]; [cbn; now rewrite append_nil_r|].
  assert (Hother : split_sentences cur (String c r)
                   = split_sentences (cur ++ String c "") r ->
                   PyStr.join ". " (split_sentences cur (String c r))
                   = cur ++ String c r).
  { intros ->. rewrite (IH (String.length r)) by (subst n; cbn; lia || reflexivity).
    now rewrite append_assoc. }
  destruct (Ascii.eqb_spec c ".") as [->|Hc].
  - destruct (PyStr.startswith_char " " r) eqn:Hs.
    + destruct r as [|d r]; [discriminate|]. cbn in Hs.
      apply Ascii.eqb_eq in Hs. subst d. rewrite split_sentences_separator.
      rewrite join_cons_nonempty by apply split_sentences_nonempty.
      rewrite (IH (String.length r)) by (subst n; cbn; lia || reflexivity).
      reflexivity.
    + apply Hother, split_sentences_other. now right.
  - apply Hother, split_sentences_other. now left.
Qed.

Lemma join_snoc sep init last :
  init <> [] ->
  PyStr.join sep (init ++ [last])%list = PyStr.join sep init ++ sep ++ last.
Proof.
  induction init as [|p init IH]; [contradiction|]. intros _.
  destruct init as [|q init].
  - reflexivity.
  - change ((p :: q :: init) ++ [last])%list
      with (p :: ((q :: init) ++ [last]))%list.
    rewrite join_cons_nonempty by discriminate.
    rewrite IH by discriminate.
    rewrite (join_cons_nonempty sep p (q :: init)) by discriminate.
    now rewrite !append_assoc.
Qed.

(** X4: a text that ends with a period comes back from
    [remove_incomplete_sentence] unchanged. *)
Theorem X4_remove_incomplete_sentence_complete (text : string) :
  PyStr.endswith_char "." text = true ->
  remove_incomplete_sentence text = text.
Proof.
  intros H. unfold remove_incomplete_sentence. rewrite H. cbn [negb].
  apply (join_split_sentences "" text).
Qed.

(** A text of two sentences, the last one closed by a period. *)
Lemma X4_remove_incomplete_sentence_witness :
  PyStr.endswith_char "." "One. Two." = true
  /\ remove_incomplete_sentence "One. Two." = "One. Two.".
Proof.
  split; [reflexivity|].
  exact (X4_remove_incomplete_sentence_complete "One. Two." eq_refl).
Defined.

(** The scan for the separator, one character on. *)
Lemma find_separator_cons c r :
  find_separator (String c r)
  = (Ascii.eqb c "." && PyStr.startswith_char " " r) || find_separator r.
Proof.
  destruct (Ascii.eqb_spec c ".") as [->|Hc].
  - destruct r as [|d r]; [reflexivity|]. cbn [PyStr.startswith_char andb].
    destruct (Ascii.eqb_spec d " ") as [->|Hd]; [reflexivity|].
    destruct d as [[] [] [] [] [] [] [] []]; try reflexivity. now contradiction Hd.
  - destruct c as [[] [] [] [] [] [] [] []]; try reflexivity. now contradiction Hc.
Qed.

Lemma find_separator_spec s : find_separator s = true <-> has_separator s.
Proof.
  split.
  - induction s as [|c r IH]; [discriminate|]. rewrite find_separator_cons.
    intros H. apply orb_prop in H as [H|H].
    + apply andb_prop in H as [Hc Hr]. apply Ascii.eqb_eq in Hc. subst c.
      destruct r as [|d r]; [discriminate|]. cbn in Hr.
      apply Ascii.eqb_eq in Hr. subst d. now exists "", r.
    + destruct (IH H) as (a & b & ->). now exists (String c a), b.
  - intros (a & b & ->). induction a as [|c a IH].
    + reflexivity.
    + rewrite append_cons, find_separator_cons, IH. apply orb_true_r.
Qed.

Lemma no_separator_spec s : find_separator s = false <-> ~ has_separator s.
Proof.
  rewrite <- find_separator_spec. now destruct (find_separator s).
Qed.

(** What was read before goes in front of the first piece. *)
Lemma split_sentences_cur cur text :
  split_sentences cur text
  = match split_sentences "" text with
    | p :: ps => (cur ++ p) :: ps
    | [] => [cur]
    end.
Proof.
  remember (String.length text) as n eqn:Hn. revert cur text Hn.
  induction n as [n IH] using lt_wf_ind. intros cur text Hn.
  destruct text as [|c r]; [cbn; now rewrite append_nil_r|].
  assert (Hother : (c <> "."%char \/ PyStr.startswith_char " " r = false) ->
            split_sentences cur (String c r)
            = match split_sentences "" (String c r) with
              | p :: ps => (cur ++ p) :: ps
              | [] => [cur]
              end).
  { intros H. rewrite !split_sentences_other by exact H.
    rewrite (IH (String.length r)) by (subst n; cbn; lia || reflexivity).
    rewrite (IH (String.length r) ltac:(subst n; cbn; lia) ("" ++ String c "") r)
      by reflexivity.
    destruct (split_sentences "" r) as [|p ps]; [reflexivity|].
    now rewrite append_assoc. }
  destruct (Ascii.eqb_spec c ".") as [->|Hc]; [|apply Hother; now left].
  destruct (PyStr.startswith_char " " r) eqn:Hs; [|apply Hother; now right].
  destruct r as [|d r]; [discriminate|]. cbn in Hs.
  apply Ascii.eqb_eq in Hs. subst d. rewrite !split_sentences_separator.
  now rewrite append_nil_r.
Qed.

(** The first piece is the beginning of the text. *)
Lemma split_sentences_first text p ps :
  split_sentences "" text = p :: ps -> exists rest, text = p ++ rest.
Proof.
  intros E. pose proof (join_split_sentences "" text) as Hj. rewrite E in Hj.
  change ("" ++ text) with text in Hj. destruct ps as [|q ps].
  - cbn [PyStr.join] in Hj. exists "". rewrite append_nil_r. now symmetry.
  - rewrite join_cons_nonempty in Hj by discriminate. eexists. symmetry.
    exact Hj.
Qed.

(** No piece holds a separator. *)
Lemma split_sentences_pieces text :
  Forall (fun p => find_separator p = false) (split_sentences "" text).
Proof.
  remember (String.length text) as n eqn:Hn. revert text Hn.
  induction n as [n IH] using lt_wf_ind. intros text Hn.
  destruct text as [|c r]; [repeat constructor|].
  assert (Hother : (c <> "."%char \/ PyStr.startswith_char " " r = false) ->
            Forall (fun p => find_separator p = false)
              (split_sentences "" (String c r))).
  { intros H. rewrite split_sentences_other by exact H.
    rewrite split_sentences_cur.
    pose proof (IH (String.length r) ltac:(subst n; cbn; lia) r eq_refl) as Hr.
    destruct (split_sentences "" r) as [|p ps] eqn:E;
      [now destruct (split_sentences_nonempty "" r)|].
    apply Forall_cons in Hr as [Hp Hps]. constructor; [|exact Hps].
    change (("" ++ String c "") ++ p) with (String c p).
    rewrite find_separator_cons, Hp, orb_false_r.
    apply andb_false_iff. destruct H as [H|H].
    - left. now apply Ascii.eqb_neq.
    - right. destruct (split_sentences_first r p ps E) as [rest ->].
      destruct p as [|d p]; [reflexivity | exact H]. }
  destruct (Ascii.eqb_spec c ".") as [->|Hc]; [|apply Hother; now left].
  destruct (PyStr.startswith_char " " r) eqn:Hs; [|apply Hother; now right].
  destruct r as [|d r]; [discriminate|]. cbn in Hs.
  apply Ascii.eqb_eq in Hs. subst d. rewrite split_sentences_separator.
  constructor; [reflexivity|].
  apply (IH (String.length r)); [subst n; cbn; lia | reflexivity].
Qed.

(** X5: a text that does not end with a period is cut at its last
    separator (a period followed by a blank): the result is what stands
    before a separator after which no separator comes, so the period itself
    goes too; and a text without a separator comes out empty.  The result
    is a prefix of the text, a proper one unless the text is empty. *)
Theorem X5_remove_incomplete_sentence_cut (text : string) :
  PyStr.endswith_char "." text = false ->
  (has_separator text ->
     exists last,
       text = remove_incomplete_sentence text ++ ". " ++ last
       /\ ~ has_separator last)
  /\ (~ has_separator text -> remove_incomplete_sentence text = "")
  /\ (exists rest, text = remove_incomplete_sentence text ++ rest)
  /\ (text <> "" ->
      (String.length (remove_incomplete_sentence text) < String.length text)%nat).
Proof.
  intros H. unfold remove_incomplete_sentence. rewrite H. cbn [negb].
  pose proof (join_split_sentences "" text) as Hj.
  pose proof (split_sentences_pieces text) as Hp.
  destruct (exists_last (split_sentences_nonempty "" text)) as (init & last & E).
  rewrite E in Hj, Hp |- *. rewrite removelast_last.
  change ("" ++ text) with text in Hj.
  apply Forall_app in Hp as [_ Hp]. apply Forall_cons in Hp as [Hlast _].
  apply no_separator_spec in Hlast.
  destruct init as [|p init].
  - cbn in Hj. subst last. cbn [PyStr.join]. split; [contradiction|].
    split; [reflexivity|]. split.
    + now exists text.
    + intros Hne. destruct text; [contradiction | cbn; lia].
  - rewrite join_snoc in Hj by discriminate.
    set (r := PyStr.join ". " (p :: init)) in *. split; [|split; [|split]].
    + intros _. now exists last.
    + intros Hn. exfalso. apply Hn. now exists r, last.
    + now exists (". " ++ last).
    + intros _. rewrite <- Hj. rewrite !length_append. cbn. lia.
Qed.

(** A text whose third sentence is unfinished, and a text without any
    separator. *)
Lemma X5_remove_incomplete_sentence_witness :
  (PyStr.endswith_char "." "One. Two. Thr" = false
   /\ has_separator "One. Two. Thr"
   /\ exists last,
        "One. Two. Thr" = remove_incomplete_sentence "One. Two. Thr" ++ ". " ++ last
        /\ ~ has_separator last)
  /\ (PyStr.endswith_char "." "no period here" = false
      /\ ~ has_separator "no period here"
      /\ remove_incomplete_sentence "no period here" = "").
Proof.
  assert (H1 : has_separator "One. Two. Thr") by now exists "One", "Two. Thr".
  assert (H2 : ~ has_separator "no period here")
    by now apply no_separator_spec.
  split.
  - split; [reflexivity|]. split; [exact H1|].
    exact (proj1 (X5_remove_incomplete_sentence_cut "One. Two. Thr" eq_refl) H1).
  - split; [reflexivity|]. split; [exact H2|].
    exact (proj1 (proj2 (X5_remove_incomplete_sentence_cut "no period here" eq_refl))
             H2).
Defined.

(** ** Printing and parsing integers *)

Lemma all_digits_cons c r :
  all_digits (String c r) = Builtins.is_digit c && all_digits r.
Proof. reflexivity. Qed.

(** On a string of digits alone [parse_digits] counts them and gives
    their value. *)
Lemma parse_digits_all_digits s :
  all_digits s = true ->
  forall acc digits,
    Builtins.parse_digits acc true digits s
    = if (digits + String.length s <=? Builtins.max_str_digits)%nat
      then Some (decimal_value acc s) else None.
Proof.
  induction s as [|c r IH]; intros H acc n.
  - cbn [Builtins.parse_digits String.length decimal_value andb].
    now rewrite Nat.add_0_r.
  - rewrite all_digits_cons in H. apply andb_prop in H as [Hc Hr].
    cbn [Builtins.parse_digits String.length decimal_value]. rewrite Hc.
    rewrite (IH Hr). now rewrite Nat.add_succ_r.
Qed.

Lemma parse_digits_numeral s :
  all_digits s = true -> s <> "" ->
  Builtins.parse_digits 0 false 0 s
  = if (String.length s <=? Builtins.max_str_digits)%nat
    then Some (decimal_value 0 s) else None.
Proof.
  destruct s as [|c r]; [contradiction|]. intros H _.
  pose proof H as H'. rewrite all_digits_cons in H'.
  apply andb_prop in H' as [Hc Hr].
  cbn [Builtins.parse_digits decimal_value String.length]. rewrite Hc.
  now rewrite (parse_digits_all_digits r Hr).
Qed.

Lemma decimal_value_snoc acc s c :
  decimal_value acc (s ++ String c "")
  = 10 * decimal_value acc s + Builtins.digit_val c.
Proof.
  revert acc. induction s as [|d s IH]; intros acc; [reflexivity|].
  rewrite append_cons. cbn [decimal_value]. apply IH.
Qed.

Lemma all_digits_snoc s c :
  all_digits (s ++ String c "") = all_digits s && Builtins.is_digit c.
Proof.
  unfold all_digits. rewrite list_ascii_of_string_app, forallb_app. cbn.
  now rewrite andb_true_r.
Qed.

Lemma pretty_N_char_digit (x : N) :
  (x < 10)%N ->
  Builtins.is_digit (pretty_N_char x) = true
  /\ Builtins.digit_val (pretty_N_char x) = Z.of_N x.
Proof.
  intros H.
  assert (x = 0 \/ x = 1 \/ x = 2 \/ x = 3 \/ x = 4 \/ x = 5 \/ x = 6 \/ x = 7
          \/ x = 8 \/ x = 9)%N as Hx by lia.
  repeat (destruct Hx as [->|Hx]; [split; reflexivity|]). subst x.
  split; reflexivity.
Qed.

(** The digits are put in front of what is already there. *)
Lemma pretty_N_go_app (x : N) (s : string) :
  pretty_N_go x s = pretty_N_go x "" ++ s.
Proof.
  revert s. induction (N.lt_wf_0 x) as [x _ IH]. intros s.
  destruct (N.eq_dec x 0%N) as [->|Hx]; [reflexivity|].
  rewrite (pretty_N_go_step x s), (pretty_N_go_step x "") by lia.
  assert (Hlt : (x `div` 10 < x)%N) by (apply N.div_lt; lia).
  rewrite (IH _ Hlt (String _ s)), (IH _ Hlt (String _ "")).
  now rewrite append_assoc.
Qed.

Lemma pretty_N_go_snoc (x : N) :
  (0 < x)%N ->
  pretty_N_go x ""
  = pretty_N_go (x `div` 10) "" ++ String (pretty_N_char (x `mod` 10)) "".
Proof. intros H. rewrite pretty_N_go_step by exact H. apply pretty_N_go_app. Qed.

Lemma pretty_N_go_numeral (x : N) :
  all_digits (pretty_N_go x "") = true
  /\ decimal_value 0 (pretty_N_go x "") = Z.of_N x.
Proof.
  induction (N.lt_wf_0 x) as [x _ IH].
  destruct (N.eq_dec x 0%N) as [->|Hx]; [split; reflexivity|].
  rewrite pretty_N_go_snoc by lia.
  destruct (IH (x `div` 10)%N) as [Hd Hv]; [apply N.div_lt; lia|].
  destruct (pretty_N_char_digit (x `mod` 10)%N) as [Hc Hcv];
    [apply N.mod_lt; lia|].
  split.
  - now rewrite all_digits_snoc, Hd, Hc.
  - rewrite decimal_value_snoc, Hv, Hcv.
    rewrite (N.div_mod x 10) at 3 by lia. lia.
Qed.

Lemma pretty_N_go_nonempty (x : N) : (0 < x)%N -> pretty_N_go x "" <> "".
Proof.
  intros H. rewrite pretty_N_go_snoc by exact H.
  destruct (pretty_N_go (x `div` 10) ""); discriminate.
Qed.

Lemma pretty_positive_go (p : positive) :
  pretty (Z.pos p) = pretty_N_go (N.pos p) "".
Proof. reflexivity. Qed.

(** The length of a numeral tells the size of the number. *)
Lemma pretty_N_go_short (k : nat) :
  forall x : N, (x < 10 ^ N.of_nat k)%N ->
    (String.length (pretty_N_go x "") <= k)%nat.
Proof.
  induction k as [|k IH]; intros x Hx.
  - change (N.of_nat 0) with 0%N in Hx. rewrite N.pow_0_r in Hx.
    assert (x = 0%N) as -> by lia. rewrite pretty_N_go_0. cbn. lia.
  - destruct (N.eq_dec x 0%N) as [->|Hne];
      [rewrite pretty_N_go_0; cbn; lia|].
    rewrite pretty_N_go_snoc by lia. rewrite length_append. cbn [String.length].
    assert (Hd : (x `div` 10 < 10 ^ N.of_nat k)%N).
    { apply N.Div0.div_lt_upper_bound.
      rewrite Nat2N.inj_succ, N.pow_succ_r' in Hx. exact Hx. }
    specialize (IH _ Hd). lia.
Qed.

Lemma pretty_N_go_long (k : nat) :
  forall x : N, (10 ^ N.of_nat k <= x)%N ->
    (k < String.length (pretty_N_go x ""))%nat.
Proof.
  induction k as [|k IH]; intros x Hx.
  - change (N.of_nat 0) with 0%N in Hx. rewrite N.pow_0_r in Hx.
    assert (H0 : (0 < x)%N) by lia.
    destruct (pretty_N_go x "") eqn:E; [|cbn; lia].
    now apply pretty_N_go_nonempty in E.
  - assert (Hp : (0 < 10 ^ N.of_nat (S k))%N)
      by (apply N.neq_0_lt_0, N.pow_nonzero; lia).
    rewrite pretty_N_go_snoc by lia. rewrite length_append. cbn [String.length].
    assert (Hd : (10 ^ N.of_nat k <= x `div` 10)%N).
    { apply N.div_le_lower_bound; [lia|].
      rewrite Nat2N.inj_succ, N.pow_succ_r' in Hx. exact Hx. }
    specialize (IH _ Hd). lia.
Qed.

Lemma numeral_length (z : Z) (k : nat) :
  (1 <= k)%nat ->
  (String.length (Builtins.str_of_int (Z.abs z)) <= k)%nat
  <-> Z.abs z < 10 ^ Z.of_nat k.
Proof.
  intros Hk. unfold Builtins.str_of_int.
  assert (Hpow : Z.of_N (10 ^ N.of_nat k) = 10 ^ Z.of_nat k).
  { rewrite N2Z.inj_pow. now rewrite nat_N_Z. }
  destruct (Z.abs z) as [|p|p] eqn:E; [| |lia].
  - split; [intros _; apply Z.pow_pos_nonneg; lia | intros _; cbn; lia].
  - rewrite pretty_positive_go. rewrite <- Hpow. split.
    + intros Hl. destruct (N.lt_ge_cases (N.pos p) (10 ^ N.of_nat k)) as [Hlt|Hge].
      * lia.
      * apply pretty_N_go_long in Hge. lia.
    + intros Hlt. apply pretty_N_go_short. lia.
Qed.

(** A numeral holds digits only, after its sign. *)
Lemma all_digits_no_blank s : all_digits s = true -> no_blank s.
Proof.
  unfold all_digits, no_blank. intros H. apply forallb_forall. intros c Hc.
  destruct (is_digit_chars c (proj1 (forallb_forall _ _) H c Hc)) as (-> & _).
  reflexivity.
Qed.

Lemma skip_no_blank s :
  no_blank s -> Builtins.skip_trailing (Builtins.skip_leading s) = s.
Proof.
  intros H. assert (E : Builtins.skip_leading s = s).
  { destruct s as [|c r]; [reflexivity|]. apply no_blank_cons in H as [Hc _].
    cbn [Builtins.skip_leading]. now rewrite Hc. }
  rewrite E. now apply skip_trailing_no_blank.
Qed.

(** Parsing the numeral of an integer gives the integer back, unless the
    numeral has more digits than the interpreter converts. *)
Lemma int_of_string_str_of_int (z : Z) :
  Builtins.int_of_string (Builtins.str_of_int z)
  = if (String.length (Builtins.str_of_int (Z.abs z)) <=? Builtins.max_str_digits)%nat
    then Some z else None.
Proof.
  rewrite int_of_string_unfold. cbn zeta. unfold Builtins.str_of_int.
  destruct z as [|p|p].
  - reflexivity.
  - change (Z.abs (Z.pos p)) with (Z.pos p). rewrite !pretty_positive_go.
    destruct (pretty_N_go_numeral (N.pos p)) as [Hd Hv].
    pose proof (pretty_N_go_nonempty (N.pos p) ltac:(lia)) as Hne.
    rewrite skip_no_blank by now apply all_digits_no_blank.
    destruct (pretty_N_go (N.pos p) "") as [|c r] eqn:E; [contradiction|].
    assert (Hc : Builtins.is_digit c = true).
    { rewrite all_digits_cons in Hd. now apply andb_prop in Hd as [Hc _]. }
    destruct (is_digit_chars c Hc) as (_ & _ & -> & -> & _).
    rewrite parse_digits_numeral by (exact Hd || discriminate).
    now rewrite Hv.
  - change (Z.abs (Z.neg p)) with (Z.pos p). rewrite !pretty_positive_go.
    change (pretty (Z.neg p)) with (String "-" (pretty_N_go (N.pos p) "")).
    destruct (pretty_N_go_numeral (N.pos p)) as [Hd Hv].
    pose proof (pretty_N_go_nonempty (N.pos p) ltac:(lia)) as Hne.
    rewrite skip_no_blank
      by (apply no_blank_cons; split; [reflexivity | now apply all_digits_no_blank]).
    change (Ascii.eqb "-" "+") with false. change (Ascii.eqb "-" "-") with true.
    cbn iota. rewrite parse_digits_numeral by assumption. rewrite Hv.
    now destruct (_ <=? _)%nat.
Qed.

Lemma binary64_numerals : 2 ^ 1024 < 10 ^ Z.of_nat Builtins.max_str_digits.
Proof. vm_compute. reflexivity. Qed.

Lemma max_str_digits_positive : (1 <= Builtins.max_str_digits)%nat.
Proof. unfold Builtins.max_str_digits. lia. Qed.

Lemma str_of_int_no_dollar (z : Z) :
  PyStr.remove_char dollar (Builtins.str_of_int z) = Builtins.str_of_int z.
Proof.
  apply remove_char_id.
  assert (Hd : forall s, all_digits s = true -> ~ In dollar (list_ascii_of_string s)).
  { intros s Hs Hin. unfold all_digits in Hs.
    now pose proof (proj1 (forallb_forall _ _) Hs _ Hin). }
  unfold Builtins.str_of_int. destruct z as [|p|p].
  - cbn. intros [E|[]]. discriminate E.
  - rewrite pretty_positive_go. apply Hd, pretty_N_go_numeral.
  - change (pretty (Z.neg p)) with (String "-" (pretty_N_go (N.pos p) "")).
    cbn [list_ascii_of_string].
    intros [E|Hin]; [discriminate E|]. revert Hin. apply Hd, pretty_N_go_numeral.
Qed.

(** ** The normalizers, further *)

(** X6: whatever [remove_dollar_sign] returns is an int, and giving it a
    value it returned gives that value back: a column that went through it
    once goes through it again unchanged and without an exception. *)
Theorem X6_remove_dollar_sign_stable (v w : cell) :
  remove_dollar_sign v = Ok w ->
  (exists z, w = CInt z) /\ remove_dollar_sign w = Ok w.
Proof.
  intros H.
  assert (Hz : exists z, w = CInt z).
  { unfold remove_dollar_sign, Builtins.int in H.
    destruct v as [|b|z|f|s].
    - discriminate.
    - injection H as <-. eauto.
    - injection H as <-. eauto.
    - destruct (Builtins.int_of_float f); [|discriminate].
      cbn in H. injection H as <-. eauto.
    - destruct (Builtins.int_of_string _); [|discriminate].
      injection H as <-. eauto. }
  split; [exact Hz|]. destruct Hz as [z ->]. reflexivity.
Qed.

(** The text of a dollar amount. *)
Lemma X6_remove_dollar_sign_witness :
  remove_dollar_sign (CStr "$1_250") = Ok (CInt 1250)
  /\ remove_dollar_sign (CInt 1250) = Ok (CInt 1250).
Proof.
  split; [reflexivity|].
  exact (proj2 (X6_remove_dollar_sign_stable (CStr "$1_250") (CInt 1250) eq_refl)).
Defined.

(** X7: [remove_dollar_sign] reads back what [str] prints of an int: a text
    that, without its dollar signs, is the decimal numeral of an integer is
    converted to that integer, so for the numeral with a dollar sign in
    front, whatever the sign of the integer, as long as it has no more
    digits than the interpreter converts; on the numeral of a larger
    integer the function raises [ValueError]. *)
Theorem X7_remove_dollar_sign_reads_numerals (z : Z) :
  (Z.abs z < 10 ^ Z.of_nat Builtins.max_str_digits ->
     remove_dollar_sign (CStr (String dollar (Builtins.str_of_int z))) = Ok (CInt z)
     /\ (forall s, PyStr.remove_char dollar s = Builtins.str_of_int z ->
           remove_dollar_sign (CStr s) = Ok (CInt z)))
  /\ (10 ^ Z.of_nat Builtins.max_str_digits <= Z.abs z ->
      forall s, PyStr.remove_char dollar s = Builtins.str_of_int z ->
        remove_dollar_sign (CStr s) = Raise ValueError).
Proof.
  pose proof (numeral_length z _ max_str_digits_positive) as Hlen.
  assert (H : forall s, PyStr.remove_char dollar s = Builtins.str_of_int z ->
                remove_dollar_sign (CStr s)
                = if (String.length (Builtins.str_of_int (Z.abs z))
                      <=? Builtins.max_str_digits)%nat
                  then Ok (CInt z) else Raise ValueError).
  { intros s E. unfold remove_dollar_sign, Builtins.int.
    rewrite E, int_of_string_str_of_int. now destruct (_ <=? _)%nat. }
  split.
  - intros Hz. apply Hlen in Hz. apply Nat.leb_le in Hz.
    assert (H' : forall s, PyStr.remove_char dollar s = Builtins.str_of_int z ->
                   remove_dollar_sign (CStr s) = Ok (CInt z)).
    { intros s E. rewrite (H s E). now rewrite Hz. }
    split; [|exact H']. apply H'. cbn [PyStr.remove_char].
    change (Ascii.eqb dollar dollar) with true. cbn iota.
    apply str_of_int_no_dollar.
  - intros Hz s E. rewrite (H s E).
    destruct (Nat.leb_spec (String.length (Builtins.str_of_int (Z.abs z)))
                Builtins.max_str_digits) as [Hl|Hl]; [|reflexivity].
    apply Hlen in Hl. lia.
Qed.

(** A negative amount with the dollar sign after the minus sign, and a
    one followed by as many zeros as the interpreter converts digits. *)
Lemma X7_remove_dollar_sign_witness :
  (Z.abs (-12) < 10 ^ Z.of_nat Builtins.max_str_digits
   /\ PyStr.remove_char dollar "-$12" = Builtins.str_of_int (-12)
   /\ remove_dollar_sign (CStr "-$12") = Ok (CInt (-12)))
  /\ (10 ^ Z.of_nat Builtins.max_str_digits
      <= Z.abs (10 ^ Z.of_nat Builtins.max_str_digits)
      /\ remove_dollar_sign
           (CStr (Builtins.str_of_int (10 ^ Z.of_nat Builtins.max_str_digits)))
         = Raise ValueError).
Proof.
  assert (H1 : Z.abs (-12) < 10 ^ Z.of_nat Builtins.max_str_digits)
    by (vm_compute; reflexivity).
  assert (H2 : 10 ^ Z.of_nat Builtins.max_str_digits
               <= Z.abs (10 ^ Z.of_nat Builtins.max_str_digits))
    by (rewrite Z.abs_eq by (apply Z.pow_nonneg; lia); apply Z.le_refl).
  split.
  - split; [exact H1|]. split; [reflexivity|].
    exact (proj2 (proj1 (X7_remove_dollar_sign_reads_numerals (-12)) H1)
             "-$12" eq_refl).
  - split; [exact H2|].
    apply (proj2 (X7_remove_dollar_sign_reads_numerals
                    (10 ^ Z.of_nat Builtins.max_str_digits)) H2).
    apply str_of_int_no_dollar.
Defined.

Lemma int_of_float_integral sg m e :
  Builtins.is_integer (S754_finite sg m e) = true ->
  exists a, Builtins.int_of_float (S754_finite sg m e)
            = Ok (if sg then - a else a)
            /\ (0 <= e -> a = Z.pos m * 2 ^ e)
            /\ (e < 0 -> a * 2 ^ (- e) = Z.pos m).
Proof.
  intros H. cbn [Builtins.is_integer] in H. cbn [Builtins.int_of_float].
  destruct (Z.leb_spec 0 e) as [He|He].
  - exists (Z.pos m * 2 ^ e). split; [reflexivity|]. split; [reflexivity | lia].
  - exists (Z.pos m / 2 ^ (- e)). split; [reflexivity|]. split; [lia|].
    intros _. cbn [orb] in H. apply Z.eqb_eq in H.
    assert (Hp : 0 < 2 ^ (- e)) by (apply Z.pow_pos_nonneg; lia).
    pose proof (Z.div_mod (Z.pos m) (2 ^ (- e)) ltac:(lia)) as Hdm.
    rewrite H in Hdm. lia.
Qed.

(** X8: on a float with an integral value, below [2^1024] in size as the
    binary64 values are, [process_column] loses nothing: the label it
    returns is the numeral of exactly the value of the float, with no
    rounding, and [remove_dollar_sign] reads from that label the same
    integer that it computes from the float itself. *)
Theorem X8_process_column_exact (sg : bool) (m : positive) (e : Z) :
  Builtins.is_integer (S754_finite sg m e) = true ->
  Z.pos m < 2 ^ (1024 - e) ->
  forall L : PyLib,
  exists a,
    (0 <= e -> a = Z.pos m * 2 ^ e)
    /\ (e < 0 -> a * 2 ^ (- e) = Z.pos m)
    /\ process_column (CFloat (S754_finite sg m e))
       = Ok (CStr (Builtins.str_of_int (if sg then - a else a)))
    /\ remove_dollar_sign (CFloat (S754_finite sg m e))
       = Ok (CInt (if sg then - a else a))
    /\ rbind (process_column (CFloat (S754_finite sg m e))) remove_dollar_sign
       = Ok (CInt (if sg then - a else a)).
Proof.
  intros H Hm L. destruct (int_of_float_integral sg m e H) as (a & Hi & H0 & H1).
  exists a. split; [exact H0|]. split; [exact H1|].
  assert (Ha : 0 <= a < 2 ^ 1024).
  { destruct (Z.leb_spec 0 e) as [He|He].
    - rewrite (H0 He).
      assert (e <= 1024).
      { destruct (Z.le_gt_cases e 1024) as [|Hgt]; [assumption|].
        rewrite Z.pow_neg_r in Hm by lia. lia. }
      assert (E : 2 ^ 1024 = 2 ^ (1024 - e) * 2 ^ e).
      { rewrite <- Z.pow_add_r by lia. f_equal; lia. }
      rewrite E.
      assert (0 < 2 ^ e) by (apply Z.pow_pos_nonneg; lia). nia.
    - specialize (H1 He).
      assert (Hp : 0 < 2 ^ (- e)) by (apply Z.pow_pos_nonneg; lia).
      assert (E : 2 ^ (1024 - e) = 2 ^ 1024 * 2 ^ (- e)).
      { rewrite <- Z.pow_add_r by lia. f_equal; lia. }
      rewrite E in Hm. nia. }
  assert (Hl : (String.length (Builtins.str_of_int (Z.abs (if sg then - a else a)))
                <=? Builtins.max_str_digits)%nat = true).
  { apply Nat.leb_le. apply numeral_length; [apply max_str_digits_positive|].
    pose proof binary64_numerals. destruct sg; lia. }
  assert (Hp : process_column (CFloat (S754_finite sg m e))
               = Ok (CStr (Builtins.str_of_int (if sg then - a else a)))).
  { unfold process_column. cbn [Builtins.isna call_is_integer rbind].
    rewrite H. cbn [Builtins.int]. rewrite Hi. cbn [rbind str].
    unfold Builtins.str_of_int_limited. now rewrite Hl. }
  split; [exact Hp|]. split.
  - unfold remove_dollar_sign. cbn [Builtins.int]. now rewrite Hi.
  - rewrite Hp. cbn [rbind]. unfold remove_dollar_sign, Builtins.int.
    now rewrite str_of_int_no_dollar, int_of_string_str_of_int, Hl.
Qed.

(** The float -12.0, as [-3 * 2^2] and as [-96 * 2^-3]. *)
Lemma X8_process_column_witness :
  (Builtins.is_integer (S754_finite true 3 2) = true
   /\ 3 < 2 ^ (1024 - 2)
   /\ forall L : PyLib,
        process_column (CFloat (S754_finite true 3 2)) = Ok (CStr "-12"))
  /\ (Builtins.is_integer (S754_finite true 96 (-3)) = true
      /\ 96 < 2 ^ (1024 - -3)
      /\ forall L : PyLib,
           rbind (process_column (CFloat (S754_finite true 96 (-3))))
             remove_dollar_sign
           = Ok (CInt (-12))).
Proof.
  assert (H1 : 3 < 2 ^ (1024 - 2)) by (vm_compute; reflexivity).
  assert (H2 : 96 < 2 ^ (1024 - -3)) by (vm_compute; reflexivity).
  split; (split; [reflexivity|]); (split; [assumption|]); intros L.
  - destruct (X8_process_column_exact true 3 2 eq_refl H1 L)
      as (a & H0 & _ & Hp & _).
    rewrite Hp, (H0 ltac:(lia)). reflexivity.
  - destruct (X8_process_column_exact true 96 (-3) eq_refl H2 L)
      as (a & _ & Ha & _ & _ & Hc).
    rewrite Hc. assert (a = 12) as -> by (specialize (Ha ltac:(lia)); lia).
    reflexivity.
Defined.

(** ** The engine and the shape of the frame *)

Create HintDb frame_shape.

Section Shape.
Context {L : PyLib}.

Lemma same_but_column_refl column fr : same_but_column column fr fr.
Proof. split; [reflexivity | intros; reflexivity]. Qed.

Lemma same_but_column_trans column fr1 fr2 fr3 :
  same_but_column column fr1 fr2 -> same_but_column column fr2 fr3 ->
  same_but_column column fr1 fr3.
Proof.
  intros [Hc1 Ho1] [Hc2 Ho2]. split.
  - now rewrite Hc2.
  - intros other Hne. rewrite (Ho2 other Hne). now apply Ho1.
Qed.

Lemma touches_pure {A} df column (m : M A) :
  (forall h, (m h).2 = h) -> touches_only_column df column m.
Proof.
  intros Hm h fr H _. exists fr. rewrite Hm. split; [exact H|].
  apply same_but_column_refl.
Qed.

Lemma touches_bind {A B} df column (m : M A) (k : A -> M B) :
  touches_only_column df column m ->
  (forall a, touches_only_column df column (k a)) ->
  touches_only_column df column (mbind m k).
Proof.
  intros Hm Hk h fr H Hc. unfold mbind.
  destruct (Hm h fr H Hc) as (fr1 & H1 & S1).
  destruct (m h) as [[a|e] h1]; cbn in H1.
  - assert (Hc1 : column ∈ columns fr1) by (now rewrite (proj1 S1)).
    destruct (Hk a h1 fr1 H1 Hc1) as (fr2 & H2 & S2).
    exists fr2. split; [exact H2|]. now apply (same_but_column_trans _ _ fr1).
  - exists fr1. now split.
Qed.

Lemma touches_read_frame df column : touches_only_column df column (read_frame df).
Proof.
  apply touches_pure. intros h. unfold read_frame. now destruct (h !! df).
Qed.

Lemma touches_getitem df column c : touches_only_column df column (getitem df c).
Proof.
  apply touches_bind; [apply touches_read_frame|].
  intros fr. apply touches_pure. intros h. now destruct (get_column c fr).
Qed.

Lemma touches_setitem df column s : touches_only_column df column (setitem df column s).
Proof.
  intros h fr H Hc. rewrite (setitem_ok h df fr column s H). cbn.
  exists (set_column column s fr). split; [apply lookup_insert_eq|]. split.
  - now apply columns_set_column.
  - intros other Hne. now apply get_set_column_ne.
Qed.

Lemma touches_st_warning df column msg : touches_only_column df column (st_warning msg).
Proof. apply touches_pure. intros h. now rewrite st_warning_raises. Qed.

Lemma touches_dict_getitem {V} df column (d : gmap string V) key :
  touches_only_column df column (dict_getitem d key).
Proof.
  apply touches_pure. intros h. unfold dict_getitem. now destruct (d !! key).
Qed.

#[local] Hint Resolve touches_getitem touches_setitem touches_st_warning
  touches_dict_getitem : frame_shape.

Lemma touches_transform_column df column t :
  touches_only_column df column (transform_column df column t).
Proof.
  unfold transform_column.
  repeat first
    [ solve [auto with frame_shape]
    | apply touches_bind; [|intros ?]
    | now apply touches_pure
    | match goal with
      | |- touches_only_column _ _ (match ?x with _ => _ end) => destruct x
      | |- touches_only_column _ _ (if ?x then _ else _) => destruct x
      end ].
Qed.

(** Whatever the configuration and however the run ends, the frame keeps
    its columns, and the columns that the configuration does not name keep
    their cells. *)
Lemma apply_transformations_shape df (cfg : config) (h : heap) fr :
  h !! df = Some fr ->
  exists fr', (apply_transformations df cfg h).2 !! df = Some fr'
    /\ columns fr' = columns fr
    /\ forall other, other ∉ cfg.*1 -> get_column other fr' = get_column other fr.
Proof.
  revert h fr. induction cfg as [|[column t] rest IH]; intros h fr H.
  - exists fr. now split.
  - destruct (decide (column ∈ columns fr)) as [Hc|Hc].
    + rewrite (apply_transformations_cons h df fr column t rest H Hc).
      destruct (touches_transform_column df column t h fr H Hc)
        as (fr1 & H1 & Hc1 & Ho1).
      destruct (transform_column df column t h) as [[[]|e] h1]; cbn in H1.
      * destruct (IH h1 fr1 H1) as (fr2 & H2 & Hc2 & Ho2).
        exists fr2. split; [exact H2|]. split; [now rewrite Hc2|].
        intros other Hn. cbn in Hn. apply not_elem_of_cons in Hn as [Hne Hn].
        now rewrite (Ho2 other Hn), (Ho1 other Hne).
      * exists fr1. split; [exact H1|]. split; [exact Hc1|].
        intros other Hn. cbn in Hn. apply not_elem_of_cons in Hn as [Hne _].
        now apply Ho1.
    + rewrite (apply_transformations_missing_column h df fr column t rest H Hc).
      exists fr. now split.
Qed.

End Shape.

(** X9: [apply_transformations] never adds, drops, renames or reorders a
    column: whatever the configuration, and whether the call returns or
    raises, the frame has the same column names in the same order after the
    call as before. *)
Theorem X9_apply_transformations_keeps_columns
    (df : loc) (cfg : config) (h : heap) (fr : frame) :
  h !! df = Some fr ->
  forall L : PyLib,
  exists fr', (apply_transformations df cfg h).2 !! df = Some fr'
              /\ columns fr' = columns fr.
Proof.
  intros H L. destruct (apply_transformations_shape df cfg h fr H)
    as (fr' & H' & Hc & _).
  now exists fr'.
Qed.

(** The sample frame under a configuration that raises at its second item. *)
Lemma X9_keeps_columns_witness :
  sample_heap !! 0%nat = Some sample_frame
  /\ forall L : PyLib,
     exists fr',
       (apply_transformations 0%nat sample_config_unknown sample_heap).2 !! 0%nat
       = Some fr'
       /\ columns fr' = ["a"; "b"].
Proof.
  split; [reflexivity|]. intros L.
  exact (X9_apply_transformations_keeps_columns 0%nat sample_config_unknown
           sample_heap sample_frame eq_refl L).
Defined.

(** X10: [apply_transformations] changes only the columns that the
    configuration names: a column that is no key of the configuration has
    the same cells after the call as before, whether the call returns or
    raises. *)
Theorem X10_apply_transformations_spares_unconfigured
    (df : loc) (cfg : config) (h : heap) (fr : frame) (other : string) :
  h !! df = Some fr -> other ∉ cfg.*1 ->
  forall L : PyLib,
  exists fr', (apply_transformations df cfg h).2 !! df = Some fr'
              /\ get_column other fr' = get_column other fr.
Proof.
  intros H Hn L. destruct (apply_transformations_shape df cfg h fr H)
    as (fr' & H' & _ & Ho).
  exists fr'. split; [exact H' | now apply Ho].
Qed.

(** Column [b] of the sample frame, which the configuration does not name. *)
Lemma X10_spares_unconfigured_witness :
  sample_heap !! 0%nat = Some sample_frame
  /\ ("b" ∉ sample_config_unknown.*1)
  /\ forall L : PyLib,
     exists fr',
       (apply_transformations 0%nat sample_config_unknown sample_heap).2 !! 0%nat
       = Some fr'
       /\ get_column "b" fr' = Some [CStr "$5"; CStr "7"].
Proof.
  assert (Hn : "b" ∉ sample_config_unknown.*1).
  { cbn. rewrite !not_elem_of_cons. repeat split; try discriminate.
    apply not_elem_of_nil. }
  split; [reflexivity|]. split; [exact Hn|]. intros L.
  exact (X10_apply_transformations_spares_unconfigured 0%nat sample_config_unknown
           sample_heap sample_frame "b" eq_refl Hn L).
Defined.

(** ** The order and the failure of the operations on one column *)

Lemma set_column_twice column s1 s2 (fr : frame) :
  set_column column s2 (set_column column s1 fr) = set_column column s2 fr.
Proof.
  induction fr as [|[name old] rest IH]; cbn.
  - now rewrite String.eqb_refl.
  - destruct (String.eqb_spec name column) as [->|Hne]; cbn.
    + now rewrite String.eqb_refl.
    + destruct (String.eqb_spec name column); [contradiction|]. now rewrite IH.
Qed.

Lemma set_column_comm c1 c2 s1 s2 (fr : frame) :
  c1 <> c2 -> c1 ∈ columns fr -> c2 ∈ columns fr ->
  set_column c1 s1 (set_column c2 s2 fr) = set_column c2 s2 (set_column c1 s1 fr).
Proof.
  intros Hne. unfold columns.
  induction fr as [|[name old] rest IH]; intros H1 H2; [inversion H1|].
  cbn in H1, H2. apply elem_of_cons in H1, H2. cbn [set_column].
  destruct (String.eqb_spec name c2) as [E2|Hn2];
    destruct (String.eqb_spec name c1) as [E1|Hn1]; cbn [set_column].
  - congruence.
  - destruct (String.eqb_spec name c1); [contradiction|].
    destruct (String.eqb_spec name c2); [reflexivity | contradiction].
  - destruct (String.eqb_spec name c1); [|contradiction].
    destruct (String.eqb_spec name c2); [contradiction | reflexivity].
  - destruct (String.eqb_spec name c1); [contradiction|].
    destruct (String.eqb_spec name c2); [contradiction|].
    f_equal. apply IH.
    + destruct H1 as [E|H1]; [congruence | exact H1].
    + destruct H2 as [E|H2]; [congruence | exact H2].
Qed.

Section Order.
Context {L : PyLib}.

Lemma transform_column_map_then_apply (h : heap) df fr column s mapping name f :
  h !! df = Some fr -> get_column column fr = Some s ->
  globals !! name = Some (GFunction f) ->
  transform_column df column (map_then_apply mapping name) h
  = match rmap (call f) (map_step mapping s) with
    | Ok s' => (Ok tt, <[df := set_column column s' fr]> h)
    | Raise e =>
        (Raise e, <[df := set_column column (map_step mapping s) fr]> h)
    end.
Proof.
  intros H Hc Hg.
  rewrite (transform_column_map_first h df fr column s mapping
             (map_then_apply mapping name) H Hc eq_refl).
  change (without_map (map_then_apply mapping name)) with (only_apply name).
  set (s1 := map_step mapping s).
  rewrite (transform_column_only_apply _ df (set_column column s1 fr) column s1
             name (GFunction f)
             (lookup_insert_eq _ _ _) (get_set_column _ _ _) Hg eq_refl).
  cbn [series_apply]. destruct (rmap (call f) s1) as [s'|e]; [|reflexivity].
  now rewrite insert_insert_eq, set_column_twice.
Qed.

End Order.

(** X11: with a [map] and a custom [apply] on one column, the function is
    called on the values that the map step stored, not on the values as
    uploaded; and when it raises on one of them the exception leaves the
    call with the column holding the values of the map step: the map step
    is not undone.  In a column of texts and NaN, with texts or nulls for
    replacement values, the map step stores the replacement of every cell
    that is a key with a replacement, and the other cells as they were. *)
Theorem X11_map_then_apply_in_order
    (L : PyLib) (h : heap) (df : loc) (fr : frame) (column : string) (s : series)
    (mapping : gmap string cell) (name : string) (f : func_id) :
  h !! df = Some fr -> get_column column fr = Some s ->
  globals !! name = Some (GFunction f) ->
  apply_transformations df [(column, map_then_apply mapping name)] h
  = match rmap (call f) (map_step mapping s) with
    | Ok s' => (Ok df, <[df := set_column column s' fr]> h)
    | Raise e =>
        (Raise e, <[df := set_column column (map_step mapping s) fr]> h)
    end
  /\ (text_values mapping = true -> text_series s = true ->
      map_step mapping s = map (mapped_value mapping) s).
Proof.
  intros H Hc Hg. split; [|apply map_step_text].
  assert (Hin : column ∈ columns fr) by (apply get_column_is_Some; eauto).
  rewrite (apply_transformations_cons h df fr column _ [] H Hin).
  rewrite (transform_column_map_then_apply h df fr column s mapping name f H Hc Hg).
  destruct (rmap (call f) (map_step mapping s)); reflexivity.
Qed.

(** Column [b] of the sample frame under [remove_dollar_sign]: with [7]
    mapped to [$70] the call returns the integers 5 and 70; with [7] mapped
    to [seven] it raises, and the column is left with [seven] in it. *)
Lemma X11_map_then_apply_witness :
  sample_heap !! 0%nat = Some sample_frame
  /\ get_column "b" sample_frame = Some [CStr "$5"; CStr "7"]
  /\ forall L : PyLib,
       globals !! "remove_dollar_sign" = Some (GFunction F_remove_dollar_sign)
       /\ apply_transformations 0%nat
            [("b", map_then_apply {[ "7" := CStr "$70" ]} "remove_dollar_sign")]
            sample_heap
          = (Ok 0%nat, {[ 0%nat := sample_frame_ints ]})
       /\ apply_transformations 0%nat
            [("b", map_then_apply {[ "7" := CStr "seven" ]} "remove_dollar_sign")]
            sample_heap
          = (Raise ValueError, {[ 0%nat := sample_frame_seven ]}).
Proof.
  split; [reflexivity|]. split; [reflexivity|]. intros L.
  assert (Hg : globals !! "remove_dollar_sign" = Some (GFunction F_remove_dollar_sign))
    by now apply globals_bound.
  assert (T1 : text_values {[ "7" := CStr "$70" ]} = true) by reflexivity.
  assert (T2 : text_values {[ "7" := CStr "seven" ]} = true) by reflexivity.
  split; [exact Hg|]. split.
  - destruct (X11_map_then_apply_in_order L sample_heap 0%nat sample_frame "b"
                [CStr "$5"; CStr "7"] {[ "7" := CStr "$70" ]} "remove_dollar_sign"
                F_remove_dollar_sign eq_refl eq_refl Hg) as [E Em].
    rewrite E, (Em T1 eq_refl). reflexivity.
  - destruct (X11_map_then_apply_in_order L sample_heap 0%nat sample_frame "b"
                [CStr "$5"; CStr "7"] {[ "7" := CStr "seven" ]} "remove_dollar_sign"
                F_remove_dollar_sign eq_refl eq_refl Hg) as [E Em].
    rewrite E, (Em T2 eq_refl). reflexivity.
Defined.

(** ** The [apply] object of the configuration *)

Section ApplyObject.
Context {L : PyLib}.


Lemma transform_column_apply_other_type (h : heap) df column apply_config ty :
  apply_config !! "type" = Some ty -> ty <> "custom" ->
  transform_column df column (only_apply_object apply_config) h = (Ok tt, h).
Proof.
  intros Ht Hne. unfold transform_column, only_apply_object.
  cbn [t_map t_astype t_apply]. unfold dict_getitem. rewrite Ht.
  unfold mbind, mret. destruct (String.eqb_spec ty "custom"); [contradiction|].
  reflexivity.
Qed.


End ApplyObject.

(** X12: an [apply] object whose type is not [custom] is passed over in
    silence: whatever function it names, bound or not, nothing is called,
    nothing is assigned and no warning is attempted, and the call goes on
    with the next item of the configuration. *)
Theorem X12_apply_of_other_type_is_skipped
    (h : heap) (df : loc) (fr : frame) (column : string)
    (apply_config : gmap string string) (ty : string) (rest : config) :
  h !! df = Some fr -> column ∈ columns fr ->
  apply_config !! "type" = Some ty -> ty <> "custom" ->
  forall L : PyLib,
    apply_transformations df ((column, only_apply_object apply_config) :: rest) h
    = apply_transformations df rest h.
Proof.
  intros H Hc Ht Hne L.
  rewrite (apply_transformations_cons h df fr column _ rest H Hc).
  now rewrite (transform_column_apply_other_type h df column apply_config ty Ht Hne).
Qed.

(** An object of type [builtin] that names a function nobody defined. *)
Lemma X12_apply_of_other_type_witness :
  sample_heap !! 0%nat = Some sample_frame
  /\ ("b" ∈ columns sample_frame)
  /\ ({[ "type" := "builtin"; "function" := "no_such_function" ]}
        : gmap string string) !! "type" = Some "builtin"
  /\ "builtin" <> "custom"
  /\ forall L : PyLib,
       apply_transformations 0%nat
         [("b", only_apply_object
                  {[ "type" := "builtin"; "function" := "no_such_function" ]})]
         sample_heap
       = (Ok 0%nat, sample_heap).
Proof.
  assert (Hc : "b" ∈ columns sample_frame).
  { apply get_column_is_Some. eexists. reflexivity. }
  assert (Ht : ({[ "type" := "builtin"; "function" := "no_such_function" ]}
                  : gmap string string) !! "type" = Some "builtin")
    by reflexivity.
  split; [reflexivity|]. split; [exact Hc|]. split; [exact Ht|].
  split; [discriminate|]. intros L.
  rewrite (X12_apply_of_other_type_is_skipped sample_heap 0%nat sample_frame "b"
             _ "builtin" [] eq_refl Hc Ht ltac:(discriminate) L).
  reflexivity.
Defined.



(** ** Map operations together *)

Section Maps.
Context {L : PyLib}.

Lemma apply_transformations_two_maps (h : heap) df fr c1 c2 s1 s2 m1 m2 :
  h !! df = Some fr -> get_column c1 fr = Some s1 -> get_column c2 fr = Some s2 ->
  c1 <> c2 ->
  apply_transformations df [(c1, only_map m1); (c2, only_map m2)] h
  = (Ok df, <[df := set_column c2 (map_step m2 s2)
                      (set_column c1 (map_step m1 s1) fr)]> h).
Proof.
  intros H H1 H2 Hne.
  change [(c1, only_map m1); (c2, only_map m2)]
    with ([(c1, only_map m1)] ++ [(c2, only_map m2)])%list.
  rewrite apply_transformations_app.
  rewrite (apply_transformations_only_map h df fr c1 s1 m1 H H1).
  rewrite (apply_transformations_only_map _ df _ c2 s2 m2 (lookup_insert_eq _ _ _)).
  - now rewrite insert_insert_eq.
  - rewrite get_set_column_ne by congruence. exact H2.
Qed.

End Maps.

Lemma mapped_value_twice (mapping : gmap string cell) (v : cell) :
  (forall k k', mapping !! k = Some (CStr k') -> mapping !! k' = None) ->
  mapped_value mapping (mapped_value mapping v) = mapped_value mapping v.
Proof.
  intros Hm. destruct v as [| | | |k]; try reflexivity.
  cbn [mapped_value]. destruct (mapping !! k) as [w|] eqn:Hk.
  - destruct (Builtins.isna w) eqn:Hw.
    + cbn [mapped_value]. now rewrite Hk, Hw.
    + destruct w as [| | | |k']; try reflexivity.
      cbn [mapped_value]. now rewrite (Hm k k' Hk).
  - cbn [mapped_value]. now rewrite Hk.
Qed.

(** A column of texts stays one under a mapping with texts for values. *)
Lemma mapped_value_text (mapping : gmap string cell) (s : series) :
  text_values mapping = true -> text_series s = true ->
  text_series (map (mapped_value mapping) s) = true.
Proof.
  unfold text_series. intros Hm Hs. apply forallb_forall. intros w Hw.
  apply in_map_iff in Hw as (v & <- & Hv).
  pose proof (proj1 (forallb_forall _ _) Hs v Hv) as Ht.
  destruct v as [| | | |k]; try exact Ht. cbn [mapped_value].
  destruct (mapping !! k) as [w|] eqn:Hk; [|reflexivity].
  destruct (Builtins.isna w) eqn:Hw; [reflexivity|].
  pose proof (text_values_lookup mapping k w Hm Hk) as Hv'.
  destruct w as [| | |f|k']; try discriminate; [|reflexivity].
  destruct f; discriminate.
Qed.

(** X14: [map] operations on two different columns do not depend on the
    order of the two items in the configuration: either order leaves the
    same frame. *)
Theorem X14_maps_on_two_columns_commute
    (h : heap) (df : loc) (fr : frame) (c1 c2 : string) (s1 s2 : series)
    (m1 m2 : gmap string cell) :
  h !! df = Some fr -> get_column c1 fr = Some s1 -> get_column c2 fr = Some s2 ->
  c1 <> c2 ->
  forall L : PyLib,
    apply_transformations df [(c1, only_map m1); (c2, only_map m2)] h
    = apply_transformations df [(c2, only_map m2); (c1, only_map m1)] h.
Proof.
  intros H H1 H2 Hne L.
  rewrite (apply_transformations_two_maps h df fr c1 c2 s1 s2 m1 m2 H H1 H2 Hne).
  rewrite (apply_transformations_two_maps h df fr c2 c1 s2 s1 m2 m1 H H2 H1)
    by congruence.
  f_equal. f_equal. apply set_column_comm.
  - congruence.
  - apply get_column_is_Some. eauto.
  - apply get_column_is_Some. eauto.
Qed.

(** Columns [a] and [b] of the sample frame. *)
Lemma X14_maps_commute_witness :
  sample_heap !! 0%nat = Some sample_frame
  /\ get_column "a" sample_frame = Some [CStr "x"; CStr "y"]
  /\ get_column "b" sample_frame = Some [CStr "$5"; CStr "7"]
  /\ "a" <> "b"
  /\ forall L : PyLib,
       apply_transformations 0%nat
         [("a", only_map {[ "x" := CStr "X" ]}); ("b", only_map {[ "7" := CInt 7 ]})]
         sample_heap
       = apply_transformations 0%nat
           [("b", only_map {[ "7" := CInt 7 ]}); ("a", only_map {[ "x" := CStr "X" ]})]
           sample_heap.
Proof.
  split; [reflexivity|]. split; [reflexivity|]. split; [reflexivity|].
  split; [discriminate|]. intros L.
  exact (X14_maps_on_two_columns_commute sample_heap 0%nat sample_frame "a" "b"
           [CStr "x"; CStr "y"] [CStr "$5"; CStr "7"]
           {[ "x" := CStr "X" ]} {[ "7" := CInt 7 ]}
           eq_refl eq_refl eq_refl ltac:(discriminate) L).
Defined.

(** X15: on a column of texts and NaN, a [map] operation with texts or
    nulls for replacement values, none of which is itself a key, is
    idempotent: calling [apply_transformations] a second time with the
    same configuration, on the frame the first call left, changes
    nothing. *)
Theorem X15_map_twice_is_map_once
    (h : heap) (df : loc) (fr : frame) (column : string) (s : series)
    (mapping : gmap string cell) :
  h !! df = Some fr -> get_column column fr = Some s ->
  text_series s = true -> text_values mapping = true ->
  (forall k k', mapping !! k = Some (CStr k') -> mapping !! k' = None) ->
  forall L : PyLib,
    apply_transformations df [(column, only_map mapping)]
      (apply_transformations df [(column, only_map mapping)] h).2
    = apply_transformations df [(column, only_map mapping)] h.
Proof.
  intros H Hc Hs Hv Hm L.
  rewrite (apply_transformations_text_map h df fr column s mapping H Hc Hv Hs).
  cbn [snd].
  rewrite (apply_transformations_text_map _ df _ column _ mapping
             (lookup_insert_eq _ _ _) (get_set_column _ _ _) Hv
             (mapped_value_text mapping s Hv Hs)).
  rewrite insert_insert_eq, set_column_twice. do 3 f_equal.
  rewrite map_map. apply map_ext. intros v. now apply mapped_value_twice.
Qed.

(** The sample configuration: its one replacement value, [X], is no key. *)
Lemma X15_map_twice_witness :
  sample_heap !! 0%nat = Some sample_frame
  /\ get_column "a" sample_frame = Some [CStr "x"; CStr "y"]
  /\ text_series [CStr "x"; CStr "y"] = true
  /\ text_values {[ "x" := CStr "X" ]} = true
  /\ (forall k k', ({[ "x" := CStr "X" ]} : gmap string cell) !! k = Some (CStr k') ->
        ({[ "x" := CStr "X" ]} : gmap string cell) !! k' = None)
  /\ forall L : PyLib,
       apply_transformations 0%nat sample_config
         (apply_transformations 0%nat sample_config sample_heap).2
       = apply_transformations 0%nat sample_config sample_heap.
Proof.
  assert (Hm : forall k k',
             ({[ "x" := CStr "X" ]} : gmap string cell) !! k = Some (CStr k') ->
             ({[ "x" := CStr "X" ]} : gmap string cell) !! k' = None).
  { intros k k' Hk. apply lookup_singleton_Some in Hk as [<- [= <-]].
    apply lookup_singleton_ne. discriminate. }
  split; [reflexivity|]. split; [reflexivity|]. split; [reflexivity|].
  split; [exact text_values_sample|]. split; [exact Hm|]. intros L.
  exact (X15_map_twice_is_map_once sample_heap 0%nat sample_frame "a"
           [CStr "x"; CStr "y"] {[ "x" := CStr "X" ]} eq_refl eq_refl eq_refl
           text_values_sample Hm L).
Defined.

(** ** The table of the loaded configuration *)

Lemma extend_columns_prefix keys columns :
  exists more, extend_columns keys columns = (columns ++ more)%list.
Proof.
  revert columns. induction keys as [|k rest IH]; intros columns; cbn.
  - exists []. now rewrite app_nil_r.
  - case_bool_decide.
    + apply IH.
    + destruct (IH (columns ++ [k])%list) as [more E].
      exists (k :: more). rewrite E. now rewrite <- app_assoc.
Qed.

Lemma extend_columns_keys keys columns col_name :
  col_name ∈ keys \/ col_name ∈ columns ->
  col_name ∈ extend_columns keys columns.
Proof.
  revert columns. induction keys as [|k rest IH]; intros columns H; cbn.
  - destruct H as [H|H]; [inversion H | exact H].
  - apply IH. destruct H as [H|H].
    + apply elem_of_cons in H as [->|H]; [right | now left].
      case_bool_decide; [assumption | apply elem_of_app; right; constructor].
    + right. case_bool_decide; [assumption | apply elem_of_app; now left].
Qed.

Lemma extend_columns_NoDup keys columns :
  NoDup columns -> NoDup (extend_columns keys columns).
Proof.
  revert columns. induction keys as [|k rest IH]; intros columns H; cbn;
    [exact H|].
  apply IH. case_bool_decide; [exact H|].
  apply NoDup_app. split; [exact H|]. split.
  - intros x Hx Hk. apply list_elem_of_singleton in Hk. now subst.
  - apply NoDup_singleton.
Qed.

(** With keys that are all different, as the keys of a dict are, the
    columns are the label column and then the keys, but for a key that is
    the name of the label column. *)
Lemma extend_columns_filter keys columns :
  NoDup keys ->
  extend_columns keys columns
  = (columns ++ List.filter (fun k => negb (bool_decide (k ∈ columns))) keys)%list.
Proof.
  revert columns. induction keys as [|k rest IH]; intros columns H; cbn.
  - now rewrite app_nil_r.
  - apply NoDup_cons in H as [Hk H]. rewrite (IH _ H).
    case_bool_decide as Hc; cbn; [reflexivity|].
    rewrite <- app_assoc. cbn. f_equal. f_equal.
    apply filter_ext_in. intros x Hx. f_equal.
    apply bool_decide_ext. rewrite elem_of_app, list_elem_of_singleton.
    split; [|tauto]. intros [H1|H1]; [assumption|]. subst x.
    exfalso. apply Hk. now apply list_elem_of_In.
Qed.

Lemma list_index_elem col_name columns :
  col_name ∈ columns ->
  exists i, list_index col_name columns = Some i /\ (i < length columns)%nat.
Proof.
  induction columns as [|c rest IH]; intros H; [inversion H|]. cbn.
  destruct (String.eqb_spec c col_name) as [->|Hne].
  - exists O. split; [reflexivity | lia].
  - apply elem_of_cons in H as [E|H]; [congruence|].
    destruct (IH H) as (i & -> & Hi). exists (S i). split; [reflexivity | lia].
Qed.

Lemma rows_setitem_ok width ty i x (rows : table_rows) :
  rows_ok width rows -> ty ∈ rows.*1 -> (i < width)%nat ->
  exists rows', rows_setitem ty i x rows = Done rows'
    /\ rows_ok width rows' /\ rows'.*1 = rows.*1.
Proof.
  unfold rows_ok. induction rows as [|[t row] rest IH]; intros Hok Hin Hi;
    [inversion Hin|].
  apply Forall_cons in Hok as [Hrow Hok]. cbn [rows_setitem].
  destruct (String.eqb_spec t ty) as [->|Hne].
  - unfold row_setitem. rewrite Hrow. destruct (Nat.ltb_spec i width); [|lia].
    cbn [obind]. eexists. split; [reflexivity|]. split; [|reflexivity].
    constructor; [|exact Hok].
    exact (eq_trans (length_insert row i x) Hrow).
  - cbn in Hin. apply elem_of_cons in Hin as [E|Hin]; [congruence|].
    destruct (IH Hok Hin Hi) as (rest' & -> & Hok' & Hk). cbn [obind].
    eexists. split; [reflexivity|]. split.
    + now constructor.
    + cbn. now rewrite Hk.
Qed.

Section TableProofs.
Variable dumps : json -> string.

(** One operation: the rows stay of the width of the table and keep their
    order, a new kind of operation gets a new last row, and the only
    failure is that of the text of the cell. *)
Lemma fill_operation_spec columns col_name ty value (rows : table_rows) :
  (0 < length columns)%nat -> col_name ∈ columns ->
  rows_ok (length columns) rows ->
  match fill_operation dumps columns col_name ty value rows with
  | Done rows' =>
      rows_ok (length columns) rows'
      /\ rows'.*1 = (if bool_decide (ty ∈ rows.*1) then rows.*1
                     else rows.*1 ++ [ty])%list
      /\ exists text, cell_text dumps ty value = Done text
  | Fail e => cell_text dumps ty value = Fail e
  end.
Proof.
  intros Hw Hc Hok. unfold fill_operation.
  destruct (list_index_elem col_name columns Hc) as (i & Hi & Hlt).
  assert (Hrows : exists rows1,
    (if bool_decide (ty ∈ rows.*1) then Done rows
     else obind (row_setitem 0 (Some ty) (replicate (length columns) None))
            (fun row => Done (rows ++ [(ty, row)])%list)) = Done rows1
    /\ rows_ok (length columns) rows1 /\ ty ∈ rows1.*1
    /\ rows1.*1 = (if bool_decide (ty ∈ rows.*1) then rows.*1
                   else rows.*1 ++ [ty])%list).
  { case_bool_decide as Hin.
    - exists rows. now repeat split.
    - unfold row_setitem. rewrite length_replicate.
      destruct (Nat.ltb_spec 0 (length columns)); [|lia]. cbn [obind].
      eexists. split; [reflexivity|]. split; [|split].
      + apply Forall_app. split; [exact Hok|]. constructor; [|constructor].
        exact (eq_trans (length_insert _ O (Some ty)) (length_replicate _ _)).
      + rewrite fmap_app. apply elem_of_app. right. constructor.
      + now rewrite fmap_app. }
  destruct Hrows as (rows1 & -> & Hok1 & Hin1 & Hk1). cbn [obind]. rewrite Hi.
  destruct (cell_text dumps ty value) as [text|e]; [|reflexivity]. cbn [obind].
  destruct (rows_setitem_ok (length columns) ty i (Some text) rows1 Hok1 Hin1 Hlt)
    as (rows' & -> & Hok' & Hk').
  split; [exact Hok'|]. split; [now rewrite Hk', Hk1 | eauto].
Qed.

Lemma fill_operations_spec columns col_name items (rows : table_rows) :
  (0 < length columns)%nat -> col_name ∈ columns ->
  rows_ok (length columns) rows ->
  match fill_operations dumps columns col_name items rows with
  | Done rows' =>
      rows_ok (length columns) rows'
      /\ Forall (fun '(ty, value) => exists text, cell_text dumps ty value = Done text)
           items
  | Fail e => Exists (fun '(ty, value) => cell_text dumps ty value = Fail e) items
  end.
Proof.
  intros Hw Hc. revert rows. induction items as [|[ty value] rest IH];
    intros rows Hok; cbn [fill_operations].
  - now split.
  - pose proof (fill_operation_spec columns col_name ty value rows Hw Hc Hok) as H.
    destruct (fill_operation dumps columns col_name ty value rows) as [rows1|e];
      cbn [obind].
    + destruct H as (Hok1 & _ & Ht). specialize (IH rows1 Hok1).
      destruct (fill_operations dumps columns col_name rest rows1).
      * destruct IH as [Hok' Hall]. split; [exact Hok' | now constructor].
      * now apply Exists_cons_tl.
    + now apply Exists_cons_hd.
Qed.

(** The whole loop: on success the rows have the width of the table and
    every operation set was a dict whose cells all have a text; a failure
    is that of an operation set that is no dict, or of the text of a
    cell. *)
Lemma fill_rows_spec columns config (rows : table_rows) :
  (0 < length columns)%nat -> (forall c, c ∈ config.*1 -> c ∈ columns) ->
  rows_ok (length columns) rows ->
  match fill_rows dumps columns config rows with
  | Done rows' =>
      rows_ok (length columns) rows'
      /\ Forall (fun '(_, t) => exists items, t = JObj items
           /\ Forall (fun '(ty, value) =>
                exists text, cell_text dumps ty value = Done text) items) config
  | Fail e =>
      Exists (fun '(_, t) =>
        match t with
        | JObj items =>
            Exists (fun '(ty, value) => cell_text dumps ty value = Fail e) items
        | _ => e = TAttributeError
        end) config
  end.
Proof.
  intros Hw. revert rows. induction config as [|[col_name t] rest IH];
    intros rows Hc Hok; cbn [fill_rows].
  - now split.
  - assert (Hc' : forall c, c ∈ rest.*1 -> c ∈ columns).
    { intros c H. apply Hc. cbn. now right. }
    assert (Hcol : col_name ∈ columns) by (apply Hc; cbn; now left).
    destruct t as [| | | | | |items];
      try (apply Exists_cons_hd; reflexivity).
    pose proof (fill_operations_spec columns col_name items rows Hw Hcol Hok) as H.
    destruct (fill_operations dumps columns col_name items rows) as [rows1|e];
      cbn [obind].
    + destruct H as [Hok1 Hall]. specialize (IH rows1 Hc' Hok1).
      destruct (fill_rows dumps columns rest rows1).
      * destruct IH as [Hok' Hrest]. split; [exact Hok'|].
        constructor; [eauto | exact Hrest].
      * now apply Exists_cons_tl.
    + now apply Exists_cons_hd.
Qed.

End TableProofs.

Lemma extend_columns_app keys1 keys2 columns :
  extend_columns (keys1 ++ keys2) columns
  = extend_columns keys2 (extend_columns keys1 columns).
Proof.
  revert columns. induction keys1 as [|k rest IH]; intros columns; cbn;
    [reflexivity | apply IH].
Qed.

Lemma list_index_lookup col_name columns i :
  list_index col_name columns = Some i -> columns !! i = Some col_name.
Proof.
  revert i. induction columns as [|c rest IH]; intros i H; [discriminate|].
  cbn in H. destruct (String.eqb_spec c col_name) as [->|Hne].
  - now inversion H.
  - destruct (list_index col_name rest) as [j|]; [|discriminate].
    inversion H. cbn. now apply IH.
Qed.

(** With one row for each kind of operation, the assignment to a cell
    changes the row of that kind and no other. *)
Lemma rows_setitem_map ty i x (rows rows' : table_rows) :
  NoDup rows.*1 -> rows_setitem ty i x rows = Done rows' ->
  rows' = (fun '(t, row) => (t, if String.eqb t ty then <[i:=x]> row else row))
            <$> rows.
Proof.
  revert rows'. induction rows as [|[t row] rest IH]; intros rows' Hnd H;
    [discriminate|].
  cbn in Hnd. apply NoDup_cons in Hnd as [Ht Hnd]. cbn [rows_setitem] in H.
  cbn [fmap list_fmap]. destruct (String.eqb_spec t ty) as [->|Hne].
  - unfold row_setitem in H. destruct (i <? length row)%nat; [|discriminate].
    cbn [obind] in H. inversion H. f_equal.
    clear -Ht. induction rest as [|[t' row'] rest IH]; [reflexivity|].
    cbn. destruct (String.eqb_spec t' ty) as [->|Hne].
    + exfalso. apply Ht. cbn. left.
    + f_equal. apply IH. intros Hin. apply Ht. cbn. now right.
  - destruct (rows_setitem ty i x rest) as [rest'|e]; [|discriminate].
    cbn [obind] in H. inversion H. f_equal. now apply IH.
Qed.

(** In a list of pairs with keys that are all different, a key has one
    value. *)
Lemma NoDup_fst_unique {K V} (l : list (K * V)) k v1 v2 :
  NoDup l.*1 -> (k, v1) ∈ l -> (k, v2) ∈ l -> v1 = v2.
Proof.
  induction l as [|[a b] l IH]; intros Hnd H1 H2; [inversion H1|].
  cbn in Hnd. apply NoDup_cons in Hnd as [Ha Hnd].
  apply elem_of_cons in H1 as [E1|H1]; apply elem_of_cons in H2 as [E2|H2].
  - congruence.
  - exfalso. apply Ha. inversion E1. subst a.
    apply list_elem_of_fmap. now exists (k, v2).
  - exfalso. apply Ha. inversion E2. subst a.
    apply list_elem_of_fmap. now exists (k, v1).
  - now apply IH.
Qed.

Section TableCells.
Variable dumps : json -> string.
Variable columns : list string.
Hypothesis columns_head : columns !! O = Some "Transformation".
Hypothesis columns_NoDup : NoDup columns.

Lemma cells_of_nil : cells_of dumps columns [] [].
Proof.
  split; [reflexivity|]. split; [constructor|]. intros t row H. inversion H.
Qed.

Lemma cells_of_step done rows col_name ty value rows' :
  cells_of dumps columns done rows ->
  NoDup ((done ++ [(col_name, ty, value)])%list).*1 ->
  col_name ∈ columns ->
  fill_operation dumps columns col_name ty value rows = Done rows' ->
  cells_of dumps columns ((done ++ [(col_name, ty, value)])%list) rows'.
Proof.
  intros (Hkeys & Hok & Hcells) Hnd Hcol Hfill.
  assert (Hw : (0 < length columns)%nat).
  { apply lookup_lt_Some in columns_head. exact columns_head. }
  pose proof (fill_operation_spec dumps columns col_name ty value rows Hw Hcol Hok)
    as Hspec.
  rewrite Hfill in Hspec. destruct Hspec as (Hok' & Hkeys' & _).
  assert (Hkeys2 : rows'.*1 = extend_columns ((done ++ [(col_name, ty, value)])%list).*1.*2 []).
  { rewrite Hkeys', !fmap_app, extend_columns_app, <- Hkeys. cbn.
    now case_bool_decide. }
  split; [exact Hkeys2|]. split; [exact Hok'|].
  (* the rows before the assignment *)
  unfold fill_operation in Hfill.
  destruct (list_index_elem col_name columns Hcol) as (i & Hi & Hlt).
  pose proof (list_index_lookup _ _ _ Hi) as Hicol.
  set (rows1 := if bool_decide (ty ∈ rows.*1) then rows
                else (rows ++ [(ty, <[O:=Some ty]> (replicate (length columns) None))])%list).
  assert (E1 : (if bool_decide (ty ∈ rows.*1) then Done rows
     else obind (row_setitem 0 (Some ty) (replicate (length columns) None))
            (fun row => Done (rows ++ [(ty, row)])%list)) = Done rows1).
  { subst rows1. case_bool_decide; [reflexivity|].
    unfold row_setitem. rewrite length_replicate.
    destruct (Nat.ltb_spec 0 (length columns)); [reflexivity | lia]. }
  rewrite E1 in Hfill. cbn [obind] in Hfill. rewrite Hi in Hfill.
  destruct (cell_text dumps ty value) as [text|e] eqn:Etext; [|discriminate].
  cbn [obind] in Hfill.
  assert (Hkeys1 : rows1.*1 = rows'.*1).
  { rewrite Hkeys'. subst rows1. case_bool_decide; [reflexivity|].
    now rewrite fmap_app. }
  assert (Hnd1 : NoDup rows1.*1).
  { rewrite Hkeys1, Hkeys2. apply extend_columns_NoDup. constructor. }
  assert (Hok1 : rows_ok (length columns) rows1).
  { subst rows1. case_bool_decide; [exact Hok|].
    apply Forall_app. split; [exact Hok|]. constructor; [|constructor].
    exact (eq_trans (length_insert _ O (Some ty)) (length_replicate _ _)). }
  assert (Hcells1 : forall t row, (t, row) ∈ rows1 ->
    head row = Some (Some t) \/ (t, row) ∈ rows).
  { intros t row Hin. subst rows1. case_bool_decide; [now right|].
    apply elem_of_app in Hin as [Hin|Hin]; [now right|].
    apply list_elem_of_singleton in Hin. inversion Hin. left.
    destruct (length columns); [lia | reflexivity]. }
  assert (Hnew : forall t row, (t, row) ∈ rows1 -> (t, row) ∉ rows ->
    t = ty /\ (ty ∉ rows.*1)
    /\ (forall j text', row !! S j <> Some (Some text'))).
  { intros t row Hin Hnin. subst rows1. case_bool_decide as Hty; [contradiction|].
    apply elem_of_app in Hin as [Hin|Hin]; [contradiction|].
    apply list_elem_of_singleton in Hin. inversion Hin. subst t row.
    split; [reflexivity|]. split; [exact Hty|].
    assert (H0 : forall j text',
      <[O:=Some ty]> (replicate (length columns) (@None string)) !! S j
      <> Some (Some text')).
    { intros j text'. rewrite list_lookup_insert_ne by lia.
      intros Hl. apply lookup_replicate in Hl as [Hl _]. discriminate. }
    exact H0. }
  pose proof (rows_setitem_map _ _ _ _ _ Hnd1 Hfill) as Hrows'.
  intros t row' Hin'. rewrite Hrows' in Hin'.
  apply list_elem_of_fmap in Hin' as ([t1 row] & E & Hin1). inversion E.
  subst t1. clear E. unfold table_row in *.
  assert (Hlen : length row = length columns).
  { unfold rows_ok in Hok1. rewrite Forall_forall in Hok1.
    exact (Hok1 _ (proj2 (list_elem_of_In _ _) (proj1 (list_elem_of_In _ _) Hin1))). }
  assert (Hold : (t, row) ∈ rows \/ (t, row) ∉ rows).
  { destruct (decide (t ∈ rows.*1)) as [Htin|Htnin].
    - left. apply list_elem_of_fmap in Htin as ([t2 row2] & E2 & Hin2).
      cbn in E2. subst t2.
      assert (Hin2' : (t, row2) ∈ rows1).
      { subst rows1. case_bool_decide; [exact Hin2|].
        apply elem_of_app. now left. }
      now rewrite <- (NoDup_fst_unique _ _ _ _ Hnd1 Hin2' Hin1).
    - right. intros Hin. apply Htnin. apply list_elem_of_fmap.
      now exists (t, row). }
  (* the label *)
  split.
  { intros Hlabel.
    assert (Hcn : col_name <> "Transformation").
    { intros ->. apply Hlabel. rewrite !fmap_app. apply elem_of_app. right.
      cbn. left. }
    assert (Hi0 : i <> O).
    { intros ->. rewrite columns_head in Hicol. congruence. }
    assert (Hhead : head row = Some (Some t)).
    { destruct (Hcells1 _ _ Hin1) as [H|H]; [exact H|].
      apply (Hcells _ _ H). intros Hin. apply Hlabel.
      rewrite !fmap_app. apply elem_of_app. now left. }
    destruct (String.eqb t ty); [|exact Hhead].
    rewrite head_lookup. rewrite list_lookup_insert_ne by exact Hi0.
    now rewrite <- head_lookup. }
  (* the other cells *)
  intros j text'.
  assert (Hrow : row !! S j = Some (Some text') <->
    exists col value0, columns !! S j = Some col /\ (col, t, value0) ∈ done
      /\ cell_text dumps t value0 = Done text').
  { destruct Hold as [Hin|Hnin]; [apply (Hcells _ _ Hin)|].
    destruct (Hnew _ _ Hin1 Hnin) as (-> & Hty & Hnone). split.
    - intros H. now apply Hnone in H.
    - intros (col & value0 & _ & Hd & _). exfalso. apply Hty. rewrite Hkeys.
      apply extend_columns_keys. left.
      apply list_elem_of_fmap. exists (col, ty). split; [reflexivity|].
      apply list_elem_of_fmap. now exists (col, ty, value0). }
  assert (Hlast : forall col value0,
    (col, t, value0) ∈ (done ++ [(col_name, ty, value)])%list <->
    (col, t, value0) ∈ done \/ (col = col_name /\ t = ty /\ value0 = value)).
  { intros col value0. rewrite elem_of_app, list_elem_of_singleton.
    split; (intros [H|H]; [now left | right]).
    - now inversion H.
    - destruct H as (-> & -> & ->). reflexivity. }
  destruct (String.eqb_spec t ty) as [->|Hne].
  - destruct (Nat.eq_dec i (S j)) as [->|Hij].
    + rewrite list_lookup_insert_eq by lia. split.
      * intros H. inversion H. subst text'. exists col_name, value.
        split; [exact Hicol|]. split; [|exact Etext]. apply Hlast. now right.
      * intros (col & value0 & Hc & Hd & Ht). rewrite Hicol in Hc.
        inversion Hc. subst col.
        assert (value0 = value); [|subst; congruence].
        apply (NoDup_fst_unique _ (col_name, ty) _ _ Hnd Hd).
        apply Hlast. now right.
    + rewrite list_lookup_insert_ne by exact Hij. rewrite Hrow. split.
      * intros (col & value0 & Hc & Hd & Ht). exists col, value0.
        split; [exact Hc|]. split; [|exact Ht]. apply Hlast. now left.
      * intros (col & value0 & Hc & Hd & Ht). exists col, value0.
        split; [exact Hc|]. split; [|exact Ht].
        apply Hlast in Hd as [Hd|(-> & _ & ->)]; [exact Hd|].
        exfalso. apply Hij. exact (NoDup_lookup _ _ _ _ columns_NoDup Hicol Hc).
  - rewrite Hrow. split.
    + intros (col & value0 & Hc & Hd & Ht). exists col, value0.
      split; [exact Hc|]. split; [|exact Ht]. apply Hlast. now left.
    + intros (col & value0 & Hc & Hd & Ht). exists col, value0.
      split; [exact Hc|]. split; [|exact Ht].
      apply Hlast in Hd as [Hd|(_ & E & _)]; [exact Hd | contradiction].
Qed.

Lemma cells_of_operations items done rows col_name rows' :
  cells_of dumps columns done rows ->
  NoDup ((done ++ column_operations col_name (JObj items))%list).*1 ->
  col_name ∈ columns ->
  fill_operations dumps columns col_name items rows = Done rows' ->
  cells_of dumps columns (done ++ column_operations col_name (JObj items))%list rows'.
Proof.
  revert done rows. induction items as [|[ty value] rest IH];
    intros done rows Hc Hnd Hcol H; cbn [fill_operations] in H.
  - cbn. rewrite app_nil_r. inversion H. now subst.
  - destruct (fill_operation dumps columns col_name ty value rows) as [rows1|e]
      eqn:E; [|discriminate].
    cbn [obind] in H.
    assert (Eops : column_operations col_name (JObj ((ty, value) :: rest))
                   = ([(col_name, ty, value)]
                      ++ column_operations col_name (JObj rest))%list)
      by reflexivity.
    rewrite Eops in *. rewrite app_assoc in *.
    apply (IH _ rows1); [|exact Hnd|exact Hcol|exact H].
    apply cells_of_step with (rows := rows); [exact Hc| |exact Hcol|exact E].
    rewrite fmap_app in Hnd. now apply NoDup_app in Hnd as [Hnd _].
Qed.

Lemma cells_of_rows config done rows rows' :
  cells_of dumps columns done rows ->
  NoDup ((done ++ operations config)%list).*1 ->
  (forall c, c ∈ config.*1 -> c ∈ columns) ->
  fill_rows dumps columns config rows = Done rows' ->
  cells_of dumps columns (done ++ operations config)%list rows'.
Proof.
  revert done rows. induction config as [|[col_name t] rest IH];
    intros done rows Hc Hnd Hcols H; cbn [fill_rows] in H.
  - cbn. rewrite app_nil_r. inversion H. now subst.
  - destruct t as [| | | | | |items]; try discriminate.
    destruct (fill_operations dumps columns col_name items rows) as [rows1|e]
      eqn:E; [|discriminate].
    cbn [obind] in H. cbn [operations] in *. rewrite app_assoc in *.
    apply (IH _ rows1); [| exact Hnd | | exact H].
    + apply cells_of_operations with (rows := rows); [exact Hc | | | exact E].
      * rewrite fmap_app in Hnd. now apply NoDup_app in Hnd as [Hnd _].
      * apply Hcols. cbn. left.
    + intros c Hin. apply Hcols. cbn. now right.
Qed.

End TableCells.

Lemma operations_columns config col ty value :
  (col, ty, value) ∈ operations config -> col ∈ config.*1.
Proof.
  induction config as [|[col_name t] rest IH]; cbn; intros H; [inversion H|].
  apply elem_of_app in H as [H|H]; [|right; now apply IH].
  destruct t; cbn in H; try (now inversion H).
  apply list_elem_of_fmap in H as ([ty0 value0] & E & _). inversion E. left.
Qed.

(** Two operations of a configuration with keys that are all different
    differ in the column or in the kind. *)
Lemma dict_like_operations config :
  dict_like config -> NoDup (operations config).*1.
Proof.
  intros [Hkeys Hitems]. induction config as [|[col_name t] rest IH]; cbn;
    [constructor|].
  cbn in Hkeys. apply NoDup_cons in Hkeys as [Hcol Hkeys].
  apply Forall_cons in Hitems as [Ht Hitems].
  rewrite fmap_app. apply NoDup_app. split; [|split].
  - destruct t; cbn; try constructor.
    induction items as [|[ty value] items IHi]; cbn; [constructor|].
    cbn in Ht. apply NoDup_cons in Ht as [Hty Ht]. constructor; [|now apply IHi].
    intros Hin. apply Hty. apply list_elem_of_fmap in Hin as ([[c ty0] v] & E & Hin).
    apply list_elem_of_fmap in Hin as ([ty1 v1] & E1 & Hin). cbn in E.
    inversion E1. inversion E. subst. apply list_elem_of_fmap.
    now exists (ty1, v1).
  - intros [c ty] H1 H2.
    apply list_elem_of_fmap in H2 as ([[c2 ty2] v2] & E2 & H2). cbn in E2.
    inversion E2. subst c2 ty2. apply operations_columns in H2.
    destruct t; cbn in H1; try (now inversion H1).
    apply list_elem_of_fmap in H1 as ([[c1 ty1] v1] & E1 & H1). cbn in E1.
    inversion E1. subst c1 ty1.
    apply list_elem_of_fmap in H1 as ([ty0 v0] & E0 & _). inversion E0.
    subst. contradiction.
  - now apply IH.
Qed.

Lemma extend_columns_elem keys columns col_name :
  col_name ∈ extend_columns keys columns <->
  col_name ∈ keys \/ col_name ∈ columns.
Proof.
  split; [|apply extend_columns_keys].
  revert columns. induction keys as [|k rest IH]; intros columns H; cbn in H;
    [now right|].
  apply IH in H as [H|H]; [left; now right|].
  case_bool_decide; [now right|].
  apply elem_of_app in H as [H|H]; [now right|].
  apply list_elem_of_singleton in H. subst. left. left.
Qed.

Lemma extend_columns_head keys c columns :
  head (extend_columns keys (c :: columns)) = Some c.
Proof.
  destruct (extend_columns_prefix keys (c :: columns)) as [more ->]. reflexivity.
Qed.

(** The text of a cell: what can go wrong is the lookup of the function of
    an apply operation, on a value that is no dict or has no such key. *)
Lemma cell_text_ok dumps ty value :
  (exists text, cell_text dumps ty value = Done text) <->
  (ty = "apply" -> exists fields fn,
     value = JObj fields /\ items_get "function" fields = Some fn).
Proof.
  unfold cell_text. destruct (String.eqb_spec ty "apply") as [->|Hne].
  - split.
    + intros [text H] _. destruct value; try discriminate. cbn in H.
      destruct (items_get "function" items) as [fn|] eqn:E; [|discriminate].
      now exists items, fn.
    + intros H. destruct (H eq_refl) as (fields & fn & -> & E). cbn.
      rewrite E. cbn. eauto.
  - split; [intros _ E; contradiction | eauto].
Qed.

Lemma cell_text_fail dumps ty value e :
  cell_text dumps ty value = Fail e ->
  ty = "apply" /\ (e = TTypeError \/ e = TKeyError "function").
Proof.
  unfold cell_text. destruct (String.eqb_spec ty "apply") as [->|Hne];
    [|discriminate].
  intros H. split; [reflexivity|].
  destruct value; cbn in H; try (inversion H; now left).
  destruct (items_get "function" items); cbn in H; inversion H. now right.
Qed.

Lemma labels_rows (rows : table_rows) :
  (forall t row, (t, row) ∈ rows -> head row = Some (Some t)) ->
  labels rows.*2 = Some <$> rows.*1.
Proof.
  unfold labels. induction rows as [|[t row] rest IH]; intros H; [reflexivity|].
  cbn. f_equal.
  - rewrite (H t row); [reflexivity | left].
  - apply IH. intros t' row' Hin. apply H. now right.
Qed.

Lemma extend_columns_fresh keys c :
  NoDup keys -> c ∉ keys -> extend_columns keys [c] = c :: keys.
Proof.
  intros Hnd Hc. rewrite (extend_columns_filter _ _ Hnd). cbn. f_equal.
  clear Hnd. induction keys as [|k rest IH]; [reflexivity|]. cbn.
  case_bool_decide as Hk; cbn.
  - exfalso. apply Hc. apply list_elem_of_singleton in Hk. subst. left.
  - f_equal. apply IH. intros Hin. apply Hc. now right.
Qed.

Lemma table_arguments_rectangular (dumps : json -> string)
    (config : list (string * json)) :
  match table_arguments dumps config with
  | Done (columns, data) =>
      head columns = Some "Transformation"
      /\ NoDup columns
      /\ (forall col_name,
            col_name ∈ columns <->
            col_name = "Transformation" \/ col_name ∈ config.*1)
      /\ Forall (fun row => length row = length columns) data
  | Fail e => e = TAttributeError \/ e = TTypeError \/ e = TKeyError "function"
  end.
Proof.
  unfold table_arguments.
  set (columns := extend_columns config.*1 ["Transformation"]).
  assert (Hhead : head columns = Some "Transformation")
    by apply extend_columns_head.
  assert (Hw : (0 < length columns)%nat).
  { destruct columns; [discriminate | cbn; lia]. }
  assert (Hcols : forall c, c ∈ config.*1 -> c ∈ columns).
  { intros c H. apply extend_columns_keys. now left. }
  pose proof (fill_rows_spec dumps columns config [] Hw Hcols (List.Forall_nil _)) as H.
  destruct (fill_rows dumps columns config []) as [rows|e]; cbn [obind].
  - destruct H as [Hok _]. split; [exact Hhead|]. split; [|split].
    + apply extend_columns_NoDup, NoDup_singleton.
    + intros col_name. subst columns. rewrite extend_columns_elem.
      rewrite list_elem_of_singleton. tauto.
    + unfold rows_ok in Hok. clear -Hok.
      induction Hok as [|[t row] rest Hrow Hok IH]; cbn; constructor; assumption.
  - apply Exists_exists in H as ([c t] & _ & H).
    destruct t; try (now left).
    apply Exists_exists in H as ([ty value] & _ & H).
    apply cell_text_fail in H as [_ H]. now right.
Qed.

(** X16: on any configuration and with any serialiser, a table is built
    unless the configuration is empty, and the table that is built is
    rectangular: its columns are the label column Transformation and then
    the configured columns, each once, and every row has one cell for each
    column, so the lookup of a column and the assignment to a cell never
    fail.  The only failures are an operation set that is no dict
    (AttributeError) and an apply value without a function: no dict
    (TypeError) or no such key (KeyError of function). *)
Theorem X16_config_table_rectangular (dumps : json -> string)
    (config : list (string * json)) :
  match config_table dumps config with
  | None => config = []
  | Some (Done (columns, data)) =>
      config <> []
      /\ head columns = Some "Transformation"
      /\ NoDup columns
      /\ (forall col_name,
            col_name ∈ columns <->
            col_name = "Transformation" \/ col_name ∈ config.*1)
      /\ Forall (fun row => length row = length columns) data
  | Some (Fail e) =>
      config <> []
      /\ (e = TAttributeError \/ e = TTypeError \/ e = TKeyError "function")
  end.
Proof.
  destruct config as [|item rest]; [reflexivity|]. cbn [config_table].
  pose proof (table_arguments_rectangular dumps (item :: rest)) as H.
  destruct (table_arguments dumps (item :: rest)) as [[columns data]|e];
    (split; [discriminate | exact H]).
Qed.

Lemma table_arguments_well_shaped (dumps : json -> string)
    (config : list (string * json)) :
  well_shaped config <-> exists table, table_arguments dumps config = Done table.
Proof.
  unfold table_arguments.
  set (columns := extend_columns config.*1 ["Transformation"]).
  assert (Hw : (0 < length columns)%nat).
  { pose proof (extend_columns_head config.*1 "Transformation" []) as Hh.
    fold columns in Hh. destruct columns; [discriminate | cbn; lia]. }
  assert (Hcols : forall c, c ∈ config.*1 -> c ∈ columns).
  { intros c H. apply extend_columns_keys. now left. }
  pose proof (fill_rows_spec dumps columns config [] Hw Hcols (List.Forall_nil _)) as H.
  destruct (fill_rows dumps columns config []) as [rows|e]; cbn [obind]; split.
  - eauto.
  - intros _. destruct H as [_ H]. unfold well_shaped.
    eapply Forall_impl; [exact H|]. intros [c t] (items & -> & Hitems).
    exists items. split; [reflexivity|].
    eapply Forall_impl; [exact Hitems|]. intros [ty value] Ht.
    now apply (cell_text_ok dumps).
  - intros Hws. exfalso. unfold well_shaped in Hws.
    rewrite Forall_forall in Hws.
    apply Exists_exists in H as ([c t] & Hin & H).
    destruct (Hws _ Hin) as (items & -> & Hitems).
    rewrite Forall_forall in Hitems.
    apply Exists_exists in H as ([ty value] & Hin' & H).
    destruct (proj2 (cell_text_ok dumps ty value) (Hitems _ Hin')) as [text Ht].
    congruence.
  - intros [table Ht]. discriminate.
Qed.

(** X17: the table is built exactly for the configurations that are not
    empty and in which every operation set is a dict and every apply value
    is a dict with the key function, whatever the other values are. *)
Theorem X17_config_table_succeeds_iff_well_shaped (dumps : json -> string)
    (config : list (string * json)) :
  (config <> [] /\ well_shaped config)
  <-> exists table, config_table dumps config = Some (Done table).
Proof.
  destruct config as [|item rest].
  - split; [intros [H _]; contradiction | intros [table H]; discriminate].
  - cbn [config_table]. rewrite (table_arguments_well_shaped dumps (item :: rest)).
    split.
    + intros [_ [table H]]. exists table. now rewrite H.
    + intros [table H]. split; [discriminate|]. exists table. congruence.
Qed.

(** Witness for X17: the sample configuration is well shaped, and its table
    is built. *)
Lemma X17_config_table_witness :
  (sample_json_config <> [] /\ well_shaped sample_json_config)
  /\ forall dumps,
       exists table, config_table dumps sample_json_config = Some (Done table).
Proof.
  assert (H : well_shaped sample_json_config).
  { repeat constructor; eexists; (split; [reflexivity|]); repeat constructor;
      try discriminate.
    intros _. eexists _, _. split; reflexivity. }
  assert (H' : sample_json_config <> [] /\ well_shaped sample_json_config)
    by (split; [discriminate | exact H]).
  split; [exact H'|]. intros dumps.
  exact (proj1 (X17_config_table_succeeds_iff_well_shaped dumps sample_json_config) H').
Defined.

(** X18: For a configuration with keys that are all different, as in a
    dict, and no column of the name Transformation: the columns of the
    table are Transformation and then the configured columns in their
    order; the table has one row for each kind of operation, in the order
    of their first use, and the row begins with the name of its kind; under
    a column, the row has a text exactly if the column has an operation of
    that kind, and the text is that of this operation: the value itself, or
    for an apply operation an object of type custom with the function of
    the value, whatever the configured type is. No other cell has a
    text. *)
Theorem X18_config_table_cells (dumps : json -> string)
    (config : list (string * json)) (columns : list string)
    (data : list table_row) :
  dict_like config ->
  "Transformation" ∉ config.*1 ->
  config_table dumps config = Some (Done (columns, data)) ->
  columns = "Transformation" :: config.*1
  /\ labels data = Some <$> operation_types config
  /\ forall row, row ∈ data ->
       exists ty, head row = Some (Some ty)
         /\ forall j text,
              row !! S j = Some (Some text) <->
              exists col value,
                columns !! S j = Some col
                /\ (col, ty, value) ∈ operations config
                /\ cell_text dumps ty value = Done text.
Proof.
  intros Hdict Hlabel H.
  assert (H' : table_arguments dumps config = Done (columns, data)).
  { destruct config; [discriminate|]. cbn [config_table] in H. congruence. }
  clear H. rename H' into H. unfold table_arguments in H.
  destruct (fill_rows dumps (extend_columns config.*1 ["Transformation"]) config [])
    as [rows|e] eqn:E; [|discriminate].
  cbn [obind] in H. inversion H. subst data. clear H.
  split; [apply extend_columns_fresh; [apply Hdict | exact Hlabel]|].
  set (cols := extend_columns config.*1 ["Transformation"]) in *.
  assert (Hhead : cols !! O = Some "Transformation").
  { rewrite <- head_lookup. apply extend_columns_head. }
  assert (Hnd : NoDup cols) by apply extend_columns_NoDup, NoDup_singleton.
  assert (Hcols : forall c, c ∈ config.*1 -> c ∈ cols).
  { intros c Hc. apply extend_columns_keys. now left. }
  destruct (cells_of_rows dumps cols Hhead Hnd config [] [] rows
              (cells_of_nil dumps cols) (dict_like_operations config Hdict)
              Hcols E) as (Hkeys & _ & Hcells).
  cbn [app] in Hkeys, Hcells.
  assert (Hl : "Transformation" ∉ (operations config).*1.*1).
  { intros Hin. apply Hlabel.
    apply list_elem_of_fmap in Hin as ([c ty] & E1 & Hin).
    apply list_elem_of_fmap in Hin as ([[c2 ty2] v] & E2 & Hin).
    cbn in E1, E2. inversion E2. subst.
    now apply operations_columns in Hin. }
  split.
  - rewrite labels_rows; [now rewrite Hkeys|].
    intros t row Hin. now apply (Hcells _ _ Hin).
  - intros row Hin. apply list_elem_of_fmap in Hin as ([t row0] & E1 & Hin).
    cbn in E1. subst row0. exists t. destruct (Hcells _ _ Hin) as [Hh Hc].
    split; [now apply Hh | exact Hc].
Qed.

(** Witness for X18: the table of the sample configuration. *)
Lemma X18_config_table_witness :
  dict_like sample_json_config
  /\ ("Transformation" ∉ sample_json_config.*1)
  /\ forall dumps,
       config_table dumps sample_json_config
       = Some (Done (sample_table_columns, sample_table_data dumps))
       /\ sample_table_columns = "Transformation" :: sample_json_config.*1
       /\ labels (sample_table_data dumps)
          = Some <$> operation_types sample_json_config
       /\ forall row, row ∈ sample_table_data dumps ->
            exists ty, head row = Some (Some ty)
              /\ forall j text,
                   row !! S j = Some (Some text) <->
                   exists col value,
                     sample_table_columns !! S j = Some col
                     /\ (col, ty, value) ∈ operations sample_json_config
                     /\ cell_text dumps ty value = Done text.
Proof.
  assert (Hd : dict_like sample_json_config).
  { split; [|apply List.Forall_cons; [|apply List.Forall_cons; [|apply List.Forall_nil]]];
      cbn; apply (bool_decide_unpack _); vm_compute; exact I. }
  assert (Hl : "Transformation" ∉ sample_json_config.*1).
  { apply (bool_decide_unpack _). vm_compute. exact I. }
  split; [exact Hd|]. split; [exact Hl|]. intros dumps.
  assert (Ht : config_table dumps sample_json_config
               = Some (Done (sample_table_columns, sample_table_data dumps)))
    by (vm_compute; reflexivity).
  split; [exact Ht|].
  exact (X18_config_table_cells dumps sample_json_config sample_table_columns
           (sample_table_data dumps) Hd Hl Ht).
Defined.
